(** * serverless-offline-edge-lambda: lifecycle, origin and behavior router

    A shallow embedding of the classes
      - [Origin], the client of an upstream of kind http, https, file or none,
      - [CloudFrontLifecycle], the engine that takes one request through the
        viewer-request, cache, origin-request, origin, origin-response and
        viewer-response stages,
      - [BehaviorRouter] (behavior-router.ts), the registry of path patterns
        and the listener that serves requests from it,
    together with the properties the specification states about them.

    JavaScript values are embedded as the code uses them: strings as [string],
    numbers that hold ports and status codes as [Z], objects of type
    [Record<string, any>] and [Map]s as insertion-ordered association lists,
    promises as the state they end in ([Resolved], [Rejected]) or [Pending]
    when they never settle.  The event object a lifecycle mutates, the cache
    and the calls made to handlers, cache and origin are threaded through a
    state and error monad. *)

From Stdlib Require Import String Ascii List ZArith Bool Lia DecimalString.
From Stdlib Require DecimalPos.
Import ListNotations.
Local Open Scope string_scope.
Local Open Scope Z_scope.

Set Implicit Arguments.
Set Warnings "-register-all".

(* ================================================================== *)
(** * String-keyed dictionaries *)
(* ================================================================== *)

(** JavaScript objects used as dictionaries and [Map]s with string keys both
    iterate in insertion order, and writing an existing key keeps its place. *)
Module Dict.

Definition t (V : Type) := list (string * V).

Fixpoint get {V : Type} (d : t V) (k : string) : option V :=
  match d with
  | [] => None
  | (k', v) :: rest => if (k' =? k)%string then Some v else get rest k
  end.

Definition has {V : Type} (d : t V) (k : string) : bool :=
  match get d k with
  | Some _ => true
  | None => false
  end.

Fixpoint set {V : Type} (d : t V) (k : string) (v : V) : t V :=
  match d with
  | [] => [(k, v)]
  | (k', v') :: rest =>
      if (k' =? k)%string then (k', v) :: rest else (k', v') :: set rest k v
  end.

Definition keys {V : Type} (d : t V) : list string := List.map fst d.

Definition values {V : Type} (d : t V) : list V := List.map snd d.

End Dict.

(* ================================================================== *)
(** * JavaScript values *)
(* ================================================================== *)

Module Js.

(** The fragment of JavaScript values the three files manipulate. *)
Inductive Val : Type :=
| VUndefined
| VNull
| VBool (b : bool)
| VNum (n : Z)
| VNaN
| VStr (s : string)
| VArr (items : list Val)
| VObj (fields : list (string * Val)).

(** A plain object, as property list in insertion order. *)
Definition Obj := Dict.t Val.

(** [ToBoolean]: what [if (v)], [!v] and [v || w] look at. *)
Definition truthy (v : Val) : bool :=
  match v with
  | VUndefined | VNull | VNaN => false
  | VBool b => b
  | VNum n => negb (n =? 0)
  | VStr s => negb (s =? "")%string
  | VArr _ | VObj _ => true
  end.

(** [a || b]. *)
Definition or (a b : Val) : Val := if truthy a then a else b.

Definition string_of_Z (n : Z) : string :=
  NilZero.string_of_int (Z.to_int n).

(** [ToString], as used by [x + ':'] and [x.toString()]. *)
Fixpoint toString (v : Val) : string :=
  match v with
  | VUndefined => "undefined"
  | VNull => "null"
  | VBool true => "true"
  | VBool false => "false"
  | VNum n => string_of_Z n
  | VNaN => "NaN"
  | VStr s => s
  | VArr items =>
      String.concat ","
        (List.map (fun x => match x with
                            | VUndefined | VNull => ""
                            | _ => toString x
                            end) items)
  | VObj _ => "[object Object]"
  end.

(** [v === 'lit']. *)
Definition strictEqStr (v : Val) (lit : string) : bool :=
  match v with
  | VStr s => (s =? lit)%string
  | _ => false
  end.

(** A nullable string ([string | null]) seen as a value. *)
Definition ofNullable (o : option string) : Val :=
  match o with
  | Some s => VStr s
  | None => VNull
  end.

(** [Number(x)] for [x : string | null].  Only what a port can be is
    evaluated: [null] and the empty string give [0], a run of decimal digits
    gives its value, anything else is taken as [NaN]. *)
Definition number (o : option string) : Val :=
  match o with
  | None => VNum 0
  | Some s =>
      if (s =? "")%string then VNum 0
      else match NilEmpty.uint_of_string s with
           | Some u => VNum (Z.of_uint u)
           | None => VNaN
           end
  end.

(** ** Objects *)

(** [o[k]] *)
Definition get (o : Obj) (k : string) : Val :=
  match Dict.get o k with
  | Some v => v
  | None => VUndefined
  end.

(** [o[k] = v] *)
Definition set (o : Obj) (k : string) (v : Val) : Obj := Dict.set o k v.

(** [{...a, ...b}] *)
Definition spread (a b : Obj) : Obj :=
  fold_left (fun acc kv => set acc (fst kv) (snd kv)) b a.

(** [{...a, ...v}] for a value [v]: only an object contributes properties
    (spreading [undefined] or [null] adds nothing). *)
Definition spreadVal (a : Obj) (v : Val) : Obj :=
  match v with
  | VObj b => spread a b
  | _ => a
  end.

(** ** Strings *)

Definition lowerAscii (c : ascii) : ascii :=
  let n := N_of_ascii c in
  if ((65 <=? n) && (n <=? 90))%N then ascii_of_N (n + 32) else c.

(** [s.toLowerCase()] on the ASCII range. *)
Fixpoint toLowerCase (s : string) : string :=
  match s with
  | EmptyString => EmptyString
  | String c rest => String (lowerAscii c) (toLowerCase rest)
  end.

(** [s.startsWith(p)] *)
Definition startsWith (s p : string) : bool := String.prefix p s.

(** [s.substr(0, s.length - 1)] *)
Definition dropLast (s : string) : string :=
  String.substring 0 (String.length s - 1) s.

Definition upperAscii (c : ascii) : ascii :=
  let n := N_of_ascii c in
  if ((97 <=? n) && (n <=? 122))%N then ascii_of_N (n - 32) else c.

(** [s.toUpperCase()] on the ASCII range. *)
Fixpoint toUpperCase (s : string) : string :=
  match s with
  | EmptyString => EmptyString
  | String c rest => String (upperAscii c) (toUpperCase rest)
  end.

Definition isDigit (c : ascii) : bool :=
  let n := N_of_ascii c in ((48 <=? n) && (n <=? 57))%N.

Definition isSpace (c : ascii) : bool :=
  let n := N_of_ascii c in ((n =? 32) || ((9 <=? n) && (n <=? 13)))%N.

Fixpoint trimStart (s : string) : string :=
  match s with
  | String c rest => if isSpace c then trimStart rest else s
  | EmptyString => s
  end.

Fixpoint leadingDigits (s : string) : string :=
  match s with
  | String c rest => if isDigit c then String c (leadingDigits rest) else ""
  | EmptyString => ""
  end.

Definition digitsValue (d : string) : Val :=
  if (d =? "")%string then VNaN
  else match NilEmpty.uint_of_string d with
       | Some u => VNum (Z.of_uint u)
       | None => VNaN
       end.

Definition negate (v : Val) : Val :=
  match v with
  | VNum n => VNum (- n)
  | _ => v
  end.

(** [parseInt(s, 10)]: leading white space, an optional sign, then the
    longest run of decimal digits; [NaN] when there is none. *)
Definition parseInt (s : string) : Val :=
  match trimStart s with
  | String "-" rest => negate (digitsValue (leadingDigits rest))
  | String "+" rest => digitsValue (leadingDigits rest)
  | t => digitsValue (leadingDigits t)
  end.

End Js.

(* ================================================================== *)
(** * Errors and promises *)
(* ================================================================== *)

(** The error objects that travel through the three files. *)
Inductive JsError : Type :=
| ErrNoResult
    (** [new NoResult()], the lifecycle's own "no result yet" signal *)
| ErrBoom (statusCode : Z) (error : string) (message : string)
    (** a Boom error: [output.statusCode], [output.payload.error], [message] *)
| ErrTypeError (message : string)
| ErrOther (message : string).

(** [Boom.notFound()] *)
Definition Boom_notFound : JsError := ErrBoom 404 "Not Found" "Not Found".

(** [Boom.internal(message)] *)
Definition Boom_internal (message : option string) : JsError :=
  ErrBoom 500 "Internal Server Error"
    (match message with
     | Some m => m
     | None => "Internal Server Error"
     end).

Definition errMessage (e : JsError) : string :=
  match e with
  | ErrNoResult => ""
  | ErrBoom _ _ m | ErrTypeError m | ErrOther m => m
  end.

(** [err instanceof NoResult] *)
Definition instanceofNoResult (e : JsError) : bool :=
  match e with
  | ErrNoResult => true
  | _ => false
  end.

(** [isBoom(err)] *)
Definition isBoom (e : JsError) : bool :=
  match e with
  | ErrBoom _ _ _ => true
  | _ => false
  end.

(** The state a promise ends in: resolved with a value, rejected with an
    error, or never settled.  A synchronous [throw] inside an [async] function
    is a rejection of its promise. *)
Inductive Outcome (A : Type) : Type :=
| Resolved (a : A)
| Rejected (e : JsError)
| Pending.

Arguments Resolved {A} a.
Arguments Rejected {A} e.
Arguments Pending {A}.

(** What the [catch] blocks of [run] let pass: a rejection with an error that
    is an [instanceof NoResult]. *)
Definition rejectedWithNoResult {A : Type} (o : Outcome A) : bool :=
  match o with
  | Rejected e => instanceofNoResult e
  | _ => false
  end.

(** [Boom.notFound] is a factory function of the Boom library, not a class.
    What [err instanceof Boom.notFound] does depends only on how that function
    is declared: an ordinary function owns a fresh [prototype] object that no
    error has in its chain, so the test is [false]; a class static method owns
    no [prototype] at all, so the test itself throws a [TypeError]. *)
Inductive FactoryKind : Type :=
| OrdinaryFunction
| StaticMethod.

Definition instanceofFactory (k : FactoryKind) (e : JsError) : Outcome bool :=
  match k with
  | OrdinaryFunction => Resolved false
  | StaticMethod =>
      Rejected (ErrTypeError
        "Function has non-object prototype 'undefined' in instanceof check")
  end.

(* ================================================================== *)
(** * Data model *)
(* ================================================================== *)

(** One [{ key, value }] item of a CloudFront header. *)
Record HeaderEntry : Type := mkHeaderEntry {
  hKey : string;
  hValue : string
}.

(** [CloudFrontHeaders]: lower-cased name to the items of that header. *)
Definition CloudFrontHeaders := Dict.t (list HeaderEntry).

(** [request.origin]: either [{ custom }] or [{ s3 }]. *)
Inductive RequestOrigin : Type :=
| OriginCustom (custom : Js.Obj)
| OriginS3 (s3 : Js.Obj).

(** [CloudFrontRequest] *)
Record Request : Type := mkRequest {
  clientIp : string;
  method : string;
  uri : string;
  querystring : string;
  headers : CloudFrontHeaders;
  body : option string;
  origin : option RequestOrigin
}.

(** A response body: [string | Buffer]. *)
Inductive Body : Type :=
| BodyString (s : string)
| BodyBuffer (bytes : string).

(** [CloudFrontResultResponse]; every field but [status] is optional. *)
Record Response : Type := mkResponse {
  status : string;
  statusDescription : option string;
  respHeaders : option CloudFrontHeaders;
  bodyEncoding : option string;
  respBody : option Body
}.

(** [CloudFrontResponseResult]: a response, or nothing ([undefined | null]). *)
Definition ResponseResult := option Response.

(** [CloudFrontRequestResult]: what a request-stage handler may resolve to. *)
Inductive RequestResult : Type :=
| ResultVoid
| ResultRequest (r : Request)
| ResultResponse (r : Response).

(** [event.Records[0].cf.config] *)
Record Config : Type := mkConfig {
  distributionDomainName : string;
  distributionId : string;
  eventType : string;
  requestId : string
}.

(** [CloudFrontRequestEvent], reduced to its single record
    [event.Records[0].cf]. *)
Record Event : Type := mkEvent {
  config : Config;
  request : Request
}.

(** [CloudFrontResponseEvent] *)
Record ResponseEvent : Type := mkResponseEvent {
  reConfig : Config;
  reRequest : Request;
  reResponse : ResponseResult
}.

(** The lambda [Context]. *)
Record Context : Type := mkContext {
  functionName : string
}.

(** What [url.parse] returns, every part [string | null]. *)
Record UrlObject : Type := mkUrl {
  protocol : option string;
  hostname : option string;
  port : option string;
  pathname : option string;
  path : option string
}.

(** [http.RequestOptions] as [getHttpResource] fills them. *)
Record RequestOptions : Type := mkOptions {
  optMethod : string;
  optProtocol : option string;
  optHostname : Js.Val;
  optPort : Js.Val;
  optPath : option string;
  optHeaders : Js.Obj
}.

(** An upstream request as it leaves the process: the module that sends it
    ([https] or [http]), its options, and the body chunks written before
    [req.end()]. *)
Record UpstreamRequest : Type := mkUpstream {
  viaHttps : bool;
  options : RequestOptions;
  written : list string
}.

(** The events an upstream response stream emits, in order. *)
Inductive StreamEvent : Type :=
| OnData (chunk : string)
| OnClose
| OnError (err : JsError).

(** [http.IncomingMessage] *)
Record IncomingMessage : Type := mkIncoming {
  imHeaders : Js.Obj;
  imStatusCode : option Z;
  imEvents : list StreamEvent
}.

(** [Resource], what an origin delivers. *)
Record Resource : Type := mkResource {
  resHeaders : Js.Obj;
  resStatusCode : option Z;
  resData : Body
}.

(** What the program takes from Node.js and from the Boom library. *)
Record Platform : Type := mkPlatform {
  (** [parse] of module [url] *)
  url_parse : string -> UrlObject;
  (** [path.resolve] *)
  path_resolve : string -> string;
  (** [path.join] *)
  path_join : string -> string -> string;
  (** [fs.readFile(name, 'utf-8')] *)
  fs_readFile : string -> Outcome string;
  (** [http.request] / [https.request] followed by [req.end()]: the response
      that arrives, if one does (no listener waits for an error of the
      request itself, which settles nothing) *)
  http_request : UpstreamRequest -> option IncomingMessage;
  (** [new URL(u, 'http://localhost').pathname], which throws on a malformed
      [u] *)
  URL_pathname : string -> Outcome string;
  (** how the library declares [Boom.notFound] *)
  boom_notFound : FactoryKind
}.

(** Modelled from the spec: [isResponseResult] of [utils], the type guard
    that tells a "terminal Response" from a request among the results of a
    request-stage handler. *)
Definition isResponseResult (r : RequestResult) : bool :=
  match r with
  | ResultResponse _ => true
  | _ => false
  end.

(** The result seen at the type the guard narrows it to. *)
Definition asResponseResult (r : RequestResult) : ResponseResult :=
  match r with
  | ResultResponse x => Some x
  | _ => None
  end.

(* ================================================================== *)
(** * Origin *)
(* ================================================================== *)

Inductive OriginType : Type :=
| http
| https
| file
| noop.

Record Origin : Type := mkOrigin {
  baseUrl : string;
  type : OriginType;
  customOrigin : option Js.Obj
}.

(** [addHeader] *)
Definition addHeader (headersObject : CloudFrontHeaders)
    (key : string) (value : Js.Val) : CloudFrontHeaders :=
  if negb (key =? "")%string then
    Dict.set headersObject (Js.toLowerCase key)
      [mkHeaderEntry key (if Js.truthy value then Js.toString value else "")]
  else headersObject.

Section OriginService.

Variable node : Platform.

(** [toHttpHeaders] of [utils], taken as given: it turns the CloudFront
    headers of a request into [{ key, value: string[] }] items. *)
Variable toHttpHeaders : CloudFrontHeaders -> list (string * list string).

(** The backfill of [customOrigin] in the constructor. *)
Definition backfill (base : string) (c : Js.Obj) : Js.Obj :=
  let u := url_parse node base in
  let c1 :=
    if negb (Js.truthy (Js.get c "domainName"))
    then Js.set c "domainName" (Js.ofNullable (hostname u))
    else c in
  let c2 :=
    match protocol u with
    | Some p =>
        if negb (Js.truthy (Js.get c1 "protocol")) && negb (p =? "")%string
        then Js.set c1 "protocol" (Js.VStr (Js.dropLast p))
        else c1
    | None => c1
    end in
  if negb (Js.truthy (Js.get c2 "port"))
  then Js.set c2 "port" (Js.ofNullable (port u))
  else c2.

(** [new Origin(baseUrl, customOrigin)]; an omitted [baseUrl] is [''].  The
    two regular expressions [/^http:\/\//] and [/^https:\/\//] are prefix
    tests. *)
Definition newOrigin (target : option string) (custom : option Js.Obj) : Origin :=
  let baseUrl := match target with Some t => t | None => "" end in
  let '(ty, base) :=
    if (baseUrl =? "")%string then (noop, baseUrl)
    else if Js.startsWith baseUrl "http://" then (http, baseUrl)
    else if Js.startsWith baseUrl "https://" then (https, baseUrl)
    else (file, path_resolve node baseUrl) in
  {| baseUrl := base;
     type := ty;
     customOrigin :=
       match custom with
       | Some c => Some (backfill base c)
       | None => None
       end |}.

(** [getFileResource] *)
Definition getFileResource (o : Origin) (key : string) : Outcome Resource :=
  let uri := url_parse node key in
  let fileName := Js.toString (Js.ofNullable (pathname uri)) in
  match fs_readFile node (baseUrl o ++ "/" ++ fileName) with
  | Resolved fileContent =>
      Resolved {| resHeaders := [];
                  resStatusCode := None;
                  resData := BodyString fileContent |}
  | Rejected e => Rejected e
  | Pending => Pending
  end.

(** The [reduce] over [toHttpHeaders(request.headers)]:
    [acc[item.key] = item.value[0]]. *)
Definition outgoingHeaders (h : CloudFrontHeaders) : Js.Obj :=
  fold_left
    (fun acc item =>
       Js.set acc (fst item)
         (match snd item with
          | v :: _ => Js.VStr v
          | [] => Js.VUndefined
          end))
    (toHttpHeaders h) [].

(** The name of the origin kind, as the string the source stores. *)
Definition typeName (t : OriginType) : string :=
  match t with
  | http => "http"
  | https => "https"
  | file => "file"
  | noop => "noop"
  end.

(** The [options] of [getHttpResource]. *)
Definition requestOptions (o : Origin) (req : Request) : RequestOptions :=
  let uri := url_parse node (uri req) in
  let baseUrl := url_parse node (baseUrl o) in
  let headers := outgoingHeaders (headers req) in
  match origin req with
  | Some (OriginCustom custom) =>
      {| optMethod := method req;
         optProtocol := Some (Js.toString (Js.get custom "protocol") ++ ":");
         optHostname := Js.get custom "domainName";
         optPort :=
           Js.or (Js.get custom "port")
             (if Js.strictEqStr (Js.get custom "protocol") "https"
              then Js.VNum 443 else Js.VNum 80);
         optPath := path uri;
         optHeaders :=
           Js.set (Js.spreadVal headers (Js.get custom "customHeaders"))
             "connection" (Js.VStr "Close") |}
  | _ =>
      {| optMethod := method req;
         optProtocol := protocol baseUrl;
         optHostname := Js.ofNullable (hostname baseUrl);
         optPort :=
           Js.or (Js.ofNullable (port baseUrl))
             (if Js.strictEqStr (Js.ofNullable (protocol baseUrl)) "https:"
              then Js.VNum 443 else Js.VNum 80);
         optPath := path uri;
         optHeaders := Js.set headers "connection" (Js.VStr "Close") |}
  end.

(** [(options.protocol || this.type).startsWith('https')] *)
Definition isHttps (o : Origin) (opts : RequestOptions) : bool :=
  match optProtocol opts with
  | Some p =>
      if negb (p =? "")%string then Js.startsWith p "https"
      else Js.startsWith (typeName (type o)) "https"
  | None => Js.startsWith (typeName (type o)) "https"
  end.

(** What [httpModule.request(options, ...)] and [req.end()] send upstream. *)
Definition upstreamRequest (o : Origin) (req : Request) : UpstreamRequest :=
  let opts := requestOptions o req in
  {| viaHttps := isHttps o opts;
     options := opts;
     written := [] |}.

(** The three listeners on the response: ['data'] pushes the chunk, ['close']
    resolves with the concatenation of the chunks, ['error'] rejects.  The
    first of ['close'] and ['error'] settles the promise; a stream that emits
    neither leaves it pending. *)
Fixpoint collect (res : IncomingMessage) (events : list StreamEvent)
    (chunks : list string) : Outcome Resource :=
  match events with
  | [] => Pending
  | OnData chunk :: rest => collect res rest (chunks ++ [chunk])
  | OnClose :: _ =>
      Resolved {| resHeaders := imHeaders res;
                  resStatusCode := imStatusCode res;
                  resData := BodyBuffer (String.concat "" chunks) |}
  | OnError err :: _ => Rejected err
  end.

(** [getHttpResource] *)
Definition getHttpResource (o : Origin) (req : Request) : Outcome Resource :=
  match http_request node (upstreamRequest o req) with
  | Some res => collect res (imEvents res) []
  | None => Pending
  end.

(** [getResource] *)
Definition getResource (o : Origin) (req : Request) : Outcome Resource :=
  match type o with
  | file => getFileResource o (uri req)
  | http | https => getHttpResource o req
  | noop => Rejected Boom_notFound
  end.

(** The [try] block of [retrieve] once the resource arrived. *)
Definition toResponse (r : Resource) : Response :=
  {| status := Js.string_of_Z (match resStatusCode r with
                               | Some c => c
                               | None => 0
                               end);
     statusDescription := Some "";
     respHeaders :=
       Some (fold_left (fun h kv => addHeader h (fst kv) (snd kv))
               (resHeaders r) []);
     bodyEncoding := Some "text";
     respBody := Some (resData r) |}.

(** The [catch] block of [retrieve]. *)
Definition classify (err : JsError) : Outcome Response :=
  match instanceofFactory (boom_notFound node) err with
  | Resolved true =>
      Resolved {| status := "404"; statusDescription := None;
                  respHeaders := None; bodyEncoding := None;
                  respBody := None |}
  | Resolved false =>
      Resolved {| status := "500";
                  statusDescription := Some (errMessage err);
                  respHeaders := None; bodyEncoding := None;
                  respBody := None |}
  | Rejected e => Rejected e
  | Pending => Pending
  end.

(** [retrieve] *)
Definition retrieve (o : Origin) (event : Event) : Outcome Response :=
  match getResource o (request event) with
  | Resolved r => Resolved (toResponse r)
  | Rejected err => classify err
  | Pending => Pending
  end.

End OriginService.

(* ================================================================== *)
(** * FunctionSet *)
(* ================================================================== *)

(** A request-stage handler is called with the lifecycle's own event object
    and may change it in place before it settles: it maps the event to its
    outcome and to the event as it is afterwards. *)
Definition RequestHandler := Event -> Context -> Outcome RequestResult * Event.

(** A response-stage handler is called with the event [combineResult] built. *)
Definition ResponseHandler := ResponseEvent -> Context -> Outcome ResponseResult.

(** Modelled from the spec: the class [FunctionSet] of [function-set.ts]:
    "{pattern, viewerRequest?, originRequest?, originResponse?,
    viewerResponse?, origin}", where [regex] is the pattern compiled to a
    path-matching expression, given here by its [test] method. *)
Record FunctionSet : Type := mkFunctionSet {
  pattern : string;
  regex : string -> bool;
  viewerRequest : RequestHandler;
  originRequest : RequestHandler;
  originResponse : ResponseHandler;
  viewerResponse : ResponseHandler;
  fnOrigin : Origin
}.

(** [ServerlessOptions] *)
Record ServerlessOptions : Type := mkServerlessOptions {
  cacheDir : string;
  cloudfrontPort : Z;
  disableCache : bool;
  fileDir : string;
  listenPort : Z
}.

(* ================================================================== *)
(** * CloudFrontLifecycle *)
(* ================================================================== *)

(** What a run does that can be observed from outside it: the lines it logs
    and the calls it makes to the handlers, the cache and the origin. *)
Inductive Effect : Type :=
| Log (message : string)
| CallViewerRequest (e : Event)
| CallOriginRequest (e : Event)
| CallOriginResponse (e : ResponseEvent)
| CallViewerResponse (e : ResponseEvent)
| CacheRetrieve (e : Event)
| CacheSave (e : ResponseEvent)
| OriginRetrieve (e : Event).

(** The mutable state a run works on: its event object ([this.event]), the
    cache behind [this.fileService], and the effects so far, oldest first. *)
Record State (Store : Type) : Type := mkState {
  event : Event;
  store : Store;
  trace : list Effect
}.

Arguments mkState {Store} event store trace.
Arguments event {Store} s.
Arguments store {Store} s.
Arguments trace {Store} s.

(** An [async] method of the lifecycle. *)
Definition Async (Store A : Type) : Type :=
  State Store -> Outcome A * State Store.

Section Monad.

Context {Store : Type}.

Definition ret {A : Type} (a : A) : Async Store A :=
  fun s => (Resolved a, s).

Definition throw {A : Type} (e : JsError) : Async Store A :=
  fun s => (Rejected e, s).

(** [await m] followed by [k]. *)
Definition bind {A B : Type} (m : Async Store A) (k : A -> Async Store B)
  : Async Store B :=
  fun s =>
    match m s with
    | (Resolved a, s') => k a s'
    | (Rejected e, s') => (Rejected e, s')
    | (Pending, s') => (Pending, s')
    end.

(** [try { m } catch (err) { h err }] *)
Definition tryCatch {A : Type} (m : Async Store A) (h : JsError -> Async Store A)
  : Async Store A :=
  fun s =>
    match m s with
    | (Rejected e, s') => h e s'
    | r => r
    end.

(** A promise that settled outside the lifecycle's state. *)
Definition await {A : Type} (o : Outcome A) : Async Store A :=
  fun s => (o, s).

Definition emit (e : Effect) : Async Store unit :=
  fun s => (Resolved tt, mkState (event s) (store s) (trace s ++ [e])).

(** [this.log(message)] *)
Definition log (message : string) : Async Store unit := emit (Log message).

Definition getEvent : Async Store Event :=
  fun s => (Resolved (event s), s).

Definition setEvent (e : Event) : Async Store unit :=
  fun s => (Resolved tt, mkState e (store s) (trace s)).

Definition getStore : Async Store Store :=
  fun s => (Resolved (store s), s).

Definition setStore (st : Store) : Async Store unit :=
  fun s => (Resolved tt, mkState (event s) st (trace s)).

End Monad.

Declare Scope async_scope.
Delimit Scope async_scope with async.

Notation "x <- m ;; k" := (bind m (fun x => k))
  (at level 61, m at next level, right associativity) : async_scope.
Notation "m ;; k" := (bind m (fun _ => k))
  (at level 61, right associativity) : async_scope.

(** [request.origin = v] and [delete request.origin] on the event's request. *)
Definition withOrigin (e : Event) (v : option RequestOrigin) : Event :=
  let r := request e in
  {| config := config e;
     request := {| clientIp := clientIp r; method := method r; uri := uri r;
                   querystring := querystring r; headers := headers r;
                   body := body r; origin := v |} |}.

Section Lifecycle.

Variable node : Platform.
Variable toHttpHeaders : CloudFrontHeaders -> list (string * list string).

(** The [CacheService] behind [this.fileService], taken as given: a lookup
    that finds an entry or nothing and a write, over whatever it stores. *)
Variables Store CacheEntry : Type.
Variable retrieveFromCache : Store -> Event -> option CacheEntry.
Variable saveToCache : Store -> ResponseEvent -> Store.

(** [toResultResponse] and [combineResult] of [utils], taken as given: the
    response made from a cache entry, and the event that carries a result. *)
Variable toResultResponse : CacheEntry -> Response.
Variable combineResult : Event -> ResponseResult -> ResponseEvent.

(** The constructor's [options], [context] and [fnSet]. *)
Variable opts : ServerlessOptions.
Variable context : Context.
Variable fnSet : FunctionSet.

Local Open Scope async_scope.

(** [this.fnSet.viewerRequest(this.event, this.context)] and its sibling: the
    handler gets the event object itself. *)
Definition callRequestHandler (mark : Event -> Effect) (h : RequestHandler)
  : Async Store RequestResult :=
  fun s =>
    let '(o, e') := h (event s) context in
    (o, mkState e' (store s) (trace s ++ [mark (event s)])).

Definition callResponseHandler (mark : ResponseEvent -> Effect)
    (h : ResponseHandler) (e : ResponseEvent) : Async Store ResponseResult :=
  emit (mark e) ;; await (h e context).

(** [onViewerResponse] *)
Definition onViewerResponse (result : ResponseResult)
  : Async Store ResponseResult :=
  log "← viewer-response" ;;
  ev <- getEvent ;;
  callResponseHandler CallViewerResponse (viewerResponse fnSet)
    (combineResult ev result).

(** [onViewerRequest] *)
Definition onViewerRequest : Async Store ResponseResult :=
  log "→ viewer-request" ;;
  result <- callRequestHandler CallViewerRequest (viewerRequest fnSet) ;;
  if isResponseResult result then onViewerResponse (asResponseResult result)
  else throw ErrNoResult.

(** [onCache] *)
Definition onCache : Async Store ResponseResult :=
  log "→ cache" ;;
  if disableCache opts then
    log "✗ Cache disabled" ;;
    throw ErrNoResult
  else
    ev <- getEvent ;;
    st <- getStore ;;
    emit (CacheRetrieve ev) ;;
    match retrieveFromCache st ev with
    | None =>
        log "✗ Cache miss" ;;
        throw ErrNoResult
    | Some cached =>
        log "✓ Cache hit" ;;
        onViewerResponse (Some (toResultResponse cached))
    end.

(** [onOrigin] *)
Definition onOrigin : Async Store Response :=
  log "→ origin" ;;
  ev <- getEvent ;;
  emit (OriginRetrieve ev) ;;
  await (retrieve node toHttpHeaders (fnOrigin fnSet) ev).

(** [onOriginResponse] *)
Definition onOriginResponse (result : ResponseResult)
  : Async Store ResponseResult :=
  log "← origin-response" ;;
  ev <- getEvent ;;
  callResponseHandler CallOriginResponse (originResponse fnSet)
    (combineResult ev result).

(** The [custom] object [onOriginRequest] builds from the defaults, the
    request's own url and the origin's [customOrigin]. *)
Definition synthesizeCustom (customOrigin : Js.Obj) (requestUri : string)
  : Js.Obj :=
  let u := url_parse node requestUri in
  let proto :=
    if Js.strictEqStr (Js.ofNullable (protocol u)) "https:"
    then "https" else "http" in
  let custom :=
    Js.spread
      [ ("customHeaders", Js.VObj []);
        ("domainName", Js.VStr "");
        ("keepaliveTimeout", Js.VNum 5);
        ("path", Js.VStr "");
        ("port", Js.number (port u));
        ("protocol", Js.VStr proto);
        ("readTimeout", Js.VNum 30);
        ("sslProtocols",
          Js.VArr [Js.VStr "TLSv1"; Js.VStr "TLSv1.1"; Js.VStr "TLSv1.2"]) ]
      customOrigin in
  if negb (Js.truthy (Js.get custom "domainName"))
  then Js.set custom "domainName"
         (Js.or (Js.ofNullable (hostname u)) (Js.VStr ""))
  else custom.

(** The [if (this.fnSet.origin.customOrigin)] block of [onOriginRequest]:
    [request.origin = { custom }]. *)
Definition withCustomOrigin (ev : Event) : Event :=
  match customOrigin (fnOrigin fnSet) with
  | Some c =>
      withOrigin ev
        (Some (OriginCustom (synthesizeCustom c (uri (request ev)))))
  | None => ev
  end.

(** [onOriginRequest] *)
Definition onOriginRequest : Async Store ResponseResult :=
  log "→ origin-request" ;;
  ev <- getEvent ;;
  setEvent (withCustomOrigin ev) ;;
  result <- callRequestHandler CallOriginRequest (originRequest fnSet) ;;
  if isResponseResult result then ret (asResponseResult result)
  else
    resultFromOrigin <- onOrigin ;;
    onOriginResponse (Some resultFromOrigin).

(** [try { return await m; } catch (err) { if (!(err instanceof NoResult))
    throw err; }]: [Some] is the value the [try] returned, [None] says that
    control leaves the statement at its end. *)
Definition returnUnlessNoResult (m : Async Store ResponseResult)
  : Async Store (option ResponseResult) :=
  tryCatch
    (r <- m ;; ret (Some r))
    (fun err =>
       if negb (instanceofNoResult err) then throw err else ret None).

(** [this.fileService.saveToCache(e)] *)
Definition cacheSave (e : ResponseEvent) : Async Store unit :=
  emit (CacheSave e) ;;
  st <- getStore ;;
  setStore (saveToCache st e).

(** The statements of [run] after its two [try] blocks, reached when neither
    of them returned. *)
Definition fromOriginRequest : Async Store ResponseResult :=
  result <- onOriginRequest ;;
  ev <- getEvent ;;
  setEvent (withOrigin ev None) ;;
  cacheSave (combineResult (withOrigin ev None) result) ;;
  onViewerResponse result.

(** [run] *)
Definition run (url : string) : Async Store ResponseResult :=
  log ("Request for " ++ url) ;;
  viewer <- returnUnlessNoResult onViewerRequest ;;
  match viewer with
  | Some r => ret r
  | None =>
      cached <- returnUnlessNoResult onCache ;;
      match cached with
      | Some r => ret r
      | None => fromOriginRequest
      end
  end.

End Lifecycle.

(* ================================================================== *)
(** * BehaviorRouter (behavior-router.ts) *)
(* ================================================================== *)

(** [EdgeLambdaOptions] *)
Record EdgeLambdaOptions : Type := mkEdgeLambdaOptions {
  distribution : string;
  edgeEventType : string;
  edgePathPattern : string
}.

(** [CloudFrontEventOptions] *)
Record CloudFrontEventOptions : Type := mkCloudFrontEventOptions {
  cfEventType : string;
  cfPathPattern : string
}.

(** [ServerlessLambdaEvent]; [!!ev.cloudFront] is looked at, so the property
    may be missing. *)
Record ServerlessLambdaEvent : Type := mkLambdaEvent {
  cloudFront : option CloudFrontEventOptions
}.

(** [ServerlessFunction] *)
Record ServerlessFunction : Type := mkServerlessFunction {
  handler : string;
  lambdaAtEdge : option EdgeLambdaOptions;
  events : list ServerlessLambdaEvent
}.

(** [OriginMapping] *)
Record OriginMapping : Type := mkOriginMapping {
  pathPattern : string;
  target : string;
  customOriginConfig : option Js.Obj
}.

(** The inbound [IncomingMessage] of the listener, with its parsed body. *)
Record IncomingRequest : Type := mkIncomingRequest {
  reqUrl : option string;
  reqMethod : option string;
  reqHeaders : Dict.t string;
  reqBody : option string
}.

(** What was handed to [res.end]. *)
Record Sent : Type := mkSent {
  sentBody : option Body;
  sentEncoding : option string
}.

(** The [ServerResponse] the listener writes to. *)
Record ServerResponse : Type := mkServerResponse {
  statusCode : Js.Val;
  statusMessage : string;
  sentHeaders : Dict.t Js.Val;
  ended : option Sent
}.

(** A response nothing has been written to. *)
Definition freshResponse : ServerResponse :=
  {| statusCode := Js.VNum 200;
     statusMessage := "";
     sentHeaders := [];
     ended := None |}.

(** [this.behaviors], a [Map<string, FunctionSet>]. *)
Definition Behaviors := Dict.t FunctionSet.

(** Modelled from the spec: the handlers of a stage nobody registered for,
    "absence means pass-through at that stage". *)
Definition identityRequestHandler : RequestHandler :=
  fun e _ => (Resolved (ResultRequest (request e)), e).

Definition identityResponseHandler : ResponseHandler :=
  fun e _ => Resolved (reResponse e).

(** [handleError] *)
Definition handleError (err : JsError) (res : ServerResponse) : ServerResponse :=
  match err with
  | ErrBoom code error message =>
      {| statusCode := Js.VNum code;
         statusMessage := error;
         sentHeaders := sentHeaders res;
         ended := Some (mkSent (Some (BodyString message)) None) |}
  | _ => res
  end.

(** What the listener hands to [res.end] for a body: a string as it is, any
    other body with the encoding [binary]. *)
Definition toSend (b : option Body) : Sent :=
  match b with
  | Some (BodyString s) => mkSent (Some (BodyString s)) None
  | _ => mkSent b (Some "binary")
  end.

(** [res.setHeader(key, value)], when Node accepts it. *)
Definition withHeader (res : ServerResponse) (key : string) (value : Js.Val)
  : ServerResponse :=
  {| statusCode := statusCode res; statusMessage := statusMessage res;
     sentHeaders := Dict.set (sentHeaders res) key value;
     ended := ended res |}.

(** [res.end(...)], when Node accepts it. *)
Definition finish (res : ServerResponse) (sent : Sent) : ServerResponse :=
  {| statusCode := statusCode res; statusMessage := statusMessage res;
     sentHeaders := sentHeaders res; ended := Some sent |}.

(** [a || b] on strings. *)
Definition orElse (a b : string) : string :=
  if (a =? "")%string then b else a.

Section Router.

Variable node : Platform.
Variable toHttpHeaders : CloudFrontHeaders -> list (string * list string).
Variables Store CacheEntry : Type.
Variable retrieveFromCache : Store -> Event -> option CacheEntry.
Variable saveToCache : Store -> ResponseEvent -> Store.
Variable toResultResponse : CacheEntry -> Response.
Variable combineResult : Event -> ResponseResult -> ResponseEvent.

(** [purge] of the [CacheService], taken as given. *)
Variable purge : Store -> Store.

(** The compiler of a pattern into a path-matching expression, taken as
    given; it throws on a malformed pattern. *)
Variable globToRegExp : string -> Outcome (string -> bool).

(** The loader of the module at a path as a request-stage or response-stage
    handler, taken as given. *)
Variable loadRequestHandler : string -> Outcome RequestHandler.
Variable loadResponseHandler : string -> Outcome ResponseHandler.

(** [convertToCloudFrontEvent(req, this.builder('viewer-request'))] and
    [CloudFrontHeadersHelper.asHttpHeaders] of [utils], taken as given: calls
    that return or throw. *)
Variable convertToCloudFrontEvent : IncomingRequest -> Outcome Event.
Variable asHttpHeaders : option CloudFrontHeaders -> Outcome (list (string * Js.Val)).

(** [res.setHeader] and [res.end] belong to Node's [http] module, which throws
    on what it refuses: a header name or value that is not valid, a status
    code or a status message it cannot write.  What Node refuses is taken as
    given: the error a call throws, if any, on the response as it is when the
    call is made; a call that throws leaves the response as it was.  This is
    for the calls that write what a handler's response holds.  The listener's
    other calls of [res.end] follow a status code the listener sets itself,
    200, 404 or that of a Boom error. *)
Variable setHeaderError : ServerResponse -> string -> Js.Val -> option JsError.
Variable endError : ServerResponse -> Sent -> option JsError.

Variable serverless_path : string.
Variable opts : ServerlessOptions.
Variable context : Context.

(** [configureOrigins] *)
Definition configureOrigins (mappings : list OriginMapping) : Dict.t Origin :=
  fold_left
    (fun acc item =>
       Dict.set acc (pathPattern item)
         (newOrigin node (Some (target item)) (customOriginConfig item)))
    mappings [].

(** Modelled from the spec: [new FunctionSet(pattern, log, origin)] of
    [function-set.ts], which "holds 0-1 handler per stage and one Origin
    (defaults to kind none if the pattern has no origin mapping)", and whose
    "construction fails fatally on a malformed pattern expression". *)
Definition newFunctionSet (pattern : string) (origin : option Origin)
  : Outcome FunctionSet :=
  match globToRegExp pattern with
  | Resolved re =>
      Resolved {| pattern := pattern;
                  regex := re;
                  viewerRequest := identityRequestHandler;
                  originRequest := identityRequestHandler;
                  originResponse := identityResponseHandler;
                  viewerResponse := identityResponseHandler;
                  fnOrigin := match origin with
                              | Some o => o
                              | None => newOrigin node None None
                              end |}
  | Rejected e => Rejected e
  | Pending => Pending
  end.

Definition withViewerRequest (f : FunctionSet) (h : RequestHandler) :=
  {| pattern := pattern f; regex := regex f; viewerRequest := h;
     originRequest := originRequest f; originResponse := originResponse f;
     viewerResponse := viewerResponse f; fnOrigin := fnOrigin f |}.

Definition withOriginRequest (f : FunctionSet) (h : RequestHandler) :=
  {| pattern := pattern f; regex := regex f; viewerRequest := viewerRequest f;
     originRequest := h; originResponse := originResponse f;
     viewerResponse := viewerResponse f; fnOrigin := fnOrigin f |}.

Definition withOriginResponse (f : FunctionSet) (h : ResponseHandler) :=
  {| pattern := pattern f; regex := regex f; viewerRequest := viewerRequest f;
     originRequest := originRequest f; originResponse := h;
     viewerResponse := viewerResponse f; fnOrigin := fnOrigin f |}.

Definition withViewerResponse (f : FunctionSet) (h : ResponseHandler) :=
  {| pattern := pattern f; regex := regex f; viewerRequest := viewerRequest f;
     originRequest := originRequest f; originResponse := originResponse f;
     viewerResponse := h; fnOrigin := fnOrigin f |}.

Definition mapOutcome {A B : Type} (f : A -> B) (o : Outcome A) : Outcome B :=
  match o with
  | Resolved a => Resolved (f a)
  | Rejected e => Rejected e
  | Pending => Pending
  end.

(** Modelled from the spec: [fnSet.setHandler(eventType, path)] of
    [function-set.ts]: "registering a handler for a stage already set replaces
    it (last write wins); registrations for different stages on the same
    pattern accumulate independently". *)
Definition setHandler (f : FunctionSet) (eventType path : string)
  : Outcome FunctionSet :=
  if (eventType =? "viewer-request")%string then
    mapOutcome (withViewerRequest f) (loadRequestHandler path)
  else if (eventType =? "origin-request")%string then
    mapOutcome (withOriginRequest f) (loadRequestHandler path)
  else if (eventType =? "origin-response")%string then
    mapOutcome (withOriginResponse f) (loadResponseHandler path)
  else if (eventType =? "viewer-response")%string then
    mapOutcome (withViewerResponse f) (loadResponseHandler path)
  else Resolved f.

(** [def.events.find(ev => !!ev.cloudFront)] with its fallback
    [{ cloudFront: { pathPattern: '', eventType: '' } }]. *)
Fixpoint nativeDef (evs : list ServerlessLambdaEvent) : CloudFrontEventOptions :=
  match evs with
  | [] => mkCloudFrontEventOptions "" ""
  | ev :: rest =>
      match cloudFront ev with
      | Some cf => cf
      | None => nativeDef rest
      end
  end.

(** [(customDef && customDef.pathPattern) || nativeDef.pathPattern || '*'] *)
Definition patternOf (def : ServerlessFunction) : string :=
  orElse
    (orElse (match lambdaAtEdge def with
             | Some c => edgePathPattern c
             | None => ""
             end)
            (cfPathPattern (nativeDef (events def))))
    "*".

(** [(customDef && customDef.eventType) || nativeDef.eventType] *)
Definition eventTypeOf (def : ServerlessFunction) : string :=
  orElse (match lambdaAtEdge def with
          | Some c => edgeEventType c
          | None => ""
          end)
         (cfEventType (nativeDef (events def))).

(** ['lambdaAtEdge' in fn || fn.events.some(ev => !!ev.cloudFront)] *)
Definition isLambdaDef (fn : ServerlessFunction) : bool :=
  match lambdaAtEdge fn with
  | Some _ => true
  | None =>
      existsb (fun ev => match cloudFront ev with
                         | Some _ => true
                         | None => false
                         end) (events fn)
  end.

(** [behaviors.has(pattern)] or else
    [behaviors.set(pattern, new FunctionSet(pattern, log, origins.get(pattern)))]. *)
Definition ensureBehavior (origins : Dict.t Origin) (behaviors : Behaviors)
    (pattern : string) : Outcome Behaviors :=
  if Dict.has behaviors pattern then Resolved behaviors
  else mapOutcome (Dict.set behaviors pattern)
         (newFunctionSet pattern (Dict.get origins pattern)).

(** One turn of the loop of [extractBehaviors]. *)
Definition registerDef (origins : Dict.t Origin) (behaviors : Behaviors)
    (def : ServerlessFunction) : Outcome Behaviors :=
  let pattern := patternOf def in
  match ensureBehavior origins behaviors pattern with
  | Resolved behaviors1 =>
      match Dict.get behaviors1 pattern with
      | Some fnSet =>
          let eventType := eventTypeOf def in
          if negb (eventType =? "")%string then
            mapOutcome (Dict.set behaviors1 pattern)
              (setHandler fnSet eventType
                 (path_join node serverless_path (handler def)))
          else Resolved behaviors1
      | None => Rejected (ErrTypeError "Cannot read property 'setHandler' of undefined")
      end
  | Rejected e => Rejected e
  | Pending => Pending
  end.

Fixpoint registerAll (origins : Dict.t Origin) (behaviors : Behaviors)
    (defs : list ServerlessFunction) : Outcome Behaviors :=
  match defs with
  | [] => Resolved behaviors
  | def :: rest =>
      match registerDef origins behaviors def with
      | Resolved behaviors1 => registerAll origins behaviors1 rest
      | Rejected e => Rejected e
      | Pending => Pending
      end
  end.

(** [extractBehaviors]: the map is cleared, every lambda definition is
    registered in the order of [Object.entries(functions)], and a ["*"] entry
    is added last when none was registered. *)
Definition extractBehaviors (origins : Dict.t Origin)
    (functions : Dict.t ServerlessFunction) : Outcome Behaviors :=
  let lambdaDefs := filter isLambdaDef (Dict.values functions) in
  match registerAll origins [] lambdaDefs with
  | Resolved behaviors => ensureBehavior origins behaviors "*"
  | Rejected e => Rejected e
  | Pending => Pending
  end.

(** The [for ... of this.behaviors] loop of [match]. *)
Fixpoint firstMatch (behaviors : Behaviors) (pathname : string)
  : option FunctionSet :=
  match behaviors with
  | [] => None
  | (_, handler) :: rest =>
      if regex handler pathname then Some handler else firstMatch rest pathname
  end.

(** [match]; [None] is [null]. *)
Definition match_ (behaviors : Behaviors) (req : IncomingRequest)
  : Outcome (option FunctionSet) :=
  match reqUrl req with
  | None => Resolved None
  | Some url =>
      if (url =? "")%string then Resolved None
      else
        match URL_pathname node url with
        | Resolved pathname =>
            match firstMatch behaviors pathname with
            | Some handler => Resolved (Some handler)
            | None => Resolved (Dict.get behaviors "*")
            end
        | Rejected e => Rejected e
        | Pending => Pending
        end
  end.

(** The [for] loop over [helper.asHttpHeaders()]:
    [if (value) res.setHeader(key, value)]; the loop ends at the first call
    that throws. *)
Fixpoint setHeaders (hs : list (string * Js.Val)) (res : ServerResponse)
  : Outcome unit * ServerResponse :=
  match hs with
  | [] => (Resolved tt, res)
  | (key, value) :: rest =>
      if Js.truthy value then
        match setHeaderError res key value with
        | Some err => (Rejected err, res)
        | None => setHeaders rest (withHeader res key value)
        end
      else setHeaders rest res
  end.

(** The [try] block of the listener once [run] resolved. *)
Definition sendResponse (response : ResponseResult) (res : ServerResponse)
  : Outcome unit * ServerResponse :=
  match response with
  | None => (Rejected (Boom_internal None), res)
  | Some response =>
      let res1 :=
        {| statusCode := Js.parseInt (status response);
           statusMessage := match statusDescription response with
                            | Some d => d
                            | None => ""
                            end;
           sentHeaders := sentHeaders res;
           ended := ended res |} in
      match asHttpHeaders (respHeaders response) with
      | Resolved hs =>
          match setHeaders hs res1 with
          | (Resolved _, res2) =>
              match endError res2 (toSend (respBody response)) with
              | Some err => (Rejected err, res2)
              | None => (Resolved tt, finish res2 (toSend (respBody response)))
              end
          | (Rejected err, res2) => (Rejected err, res2)
          | (Pending, res2) => (Pending, res2)
          end
      | Rejected e => (Rejected e, res1)
      | Pending => (Pending, res1)
      end
  end.

(** [catch (err) { if (isBoom(err)) { this.handleError(err, res); return; } }] *)
Definition catchBoom (r : Outcome unit * ServerResponse)
  : Outcome unit * ServerResponse :=
  match r with
  | (Rejected err, res) =>
      if isBoom err then (Resolved tt, handleError err res)
      else (Resolved tt, res)
  | _ => r
  end.

Definition endWith (code : Z) (res : ServerResponse) : ServerResponse :=
  {| statusCode := Js.VNum code; statusMessage := statusMessage res;
     sentHeaders := sentHeaders res; ended := Some (mkSent None None) |}.

(** The lifecycle the listener builds for one request, run to its end. *)
Definition runLifecycle (handler : FunctionSet) (cfEvent : Event)
    (url : string) (st : Store) : Outcome ResponseResult * State Store :=
  run node toHttpHeaders retrieveFromCache saveToCache toResultResponse
    combineResult opts context handler url (mkState cfEvent st []).

(** The request handler [listen] installs: what it settles to, what it wrote
    to [res], and the cache afterwards.  [match] and the conversion of the
    request are called, in this order, before the handler is looked at and
    outside the [try] block: what they throw rejects the handler. *)
Definition requestHandler (behaviors : Behaviors) (req : IncomingRequest)
    (res : ServerResponse) (st : Store)
  : Outcome unit * ServerResponse * Store :=
  if (Js.toUpperCase (match reqMethod req with Some m => m | None => "" end)
        =? "PURGE")%string
  then (Resolved tt, endWith 200 res, purge st)
  else
    match match_ behaviors req with
    | Resolved handler =>
        match convertToCloudFrontEvent req with
        | Resolved cfEvent =>
            match handler with
            | None => (Resolved tt, endWith 404 res, st)
            | Some handler =>
                let url := match reqUrl req with Some u => u | None => "" end in
                let '(response, s) := runLifecycle handler cfEvent url st in
                let '(settled, res') :=
                  catchBoom
                    (match response with
                     | Resolved r => sendResponse r res
                     | Rejected err => (Rejected err, res)
                     | Pending => (Pending, res)
                     end) in
                (settled, res', store s)
            end
        | Rejected e => (Rejected e, res, st)
        | Pending => (Pending, res, st)
        end
    | Rejected e => (Rejected e, res, st)
    | Pending => (Pending, res, st)
    end.

End Router.

(** ** Reading a trace *)

(** The events the cache was asked for. *)
Fixpoint cacheLookups (l : list Effect) : list Event :=
  match l with
  | [] => []
  | CacheRetrieve e :: rest => e :: cacheLookups rest
  | _ :: rest => cacheLookups rest
  end.

(** The events written to the cache. *)
Fixpoint cacheWrites (l : list Effect) : list ResponseEvent :=
  match l with
  | [] => []
  | CacheSave e :: rest => e :: cacheWrites rest
  | _ :: rest => cacheWrites rest
  end.

(** The events the origin was asked to retrieve. *)
Fixpoint originFetches (l : list Effect) : list Event :=
  match l with
  | [] => []
  | OriginRetrieve e :: rest => e :: originFetches rest
  | _ :: rest => originFetches rest
  end.

(** The events the origin-request handler was called with. *)
Fixpoint originRequestCalls (l : list Effect) : list Event :=
  match l with
  | [] => []
  | CallOriginRequest e :: rest => e :: originRequestCalls rest
  | _ :: rest => originRequestCalls rest
  end.

(** The events the origin-response handler was called with. *)
Fixpoint originResponseCalls (l : list Effect) : list ResponseEvent :=
  match l with
  | [] => []
  | CallOriginResponse e :: rest => e :: originResponseCalls rest
  | _ :: rest => originResponseCalls rest
  end.

(** The events the viewer-response handler was called with. *)
Fixpoint viewerResponseCalls (l : list Effect) : list ResponseEvent :=
  match l with
  | [] => []
  | CallViewerResponse e :: rest => e :: viewerResponseCalls rest
  | _ :: rest => viewerResponseCalls rest
  end.

(** A method is quiet when it neither writes to the cache nor changes what
    the cache holds. *)
Definition quiet {Store A : Type} (m : Async Store A) : Prop :=
  forall s o s',
    m s = (o, s') ->
    cacheWrites (trace s') = cacheWrites (trace s) /\ store s' = store s.

(** [request.body = b] *)
Definition withBody (r : Request) (b : option string) : Request :=
  {| clientIp := clientIp r; method := method r; uri := uri r;
     querystring := querystring r; headers := headers r;
     body := b; origin := origin r |}.

(** The patterns of a list in the order they are first seen, which is the
    order a [Map] keeps when they are inserted one after the other. *)
Fixpoint firstSeen (seen : list string) (patterns : list string) : list string :=
  match patterns with
  | [] => seen
  | p :: rest =>
      if existsb (fun k => (k =? p)%string) seen then firstSeen seen rest
      else firstSeen (seen ++ [p]) rest
  end.

(** A map is well keyed when every entry holds the FunctionSet of its own key,
    with the key compiled as its expression. *)
Definition wellKeyed (globToRegExp : string -> Outcome (string -> bool))
    (behaviors : Behaviors) : Prop :=
  forall k f, In (k, f) behaviors ->
    pattern f = k /\ globToRegExp k = Resolved (regex f).

(** A reading of the trace that looks at each effect by itself, so that the
    reading of two runs of effects is the readings of each, one after the
    other. *)
Class TraceView {X : Type} (view : list Effect -> list X) : Prop :=
  view_app : forall a b, view (a ++ b)%list = (view a ++ view b)%list.

(** A method keeps a reading when it adds nothing to it. *)
Definition keeps {Store A X : Type} (view : list Effect -> list X)
    (m : Async Store A) : Prop :=
  forall s o s',
    m s = (o, s') -> view (trace s') = view (trace s).

(** A method adds at most one entry to a reading. *)
Definition addsOne {Store A X : Type} (view : list Effect -> list X)
    (m : Async Store A) : Prop :=
  forall s o s',
    m s = (o, s') ->
    exists l,
      view (trace s') = (view (trace s) ++ l)%list /\ (List.length l <= 1)%nat.

(* ================================================================== *)
(** * A concrete distribution *)
(* ================================================================== *)

(** A small configuration on which the statements below are evaluated: an
    http origin, an https origin, a directory and no origin at all, a cache
    kept as the list of what was saved, and a few handlers. *)
Module Fixture.

Definition parse (s : string) : UrlObject :=
  if (s =? "http://origin.test:8080")%string then
    mkUrl (Some "http:") (Some "origin.test") (Some "8080") (Some "/") (Some "/")
  else if (s =? "https://secure.test")%string then
    mkUrl (Some "https:") (Some "secure.test") None (Some "/") (Some "/")
  else mkUrl None None None (Some s) (Some s).

Definition upstream : IncomingMessage :=
  {| imHeaders := [("Content-Type", Js.VStr "text/plain")];
     imStatusCode := Some 200;
     imEvents := [OnData "hel"; OnData "lo"; OnClose] |}.

Definition node (k : FactoryKind) : Platform :=
  {| url_parse := parse;
     path_resolve := fun p => "/srv/" ++ p;
     path_join := fun a b => a ++ "/" ++ b;
     fs_readFile := fun name =>
       if (name =? "/srv/site//index.html")%string then Resolved "<html/>"
       else Rejected (ErrOther "ENOENT");
     http_request := fun _ => Some upstream;
     URL_pathname := fun u => Resolved u;
     boom_notFound := k |}.

Definition toHttpHeaders (h : CloudFrontHeaders) : list (string * list string) :=
  List.map (fun kv => (fst kv, List.map hValue (snd kv))) h.

Definition Store := list ResponseEvent.

Fixpoint retrieveFromCache (st : Store) (ev : Event) : option Response :=
  match st with
  | [] => None
  | re :: rest =>
      if (uri (reRequest re) =? uri (request ev))%string then
        match reResponse re with
        | Some r => Some r
        | None => retrieveFromCache rest ev
        end
      else retrieveFromCache rest ev
  end.

Definition saveToCache (st : Store) (re : ResponseEvent) : Store := re :: st.

Definition toResultResponse (r : Response) : Response := r.

Definition combineResult (e : Event) (r : ResponseResult) : ResponseEvent :=
  mkResponseEvent (config e) (request e) r.

Definition cacheOn : ServerlessOptions :=
  mkServerlessOptions "/tmp/cache" 8080 false "/tmp/files" 3000.

Definition cacheOff : ServerlessOptions :=
  mkServerlessOptions "/tmp/cache" 8080 true "/tmp/files" 3000.

Definition ctx : Context := mkContext "edge".

Definition get (path : string) : Request :=
  {| clientIp := "127.0.0.1"; method := "GET"; uri := path; querystring := "";
     headers := [("host", [mkHeaderEntry "Host" "localhost"])];
     body := None; origin := None |}.

Definition post (path payload : string) : Request :=
  withBody
    {| clientIp := "127.0.0.1"; method := "POST"; uri := path;
       querystring := ""; headers := []; body := None; origin := None |}
    (Some payload).

Definition eventOf (r : Request) : Event :=
  mkEvent (mkConfig "d111.cloudfront.test" "EDFDVBD6EXAMPLE" "viewer-request" "1") r.

Definition teapot : Response :=
  mkResponse "418" (Some "I'm a teapot") None None (Some (BodyString "short"))  .

(** A request handler that answers by itself. *)
Definition respond (r : Response) : RequestHandler :=
  fun e _ => (Resolved (ResultResponse r), e).

(** A request handler that fails. *)
Definition failWith (err : JsError) : RequestHandler :=
  fun e _ => (Rejected err, e).

(** A response handler that marks what it saw. *)
Definition stamp (mark : string) : ResponseHandler :=
  fun e _ =>
    match reResponse e with
    | Some r =>
        Resolved (Some (mkResponse (status r) (Some mark) (respHeaders r)
                          (bodyEncoding r) (respBody r)))
    | None => Resolved None
    end.

Definition anyPath : string -> bool := fun _ => true.

Definition httpOrigin : Origin :=
  newOrigin (node OrdinaryFunction) (Some "http://origin.test:8080") None.

Definition noOrigin (k : FactoryKind) : Origin := newOrigin (node k) None None.

(** Viewer-request answers by itself. *)
Definition viewerAnswers : FunctionSet :=
  mkFunctionSet "*" anyPath (respond teapot) identityRequestHandler
    (stamp "origin-response") (stamp "viewer-response") httpOrigin.

(** Origin-request answers by itself. *)
Definition originAnswers : FunctionSet :=
  mkFunctionSet "*" anyPath identityRequestHandler (respond teapot)
    (stamp "origin-response") (stamp "viewer-response") httpOrigin.

(** No handler answers: the http origin is asked. *)
Definition proxied : FunctionSet :=
  mkFunctionSet "*" anyPath identityRequestHandler identityRequestHandler
    (stamp "origin-response") (stamp "viewer-response") httpOrigin.

(** No handler answers and there is no origin. *)
Definition unbacked (k : FactoryKind) : FunctionSet :=
  mkFunctionSet "*" anyPath identityRequestHandler identityRequestHandler
    identityResponseHandler identityResponseHandler (noOrigin k).

(** Origin-request fails with an error that is not a Boom error. *)
Definition originFails : FunctionSet :=
  mkFunctionSet "*" anyPath identityRequestHandler (failWith (ErrOther "boom?"))
    identityResponseHandler identityResponseHandler httpOrigin.

(** Origin-request fails with a Boom error. *)
Definition originForbids : FunctionSet :=
  mkFunctionSet "*" anyPath identityRequestHandler
    (failWith (ErrBoom 403 "Forbidden" "not for you"))
    identityResponseHandler identityResponseHandler httpOrigin.

Definition start (r : Request) (st : Store) : State Store :=
  mkState (eventOf r) st [].

(** [run] on this configuration. *)
Definition runOn (k : FactoryKind) (o : ServerlessOptions) (f : FunctionSet)
    (r : Request) (st : Store) : Outcome ResponseResult * State Store :=
  run (node k) toHttpHeaders retrieveFromCache saveToCache toResultResponse
    combineResult o ctx f (uri r) (start r st).

(** ** The router's side *)

Definition purge (st : Store) : Store := [].

(** Patterns ["*"] and ["/api/*"] compile, every other pattern is malformed. *)
Definition globToRegExp (p : string) : Outcome (string -> bool) :=
  if (p =? "*")%string then Resolved anyPath
  else if (p =? "/api/*")%string then Resolved (fun path => Js.startsWith path "/api/")
  else Rejected (ErrOther "malformed pattern").

Definition loadRequestHandler (path : string) : Outcome RequestHandler :=
  Resolved identityRequestHandler.

Definition loadResponseHandler (path : string) : Outcome ResponseHandler :=
  Resolved (stamp path).

Definition converted (req : IncomingRequest) : Event :=
  eventOf
    {| clientIp := "127.0.0.1";
       method := match reqMethod req with Some m => m | None => "" end;
       uri := match reqUrl req with Some u => u | None => "" end;
       querystring := ""; headers := []; body := reqBody req; origin := None |}.

Definition convertToCloudFrontEvent (req : IncomingRequest) : Outcome Event :=
  Resolved (converted req).

(** A header without a name is refused. *)
Definition setHeaderError (res : ServerResponse) (key : string) (value : Js.Val)
  : option JsError :=
  if (key =? "")%string then Some (ErrTypeError "ERR_INVALID_HTTP_TOKEN")
  else None.

(** A status code that is not a number from 100 to 999 is refused. *)
Definition endError (res : ServerResponse) (sent : Sent) : option JsError :=
  match statusCode res with
  | Js.VNum n =>
      if ((100 <=? n)%Z && (n <=? 999)%Z)%bool then None
      else Some (ErrOther "ERR_HTTP_INVALID_STATUS_CODE")
  | _ => Some (ErrOther "ERR_HTTP_INVALID_STATUS_CODE")
  end.

Definition asHttpHeaders (h : option CloudFrontHeaders)
  : Outcome (list (string * Js.Val)) :=
  match h with
  | Some hs =>
      Resolved (List.map (fun kv =>
                  (fst kv, Js.VArr (List.map (fun e => Js.VStr (hValue e)) (snd kv)))) hs)
  | None => Rejected (ErrTypeError "Cannot convert undefined or null to object")
  end.

(** Two lambdas on ["/api/*"], declared the two ways the router reads. *)
Definition functions : Dict.t ServerlessFunction :=
  [ ("apiViewer",
      mkServerlessFunction "handlers/api.viewer"
        (Some (mkEdgeLambdaOptions "site" "viewer-response" "/api/*")) []);
    ("apiOrigin",
      mkServerlessFunction "handlers/api.origin" None
        [mkLambdaEvent None;
         mkLambdaEvent (Some (mkCloudFrontEventOptions "origin-request" "/api/*"))]);
    ("unrelated", mkServerlessFunction "handlers/cron" None [mkLambdaEvent None]) ].

Definition originMap : list OriginMapping :=
  [ mkOriginMapping "/api/*" "http://origin.test:8080" None;
    mkOriginMapping "*" "site" None ].

(** The registry [extractBehaviors] builds from them. *)
Definition registry : Outcome Behaviors :=
  extractBehaviors (node OrdinaryFunction) globToRegExp loadRequestHandler
    loadResponseHandler "src"
    (configureOrigins (node OrdinaryFunction) originMap) functions.

Definition inbound (m : string) (url : option string) : IncomingRequest :=
  mkIncomingRequest url (Some m) [] None.

(** The listener's request handler over a registry with the single entry
    [f]. *)
Definition handle (f : FunctionSet) (req : IncomingRequest)
  : Outcome unit * ServerResponse * Store :=
  requestHandler (node OrdinaryFunction) toHttpHeaders retrieveFromCache
    saveToCache toResultResponse combineResult purge convertToCloudFrontEvent
    asHttpHeaders setHeaderError endError cacheOn ctx [("*", f)] req
    freshResponse [].

(** The cache after one proxied request for ["/a"]. *)
Definition warm : Store :=
  store (snd (runOn OrdinaryFunction cacheOn proxied (get "/a") [])).

(** What the http origin answers, as [retrieve] returns it. *)
Definition fetched : Response :=
  mkResponse "200" (Some "")
    (Some [("content-type", [mkHeaderEntry "Content-Type" "text/plain"])])
    (Some "text") (Some (BodyBuffer "hello")).

End Fixture.

(* ================================================================== *)
(** * More configurations *)
(* ================================================================== *)

(** Handlers that fail or answer nothing, upstreams that answer with a
    failure status or break off, and an origin with a custom configuration. *)
Module Cases.

Import Fixture.

(** A response handler that fails. *)
Definition raise (err : JsError) : ResponseHandler :=
  fun _ _ => Rejected err.

(** A response handler that answers nothing. *)
Definition drop : ResponseHandler :=
  fun _ _ => Resolved None.

(** The viewer-request handler fails. *)
Definition viewerFails : FunctionSet :=
  mkFunctionSet "*" anyPath (failWith (ErrOther "viewer broke"))
    identityRequestHandler (stamp "origin-response") (stamp "viewer-response")
    httpOrigin.

(** The viewer-request handler answers, the viewer-response handler raises a
    NoResult. *)
Definition viewerResponseGivesUp : FunctionSet :=
  mkFunctionSet "*" anyPath (respond teapot) identityRequestHandler
    (stamp "origin-response") (raise ErrNoResult) httpOrigin.

(** A response handler that gives up, with a NoResult, on a response with the
    status [code], and marks every other response. *)
Definition giveUpOn (code mark : string) : ResponseHandler :=
  fun e c =>
    match reResponse e with
    | Some r =>
        if (status r =? code)%string then Rejected ErrNoResult else stamp mark e c
    | None => stamp mark e c
    end.

(** The viewer-request handler answers with the teapot, on which the
    viewer-response handler gives up. *)
Definition teapotRefused : FunctionSet :=
  mkFunctionSet "*" anyPath (respond teapot) identityRequestHandler
    (stamp "origin-response") (giveUpOn "418" "viewer-response") httpOrigin.

(** No request handler answers, and the viewer-response handler gives up on
    a response with status 200. *)
Definition okRefused : FunctionSet :=
  mkFunctionSet "*" anyPath identityRequestHandler identityRequestHandler
    (stamp "origin-response") (giveUpOn "200" "viewer-response") httpOrigin.

(** The origin-response handler fails. *)
Definition originResponseFails : FunctionSet :=
  mkFunctionSet "*" anyPath identityRequestHandler identityRequestHandler
    (raise (ErrOther "origin-response broke")) (stamp "viewer-response")
    httpOrigin.

(** The viewer-response handler answers nothing. *)
Definition voided : FunctionSet :=
  mkFunctionSet "*" anyPath identityRequestHandler identityRequestHandler
    (stamp "origin-response") drop httpOrigin.

(** An upstream that answers 503. *)
Definition unavailable : IncomingMessage :=
  {| imHeaders := [("Retry-After", Js.VStr "120"); ("", Js.VStr "nameless");
                   ("X-Empty", Js.VStr "")];
     imStatusCode := Some 503;
     imEvents := [OnData "try "; OnData "later"; OnClose; OnData "ignored"] |}.

(** An upstream whose response breaks off. *)
Definition broken : IncomingMessage :=
  {| imHeaders := [];
     imStatusCode := Some 200;
     imEvents := [OnData "par"; OnError (ErrOther "ECONNRESET"); OnClose] |}.

(** The platform of the fixture with another upstream, and a [URL] that
    rejects the url ["//"]. *)
Definition nodeWith (up : IncomingMessage) : Platform :=
  {| url_parse := parse;
     path_resolve := fun p => "/srv/" ++ p;
     path_join := fun a b => a ++ "/" ++ b;
     fs_readFile := fun name =>
       if (name =? "/srv/site//index.html")%string then Resolved "<html/>"
       else Rejected (ErrOther "ENOENT");
     http_request := fun _ => Some up;
     URL_pathname := fun u =>
       if (u =? "//")%string then Rejected (ErrTypeError "Invalid URL")
       else Resolved u;
     boom_notFound := OrdinaryFunction |}.

(** The directory origin of the fixture. *)
Definition siteOrigin : Origin :=
  newOrigin (node OrdinaryFunction) (Some "site") None.

(** No handler answers and the origin is the directory. *)
Definition served : FunctionSet :=
  mkFunctionSet "*" anyPath identityRequestHandler identityRequestHandler
    identityResponseHandler identityResponseHandler siteOrigin.

(** A conversion that throws. *)
Definition refuse (req : IncomingRequest) : Outcome Event :=
  Rejected (ErrTypeError "Cannot read properties of undefined").

(** A custom configuration that names no domain, protocol or port. *)
Definition timeouts : Js.Obj := [("readTimeout", Js.VNum 9)].

Definition customised : FunctionSet :=
  mkFunctionSet "*" anyPath identityRequestHandler identityRequestHandler
    identityResponseHandler identityResponseHandler
    (newOrigin (node OrdinaryFunction) (Some "http://origin.test:8080")
       (Some timeouts)).

(** A request that asks to keep the connection. *)
Definition keepAlive : Request :=
  {| clientIp := "127.0.0.1"; method := "GET"; uri := "/a"; querystring := "";
     headers := [("connection", [mkHeaderEntry "Connection" "keep-alive"]);
                 ("accept", [mkHeaderEntry "Accept" "text/html"])];
     body := None; origin := None |}.

(** The listener's request handler over a registry with the single entry
    [f], on the platform with the strict [URL]. *)
Definition handleStrictly (f : FunctionSet) (req : IncomingRequest)
  : Outcome unit * ServerResponse * Store :=
  requestHandler (nodeWith upstream) toHttpHeaders retrieveFromCache
    saveToCache toResultResponse combineResult purge convertToCloudFrontEvent
    asHttpHeaders setHeaderError endError cacheOn ctx [("*", f)] req
    freshResponse [].

End Cases.

(* ================================================================== *)
(** * Properties of the lifecycle *)
(* ================================================================== *)

Local Open Scope list_scope.

Lemma cacheLookups_app : forall a b,
  cacheLookups (a ++ b) = cacheLookups a ++ cacheLookups b.
Proof.
  induction a as [|x a IH]; intros b; simpl; [reflexivity|].
  destruct x; simpl; rewrite IH; reflexivity.
Qed.

Lemma cacheWrites_app : forall a b,
  cacheWrites (a ++ b) = cacheWrites a ++ cacheWrites b.
Proof.
  induction a as [|x a IH]; intros b; simpl; [reflexivity|].
  destruct x; simpl; rewrite IH; reflexivity.
Qed.

Lemma originFetches_app : forall a b,
  originFetches (a ++ b) = originFetches a ++ originFetches b.
Proof.
  induction a as [|x a IH]; intros b; simpl; [reflexivity|].
  destruct x; simpl; rewrite IH; reflexivity.
Qed.

Lemma originResponseCalls_app : forall a b,
  originResponseCalls (a ++ b) = originResponseCalls a ++ originResponseCalls b.
Proof.
  induction a as [|x a IH]; intros b; simpl; [reflexivity|].
  destruct x; simpl; rewrite IH; reflexivity.
Qed.

Lemma viewerResponseCalls_app : forall a b,
  viewerResponseCalls (a ++ b) = viewerResponseCalls a ++ viewerResponseCalls b.
Proof.
  induction a as [|x a IH]; intros b; simpl; [reflexivity|].
  destruct x; simpl; rewrite IH; reflexivity.
Qed.

(** ** Methods that leave the cache alone *)

Section QuietMethods.

Context {Store : Type}.

Lemma quiet_ret : forall (A : Type) (a : A), quiet (ret (Store := Store) a).
Proof. intros A a s o s' H. inversion H. auto. Qed.

Lemma quiet_throw : forall (A : Type) e, quiet (throw (Store := Store) (A := A) e).
Proof. intros A e s o s' H. inversion H. auto. Qed.

Lemma quiet_await : forall (A : Type) (x : Outcome A), quiet (await (Store := Store) x).
Proof. intros A x s o s' H. inversion H. auto. Qed.

Lemma quiet_getEvent : quiet (getEvent (Store := Store)).
Proof. intros s o s' H. inversion H. auto. Qed.

Lemma quiet_getStore : quiet (getStore (Store := Store)).
Proof. intros s o s' H. inversion H. auto. Qed.

Lemma quiet_setEvent : forall e, quiet (setEvent (Store := Store) e).
Proof. intros e s o s' H. inversion H. auto. Qed.

Lemma quiet_emit : forall e,
  cacheWrites [e] = [] -> quiet (emit (Store := Store) e).
Proof.
  intros e He s o s' H. inversion H. simpl.
  rewrite cacheWrites_app, He, app_nil_r. auto.
Qed.

Lemma quiet_log : forall m, quiet (log (Store := Store) m).
Proof. intros m. apply quiet_emit. reflexivity. Qed.

Lemma quiet_bind : forall (A B : Type) (m : Async Store A) (k : A -> Async Store B),
  quiet m -> (forall a, quiet (k a)) -> quiet (bind m k).
Proof.
  intros A B m k Hm Hk s o s' H. unfold bind in H.
  destruct (m s) as [[a|e|] s1] eqn:E; destruct (Hm _ _ _ E) as [W S].
  - destruct (Hk a _ _ _ H) as [W' S']. split; congruence.
  - inversion H; subst. auto.
  - inversion H; subst. auto.
Qed.

Lemma quiet_tryCatch : forall (A : Type) (m : Async Store A) h,
  quiet m -> (forall e, quiet (h e)) -> quiet (tryCatch m h).
Proof.
  intros A m h Hm Hh s o s' H. unfold tryCatch in H.
  destruct (m s) as [[a|e|] s1] eqn:E; destruct (Hm _ _ _ E) as [W S].
  - inversion H; subst. auto.
  - destruct (Hh e _ _ _ H) as [W' S']. split; congruence.
  - inversion H; subst. auto.
Qed.

Lemma quiet_callRequestHandler : forall context mark h,
  (forall e, cacheWrites [mark e] = []) ->
  quiet (callRequestHandler (Store := Store) context mark h).
Proof.
  intros context mark h Hm s o s' H. unfold callRequestHandler in H.
  destruct (h (event s) context) as [o1 e1]. inversion H. simpl.
  rewrite cacheWrites_app, Hm, app_nil_r. auto.
Qed.

Lemma quiet_callResponseHandler : forall context mark h e,
  cacheWrites [mark e] = [] ->
  quiet (callResponseHandler (Store := Store) context mark h e).
Proof.
  intros context mark h e Hm. unfold callResponseHandler.
  apply quiet_bind; [apply quiet_emit; exact Hm | intros; apply quiet_await].
Qed.

Lemma quiet_returnUnlessNoResult : forall (m : Async Store ResponseResult),
  quiet m -> quiet (returnUnlessNoResult m).
Proof.
  intros m Hm. unfold returnUnlessNoResult. apply quiet_tryCatch.
  - apply quiet_bind; [exact Hm | intros; apply quiet_ret].
  - intros e. destruct (negb (instanceofNoResult e));
      [apply quiet_throw | apply quiet_ret].
Qed.

End QuietMethods.

Create HintDb quiet.

#[local] Hint Resolve quiet_ret quiet_throw quiet_await quiet_getEvent
  quiet_getStore quiet_setEvent quiet_log quiet_returnUnlessNoResult : quiet.

(** Breaks a method down to its calls, each of which is quiet. *)
Ltac quiet_steps :=
  repeat first
    [ apply quiet_bind; [| intros ]
    | apply quiet_callRequestHandler; intros; reflexivity
    | apply quiet_callResponseHandler; reflexivity
    | apply quiet_emit; reflexivity
    | solve [ auto with quiet ] ].

(** The same through the branches of a method. *)
Ltac quiet_cases :=
  repeat (quiet_steps;
          try match goal with
              | |- quiet (if ?b then _ else _) => destruct b
              | |- quiet (match ?x with _ => _ end) => destruct x
              end).

Lemma originRequestCalls_app : forall a b,
  originRequestCalls (a ++ b) = originRequestCalls a ++ originRequestCalls b.
Proof.
  induction a as [|x a IH]; intros b; simpl; [reflexivity|].
  destruct x; simpl; rewrite IH; reflexivity.
Qed.

#[local] Instance cacheLookups_view : TraceView cacheLookups := cacheLookups_app.
#[local] Instance cacheWrites_view : TraceView cacheWrites := cacheWrites_app.
#[local] Instance originFetches_view : TraceView originFetches := originFetches_app.
#[local] Instance originRequestCalls_view : TraceView originRequestCalls :=
  originRequestCalls_app.
#[local] Instance originResponseCalls_view : TraceView originResponseCalls :=
  originResponseCalls_app.
#[local] Instance viewerResponseCalls_view : TraceView viewerResponseCalls :=
  viewerResponseCalls_app.

(** ** Methods that add nothing, or one entry, to a reading of the trace *)

Section TraceViews.

Context {Store X : Type} (view : list Effect -> list X) `{TraceView X view}.

Lemma view_snoc_nil : forall l e, view [e] = [] -> view (l ++ [e]) = view l.
Proof. intros l e He. rewrite view_app, He, app_nil_r. reflexivity. Qed.

Lemma keeps_ret : forall (A : Type) (a : A), keeps view (ret (Store := Store) a).
Proof. intros A a s o s' E. inversion E. reflexivity. Qed.

Lemma keeps_throw : forall (A : Type) e,
  keeps view (throw (Store := Store) (A := A) e).
Proof. intros A e s o s' E. inversion E. reflexivity. Qed.

Lemma keeps_await : forall (A : Type) (x : Outcome A),
  keeps view (await (Store := Store) x).
Proof. intros A x s o s' E. inversion E. reflexivity. Qed.

Lemma keeps_getEvent : keeps view (getEvent (Store := Store)).
Proof. intros s o s' E. inversion E. reflexivity. Qed.

Lemma keeps_getStore : keeps view (getStore (Store := Store)).
Proof. intros s o s' E. inversion E. reflexivity. Qed.

Lemma keeps_setEvent : forall e, keeps view (setEvent (Store := Store) e).
Proof. intros e s o s' E. inversion E. reflexivity. Qed.

Lemma keeps_setStore : forall st, keeps view (setStore (Store := Store) st).
Proof. intros st s o s' E. inversion E. reflexivity. Qed.

Lemma keeps_emit : forall e, view [e] = [] -> keeps view (emit (Store := Store) e).
Proof. intros e He s o s' E. inversion E. simpl. apply view_snoc_nil, He. Qed.

Lemma keeps_bind : forall (A B : Type) (m : Async Store A) (k : A -> Async Store B),
  keeps view m -> (forall a, keeps view (k a)) -> keeps view (bind m k).
Proof.
  intros A B m k Hm Hk s o s' E. unfold bind in E.
  destruct (m s) as [[a|e|] s1] eqn:Em; pose proof (Hm _ _ _ Em) as V.
  - rewrite (Hk a _ _ _ E). exact V.
  - inversion E; subst. exact V.
  - inversion E; subst. exact V.
Qed.

Lemma keeps_tryCatch : forall (A : Type) (m : Async Store A) h,
  keeps view m -> (forall e, keeps view (h e)) -> keeps view (tryCatch m h).
Proof.
  intros A m h Hm Hh s o s' E. unfold tryCatch in E.
  destruct (m s) as [[a|e|] s1] eqn:Em; pose proof (Hm _ _ _ Em) as V.
  - inversion E; subst. exact V.
  - rewrite (Hh e _ _ _ E). exact V.
  - inversion E; subst. exact V.
Qed.

Lemma keeps_callRequestHandler : forall context mark h,
  (forall e, view [mark e] = []) ->
  keeps view (callRequestHandler (Store := Store) context mark h).
Proof.
  intros context mark h Hm s o s' E. unfold callRequestHandler in E.
  destruct (h (event s) context) as [o1 e1]. inversion E. simpl.
  apply view_snoc_nil, Hm.
Qed.

Lemma addsOne_of_keeps : forall (A : Type) (m : Async Store A),
  keeps view m -> addsOne view m.
Proof.
  intros A m Hm s o s' E. exists []. rewrite app_nil_r.
  split; [apply (Hm _ _ _ E) | simpl; lia].
Qed.

Lemma addsOne_emit : forall e,
  (List.length (view [e]) <= 1)%nat -> addsOne view (emit (Store := Store) e).
Proof.
  intros e He s o s' E. inversion E. simpl. exists (view [e]).
  split; [apply view_app | exact He].
Qed.

Lemma addsOne_callRequestHandler : forall context mark h,
  (forall e, (List.length (view [mark e]) <= 1)%nat) ->
  addsOne view (callRequestHandler (Store := Store) context mark h).
Proof.
  intros context mark h Hm s o s' E. unfold callRequestHandler in E.
  destruct (h (event s) context) as [o1 e1]. inversion E. simpl.
  exists (view [mark (event s)]). split; [apply view_app | apply Hm].
Qed.

Lemma addsOne_bind_l : forall (A B : Type) (m : Async Store A) (k : A -> Async Store B),
  addsOne view m -> (forall a, keeps view (k a)) -> addsOne view (bind m k).
Proof.
  intros A B m k Hm Hk s o s' E. unfold bind in E.
  destruct (m s) as [[a|e|] s1] eqn:Em;
    destruct (Hm _ _ _ Em) as (l & V & L).
  - exists l. rewrite (Hk a _ _ _ E). auto.
  - inversion E; subst. exists l. auto.
  - inversion E; subst. exists l. auto.
Qed.

Lemma addsOne_bind_r : forall (A B : Type) (m : Async Store A) (k : A -> Async Store B),
  keeps view m -> (forall a, addsOne view (k a)) -> addsOne view (bind m k).
Proof.
  intros A B m k Hm Hk s o s' E. unfold bind in E.
  destruct (m s) as [[a|e|] s1] eqn:Em; pose proof (Hm _ _ _ Em) as V.
  - destruct (Hk a _ _ _ E) as (l & V' & L). exists l. rewrite V', V. auto.
  - inversion E; subst. exists []. rewrite app_nil_r. split; [exact V | simpl; lia].
  - inversion E; subst. exists []. rewrite app_nil_r. split; [exact V | simpl; lia].
Qed.

Lemma addsOne_tryCatch : forall (A : Type) (m : Async Store A) h,
  addsOne view m -> (forall e, keeps view (h e)) -> addsOne view (tryCatch m h).
Proof.
  intros A m h Hm Hh s o s' E. unfold tryCatch in E.
  destruct (m s) as [[a|e|] s1] eqn:Em;
    destruct (Hm _ _ _ Em) as (l & V & L).
  - inversion E; subst. exists l. auto.
  - exists l. rewrite (Hh e _ _ _ E). auto.
  - inversion E; subst. exists l. auto.
Qed.

End TraceViews.

(** Applies a lemma about a reading and finds the reading's instance. *)
Ltac view_apply lemma := apply lemma; try solve [ typeclasses eauto ].

(** Shows that a method keeps a reading, call by call and branch by branch. *)
Ltac keeps_solve :=
  repeat first
    [ view_apply keeps_bind; [| intros ]
    | view_apply keeps_tryCatch; [| intros ]
    | view_apply keeps_callRequestHandler; intros; reflexivity
    | view_apply keeps_emit; reflexivity
    | view_apply keeps_ret
    | view_apply keeps_throw
    | view_apply keeps_await
    | view_apply keeps_getEvent
    | view_apply keeps_getStore
    | view_apply keeps_setEvent
    | view_apply keeps_setStore
    | match goal with
      | |- keeps _ (if ?b then _ else _) => destruct b
      | |- keeps _ (match ?x with _ => _ end) => destruct x
      end ].

(** Shows that a method adds at most one entry to a reading: the one call
    that may add it is looked for, everything around it keeps the reading. *)
Ltac addsOne_solve :=
  first
    [ solve [ view_apply addsOne_of_keeps; keeps_solve ]
    | view_apply addsOne_emit; simpl; lia
    | view_apply addsOne_callRequestHandler; intros; simpl; lia
    | match goal with
      | |- addsOne _ (if ?b then _ else _) => destruct b; addsOne_solve
      | |- addsOne _ (match ?x with _ => _ end) => destruct x; addsOne_solve
      end
    | view_apply addsOne_bind_r; [ solve [ keeps_solve ] | intros; addsOne_solve ]
    | view_apply addsOne_bind_l; [ addsOne_solve | intros; solve [ keeps_solve ] ]
    | view_apply addsOne_tryCatch; [ addsOne_solve | intros; solve [ keeps_solve ] ] ].

Section LifecycleProperties.

Variable node : Platform.
Variable toHttpHeaders : CloudFrontHeaders -> list (string * list string).
Variables Store CacheEntry : Type.
Variable retrieveFromCache : Store -> Event -> option CacheEntry.
Variable saveToCache : Store -> ResponseEvent -> Store.
Variable toResultResponse : CacheEntry -> Response.
Variable combineResult : Event -> ResponseResult -> ResponseEvent.
Variable opts : ServerlessOptions.
Variable context : Context.
Variable fnSet : FunctionSet.

Local Abbreviation viewerResponseStage :=
  (onViewerResponse (Store := Store) combineResult context fnSet).
Local Abbreviation viewerRequestStage :=
  (onViewerRequest (Store := Store) combineResult context fnSet).
Local Abbreviation cacheStage :=
  (onCache retrieveFromCache toResultResponse combineResult opts context fnSet).
Local Abbreviation originRequestStage :=
  (onOriginRequest node toHttpHeaders (Store := Store) combineResult context fnSet).
Local Abbreviation originTail :=
  (fromOriginRequest node toHttpHeaders saveToCache combineResult context fnSet).
Local Abbreviation lifecycle :=
  (run node toHttpHeaders retrieveFromCache saveToCache toResultResponse
     combineResult opts context fnSet).

Local Abbreviation originRequestEvent := (withCustomOrigin node fnSet).

(** ** The stages, one by one *)

Lemma onViewerResponse_eq : forall result s,
  viewerResponseStage result s =
  (viewerResponse fnSet (combineResult (event s) result) context,
   mkState (event s) (store s)
     (trace s ++ [Log "← viewer-response";
                  CallViewerResponse (combineResult (event s) result)])).
Proof.
  intros result s.
  unfold onViewerResponse, callResponseHandler, log, emit, getEvent, await, bind.
  simpl. rewrite <- app_assoc. reflexivity.
Qed.

Lemma onViewerRequest_terminal : forall s r e1,
  viewerRequest fnSet (event s) context = (Resolved (ResultResponse r), e1) ->
  viewerRequestStage s =
  viewerResponseStage (Some r)
    (mkState e1 (store s)
       (trace s ++ [Log "→ viewer-request"; CallViewerRequest (event s)])).
Proof.
  intros s r e1 H.
  unfold onViewerRequest, callRequestHandler, log, emit, bind. simpl.
  rewrite H. simpl. rewrite <- app_assoc. reflexivity.
Qed.

Lemma onViewerRequest_continue : forall s x e1,
  viewerRequest fnSet (event s) context = (Resolved x, e1) ->
  isResponseResult x = false ->
  viewerRequestStage s =
  (Rejected ErrNoResult,
   mkState e1 (store s)
     (trace s ++ [Log "→ viewer-request"; CallViewerRequest (event s)])).
Proof.
  intros s x e1 H Hx.
  unfold onViewerRequest, callRequestHandler, log, emit, bind, throw. simpl.
  rewrite H. simpl. rewrite Hx. rewrite <- app_assoc. reflexivity.
Qed.

Lemma onViewerRequest_rejected : forall s err e1,
  viewerRequest fnSet (event s) context = (Rejected err, e1) ->
  viewerRequestStage s =
  (Rejected err,
   mkState e1 (store s)
     (trace s ++ [Log "→ viewer-request"; CallViewerRequest (event s)])).
Proof.
  intros s err e1 H.
  unfold onViewerRequest, callRequestHandler, log, emit, bind. simpl.
  rewrite H. simpl. rewrite <- app_assoc. reflexivity.
Qed.

Lemma onViewerRequest_pending : forall s e1,
  viewerRequest fnSet (event s) context = (Pending, e1) ->
  viewerRequestStage s =
  (Pending,
   mkState e1 (store s)
     (trace s ++ [Log "→ viewer-request"; CallViewerRequest (event s)])).
Proof.
  intros s e1 H.
  unfold onViewerRequest, callRequestHandler, log, emit, bind. simpl.
  rewrite H. simpl. rewrite <- app_assoc. reflexivity.
Qed.

Lemma onCache_disabled : forall s,
  disableCache opts = true ->
  cacheStage s =
  (Rejected ErrNoResult,
   mkState (event s) (store s)
     (trace s ++ [Log "→ cache"; Log "✗ Cache disabled"])).
Proof.
  intros s H.
  unfold onCache, log, emit, bind, throw. simpl. rewrite H. simpl.
  rewrite <- app_assoc. reflexivity.
Qed.

Lemma onCache_miss : forall s,
  disableCache opts = false ->
  retrieveFromCache (store s) (event s) = None ->
  cacheStage s =
  (Rejected ErrNoResult,
   mkState (event s) (store s)
     (trace s ++ [Log "→ cache"; CacheRetrieve (event s); Log "✗ Cache miss"])).
Proof.
  intros s H Hm.
  unfold onCache, log, emit, bind, throw, getEvent, getStore. simpl.
  rewrite H. simpl. rewrite Hm. simpl.
  repeat rewrite <- app_assoc. reflexivity.
Qed.

Lemma onCache_hit : forall s cached,
  disableCache opts = false ->
  retrieveFromCache (store s) (event s) = Some cached ->
  cacheStage s =
  viewerResponseStage (Some (toResultResponse cached))
    (mkState (event s) (store s)
       (trace s ++ [Log "→ cache"; CacheRetrieve (event s); Log "✓ Cache hit"])).
Proof.
  intros s cached H Hh.
  unfold onCache, log, emit, bind, getEvent, getStore. simpl.
  rewrite H. simpl. rewrite Hh. simpl.
  repeat rewrite <- app_assoc. reflexivity.
Qed.

Lemma onOriginRequest_terminal : forall s r e1,
  originRequest fnSet (originRequestEvent (event s)) context
    = (Resolved (ResultResponse r), e1) ->
  originRequestStage s =
  (Resolved (Some r),
   mkState e1 (store s)
     (trace s ++ [Log "→ origin-request";
                  CallOriginRequest (originRequestEvent (event s))])).
Proof.
  intros s r e1 H.
  unfold onOriginRequest, callRequestHandler, log, emit, bind, getEvent, setEvent, ret.
  simpl. rewrite H. simpl. rewrite <- app_assoc. reflexivity.
Qed.

Lemma onOriginRequest_fetch : forall s x e1,
  originRequest fnSet (originRequestEvent (event s)) context = (Resolved x, e1) ->
  isResponseResult x = false ->
  originRequestStage s =
  match retrieve node toHttpHeaders (fnOrigin fnSet) e1 with
  | Resolved fetched =>
      (originResponse fnSet (combineResult e1 (Some fetched)) context,
       mkState e1 (store s)
         (trace s ++ [Log "→ origin-request";
                      CallOriginRequest (originRequestEvent (event s));
                      Log "→ origin"; OriginRetrieve e1;
                      Log "← origin-response";
                      CallOriginResponse (combineResult e1 (Some fetched))]))
  | Rejected err =>
      (Rejected err,
       mkState e1 (store s)
         (trace s ++ [Log "→ origin-request";
                      CallOriginRequest (originRequestEvent (event s));
                      Log "→ origin"; OriginRetrieve e1]))
  | Pending =>
      (Pending,
       mkState e1 (store s)
         (trace s ++ [Log "→ origin-request";
                      CallOriginRequest (originRequestEvent (event s));
                      Log "→ origin"; OriginRetrieve e1]))
  end.
Proof.
  intros s x e1 H Hx.
  unfold onOriginRequest, onOrigin, onOriginResponse, callRequestHandler,
    callResponseHandler, log, emit, bind, getEvent, setEvent, ret, await.
  simpl. rewrite H. simpl. rewrite Hx. simpl.
  destruct (retrieve node toHttpHeaders (fnOrigin fnSet) e1); simpl;
    repeat rewrite <- app_assoc; reflexivity.
Qed.

(** The origin-request stage resolves in two ways only: with the terminal
    response of its handler and no retrieve, or with what the origin-response
    handler made of a retrieve that resolved. *)
Lemma onOriginRequest_resolved : forall s result s',
  originRequestStage s = (Resolved result, s') ->
  (exists r,
      originRequest fnSet (originRequestEvent (event s)) context
        = (Resolved (ResultResponse r), event s') /\
      result = Some r /\
      originFetches (trace s') = originFetches (trace s))
  \/
  (exists x fetched,
      originRequest fnSet (originRequestEvent (event s)) context
        = (Resolved x, event s') /\
      isResponseResult x = false /\
      retrieve node toHttpHeaders (fnOrigin fnSet) (event s') = Resolved fetched /\
      originResponse fnSet (combineResult (event s') (Some fetched)) context
        = Resolved result /\
      originFetches (trace s') = originFetches (trace s) ++ [event s']).
Proof.
  intros s result s' H.
  destruct (originRequest fnSet (originRequestEvent (event s)) context)
    as [o e1] eqn:Hh.
  destruct o as [x|err|].
  - destruct x as [|rq|r].
    + rewrite (onOriginRequest_fetch s Hh eq_refl) in H.
      destruct (retrieve node toHttpHeaders (fnOrigin fnSet) e1) eqn:Hr;
        inversion H; subst; clear H.
      right. exists ResultVoid, a. simpl.
      rewrite originFetches_app. simpl. rewrite Hr. auto.
    + rewrite (onOriginRequest_fetch s Hh eq_refl) in H.
      destruct (retrieve node toHttpHeaders (fnOrigin fnSet) e1) eqn:Hr;
        inversion H; subst; clear H.
      right. exists (ResultRequest rq), a. simpl.
      rewrite originFetches_app. simpl. rewrite Hr. auto.
    + rewrite (onOriginRequest_terminal s Hh) in H. inversion H; subst; clear H.
      left. exists r. simpl. rewrite originFetches_app. simpl.
      rewrite app_nil_r. auto.
  - unfold onOriginRequest, callRequestHandler, log, emit, bind, getEvent,
      setEvent in H. simpl in H. rewrite Hh in H. inversion H.
  - unfold onOriginRequest, callRequestHandler, log, emit, bind, getEvent,
      setEvent in H. simpl in H. rewrite Hh in H. inversion H.
Qed.

Lemma quiet_onViewerResponse : forall result, quiet (viewerResponseStage result).
Proof. intros result. unfold onViewerResponse. quiet_steps. Qed.

Lemma quiet_onViewerRequest : quiet viewerRequestStage.
Proof. unfold onViewerRequest. quiet_cases. Qed.

Lemma quiet_onCache : quiet cacheStage.
Proof. unfold onCache. quiet_cases. Qed.

Lemma quiet_onOriginRequest : quiet originRequestStage.
Proof. unfold onOriginRequest, onOrigin, onOriginResponse. quiet_cases. Qed.

(** ** The two [try] blocks and the tail of [run] *)

Lemma returnUnlessNoResult_resolved : forall (m : Async Store ResponseResult) s r s',
  m s = (Resolved r, s') ->
  returnUnlessNoResult m s = (Resolved (Some r), s').
Proof.
  intros m s r s' H. unfold returnUnlessNoResult, tryCatch, bind, ret.
  rewrite H. reflexivity.
Qed.

Lemma returnUnlessNoResult_continue : forall (m : Async Store ResponseResult) s s',
  m s = (Rejected ErrNoResult, s') ->
  returnUnlessNoResult m s = (Resolved None, s').
Proof.
  intros m s s' H. unfold returnUnlessNoResult, tryCatch, bind, ret.
  rewrite H. reflexivity.
Qed.

Lemma returnUnlessNoResult_rethrow : forall (m : Async Store ResponseResult) s e s',
  m s = (Rejected e, s') ->
  instanceofNoResult e = false ->
  returnUnlessNoResult m s = (Rejected e, s').
Proof.
  intros m s e s' H He. unfold returnUnlessNoResult, tryCatch, bind, throw.
  rewrite H, He. reflexivity.
Qed.

(** A [try] block whose method settles in any way but a rejection with a
    NoResult settles as the method did. *)
Lemma returnUnlessNoResult_settled : forall (m : Async Store ResponseResult) s o s',
  m s = (o, s') ->
  rejectedWithNoResult o = false ->
  returnUnlessNoResult m s =
  (match o with
   | Resolved r => Resolved (Some r)
   | Rejected e => Rejected e
   | Pending => Pending
   end, s').
Proof.
  intros m s o s' H Hn. unfold returnUnlessNoResult, tryCatch, bind, ret, throw.
  rewrite H. destruct o as [r|e|]; simpl in *; [reflexivity | | reflexivity].
  rewrite Hn. reflexivity.
Qed.

(** The state [run] starts its first [try] block in. *)
Local Abbreviation logged url s :=
  (mkState (event s) (store s) (trace s ++ [Log ("Request for " ++ url)%string])).

Lemma run_eq : forall url s,
  lifecycle url s =
  match returnUnlessNoResult viewerRequestStage (logged url s) with
  | (Resolved (Some r), sv) => (Resolved r, sv)
  | (Resolved None, sv) =>
      match returnUnlessNoResult cacheStage sv with
      | (Resolved (Some r), sc) => (Resolved r, sc)
      | (Resolved None, sc) => originTail sc
      | (Rejected e, sc) => (Rejected e, sc)
      | (Pending, sc) => (Pending, sc)
      end
  | (Rejected e, sv) => (Rejected e, sv)
  | (Pending, sv) => (Pending, sv)
  end.
Proof.
  intros url s. unfold run at 1. unfold bind at 1. unfold log, emit. unfold bind at 1.
  destruct (returnUnlessNoResult viewerRequestStage (logged url s))
    as [[[r|]|e|] sv]; try reflexivity.
  unfold bind.
  destruct (returnUnlessNoResult cacheStage sv) as [[[r|]|e|] sc]; reflexivity.
Qed.

Lemma fromOriginRequest_eq : forall s,
  originTail s =
  match originRequestStage s with
  | (Resolved result, so) =>
      viewerResponseStage result
        (mkState (withOrigin (event so) None)
           (saveToCache (store so) (combineResult (withOrigin (event so) None) result))
           (trace so ++ [CacheSave (combineResult (withOrigin (event so) None) result)]))
  | (Rejected e, so) => (Rejected e, so)
  | (Pending, so) => (Pending, so)
  end.
Proof.
  intros s. unfold fromOriginRequest. unfold bind at 1.
  destruct (originRequestStage s) as [[result|e|] so]; reflexivity.
Qed.

(** The statements after the two [try] blocks begin with the origin-request
    stage: whatever they end in, the origin-request handler was called first. *)
Lemma fromOriginRequest_starts_with_origin_request : forall s o s',
  originTail s = (o, s') ->
  exists l,
    trace s' =
      trace s ++ Log "→ origin-request"
                 :: CallOriginRequest (originRequestEvent (event s)) :: l.
Proof.
  intros s o s' H. rewrite fromOriginRequest_eq in H.
  destruct (originRequest fnSet (originRequestEvent (event s)) context)
    as [oh e1] eqn:Hh.
  destruct oh as [x|err|].
  - destruct (isResponseResult x) eqn:Hx.
    + destruct x as [| |r]; try discriminate Hx.
      rewrite (onOriginRequest_terminal s Hh) in H.
      rewrite onViewerResponse_eq in H. simpl in H.
      inversion H; subst; clear H.
      eexists. repeat rewrite <- app_assoc. simpl. reflexivity.
    + rewrite (onOriginRequest_fetch s Hh Hx) in H.
      destruct (retrieve node toHttpHeaders (fnOrigin fnSet) e1).
      * destruct (originResponse fnSet (combineResult e1 (Some a)) context);
          [rewrite onViewerResponse_eq in H; simpl in H | |];
          inversion H; subst; clear H;
          eexists; repeat rewrite <- app_assoc; simpl; reflexivity.
      * inversion H; subst; clear H. eexists. simpl. reflexivity.
      * inversion H; subst; clear H. eexists. simpl. reflexivity.
  - unfold onOriginRequest, callRequestHandler, log, emit, bind, getEvent,
      setEvent in H. simpl in H. rewrite Hh in H.
    inversion H; subst; clear H. eexists. simpl.
    repeat rewrite <- app_assoc. simpl. reflexivity.
  - unfold onOriginRequest, callRequestHandler, log, emit, bind, getEvent,
      setEvent in H. simpl in H. rewrite Hh in H.
    inversion H; subst; clear H. eexists. simpl.
    repeat rewrite <- app_assoc. simpl. reflexivity.
Qed.

(** ** What [run] does on each path *)

(** C3, as the code has it. When the viewer-request handler resolves to a
    terminal response [r] and the viewer-response handler, called on the event
    carrying [r], settles in any way but a rejection with a NoResult, [run]
    settles as that call did: it resolves to the handler's result or rejects
    with the handler's error.  The cache is never looked up, the
    origin-request handler is not called, the origin is never asked, nothing
    is written to the cache, and the viewer-response handler is called once,
    with the event carrying [r]. *)
Theorem viewer_request_terminal_response :
  forall url s r e1,
    viewerRequest fnSet (event s) context = (Resolved (ResultResponse r), e1) ->
    rejectedWithNoResult (viewerResponse fnSet (combineResult e1 (Some r)) context)
      = false ->
    exists l,
      lifecycle url s =
        (viewerResponse fnSet (combineResult e1 (Some r)) context,
         mkState e1 (store s) (trace s ++ l)) /\
      cacheLookups l = [] /\
      originRequestCalls l = [] /\
      originFetches l = [] /\
      cacheWrites l = [] /\
      viewerResponseCalls l = [combineResult e1 (Some r)].
Proof.
  intros url s r e1 Hv Hn.
  exists [Log ("Request for " ++ url)%string; Log "→ viewer-request";
          CallViewerRequest (event s); Log "← viewer-response";
          CallViewerResponse (combineResult e1 (Some r))].
  split; [| repeat split; reflexivity].
  rewrite run_eq.
  assert (Hs : viewerRequestStage (logged url s) =
               (viewerResponse fnSet (combineResult e1 (Some r)) context,
                mkState e1 (store s)
                  (trace s ++ [Log ("Request for " ++ url)%string;
                               Log "→ viewer-request";
                               CallViewerRequest (event s);
                               Log "← viewer-response";
                               CallViewerResponse (combineResult e1 (Some r))]))).
  { rewrite (@onViewerRequest_terminal (logged url s) r e1 Hv).
    rewrite onViewerResponse_eq. simpl.
    repeat rewrite <- app_assoc. reflexivity. }
  rewrite (returnUnlessNoResult_settled _ _ Hs Hn).
  destruct (viewerResponse fnSet (combineResult e1 (Some r)) context);
    reflexivity.
Qed.

(** The viewer-request stage ends without a result when its handler resolves
    to anything but a response. *)
Lemma viewer_stage_continues : forall url s x e1,
  viewerRequest fnSet (event s) context = (Resolved x, e1) ->
  isResponseResult x = false ->
  returnUnlessNoResult viewerRequestStage (logged url s) =
  (Resolved None,
   mkState e1 (store s)
     (trace s ++ [Log ("Request for " ++ url)%string; Log "→ viewer-request";
                  CallViewerRequest (event s)])).
Proof.
  intros url s x e1 Hv Hx.
  apply returnUnlessNoResult_continue.
  rewrite (@onViewerRequest_continue (logged url s) x e1 Hv Hx). simpl.
  repeat rewrite <- app_assoc. reflexivity.
Qed.

(** C4, as the code has it. After a viewer-request stage that ends without a
    result: with caching disabled the cache is not asked and [run] goes on
    with the statements after its two [try] blocks, which begin with the
    origin-request stage; with caching enabled, a miss goes on in the same
    way, and a hit hands the response made from the stored entry to the
    viewer-response handler.  When that call settles in any way but a
    rejection with a NoResult, [run] settles as the call did, the
    origin-request handler and the origin never being called and nothing
    being written to the cache. *)
Theorem cache_stage_paths :
  forall url s x e1,
    viewerRequest fnSet (event s) context = (Resolved x, e1) ->
    isResponseResult x = false ->
    let before :=
      trace s ++ [Log ("Request for " ++ url)%string; Log "→ viewer-request";
                  CallViewerRequest (event s)] in
    (disableCache opts = true ->
       lifecycle url s =
       originTail (mkState e1 (store s)
                     (before ++ [Log "→ cache"; Log "✗ Cache disabled"])))
    /\
    (disableCache opts = false ->
     retrieveFromCache (store s) e1 = None ->
       lifecycle url s =
       originTail (mkState e1 (store s)
                     (before ++ [Log "→ cache"; CacheRetrieve e1;
                                 Log "✗ Cache miss"])))
    /\
    (forall cached,
       disableCache opts = false ->
       retrieveFromCache (store s) e1 = Some cached ->
       rejectedWithNoResult
         (viewerResponse fnSet (combineResult e1 (Some (toResultResponse cached)))
            context) = false ->
       exists l,
         lifecycle url s =
           (viewerResponse fnSet
              (combineResult e1 (Some (toResultResponse cached))) context,
            mkState e1 (store s) (trace s ++ l)) /\
         cacheLookups l = [e1] /\
         originRequestCalls l = [] /\
         originFetches l = [] /\
         cacheWrites l = [] /\
         viewerResponseCalls l =
           [combineResult e1 (Some (toResultResponse cached))]).
Proof.
  intros url s x e1 Hv Hx before.
  pose proof (viewer_stage_continues url s Hv Hx) as Hs.
  fold before in Hs.
  split; [| split].
  - intros Hd. rewrite run_eq, Hs.
    rewrite (returnUnlessNoResult_continue _ _ (onCache_disabled _ Hd)).
    reflexivity.
  - intros Hd Hm. rewrite run_eq, Hs.
    rewrite (returnUnlessNoResult_continue _ _
               (@onCache_miss (mkState e1 (store s) before) Hd Hm)).
    reflexivity.
  - intros cached Hd Hh Hn.
    exists [Log ("Request for " ++ url)%string; Log "→ viewer-request";
            CallViewerRequest (event s); Log "→ cache"; CacheRetrieve e1;
            Log "✓ Cache hit"; Log "← viewer-response";
            CallViewerResponse (combineResult e1 (Some (toResultResponse cached)))].
    split; [| repeat split; reflexivity].
    rewrite run_eq, Hs.
    assert (Hc : cacheStage (mkState e1 (store s) before) =
                 (viewerResponse fnSet
                    (combineResult e1 (Some (toResultResponse cached))) context,
                  mkState e1 (store s)
                    (before ++ [Log "→ cache"; CacheRetrieve e1; Log "✓ Cache hit";
                                Log "← viewer-response";
                                CallViewerResponse
                                  (combineResult e1 (Some (toResultResponse cached)))]))).
    { rewrite (@onCache_hit (mkState e1 (store s) before) cached Hd Hh).
      rewrite onViewerResponse_eq. simpl.
      repeat rewrite <- app_assoc. reflexivity. }
    rewrite (returnUnlessNoResult_settled _ _ Hc Hn).
    unfold before.
    destruct (viewerResponse fnSet
                (combineResult e1 (Some (toResultResponse cached))) context);
      repeat rewrite <- app_assoc; reflexivity.
Qed.

(** The cache stage ends without a result when caching is disabled or misses. *)
Lemma cache_stage_continues : forall s,
  (if disableCache opts then None else retrieveFromCache (store s) (event s)) = None ->
  exists l,
    returnUnlessNoResult cacheStage s =
      (Resolved None, mkState (event s) (store s) (trace s ++ l)) /\
    cacheWrites l = [] /\ originFetches l = [] /\
    originResponseCalls l = [] /\ viewerResponseCalls l = [].
Proof.
  intros s H. destruct (disableCache opts) eqn:Hd.
  - exists [Log "→ cache"; Log "✗ Cache disabled"].
    split; [| repeat split; reflexivity].
    apply returnUnlessNoResult_continue, onCache_disabled, Hd.
  - exists [Log "→ cache"; CacheRetrieve (event s); Log "✗ Cache miss"].
    split; [| repeat split; reflexivity].
    apply returnUnlessNoResult_continue, onCache_miss; assumption.
Qed.

(** C1, as the code has it. When the origin-request handler resolves to a
    terminal response [r] (the viewer-request stage and the cache stage having
    ended without a result), [run] asks the origin for nothing and does not
    call the origin-response handler; it removes [origin] from the request,
    writes the event carrying [r] to the cache, hands that event to the
    viewer-response handler and resolves to what this handler returned. *)
Theorem origin_request_terminal_response :
  forall url s x e1 r e2 final,
    viewerRequest fnSet (event s) context = (Resolved x, e1) ->
    isResponseResult x = false ->
    (if disableCache opts then None else retrieveFromCache (store s) e1) = None ->
    originRequest fnSet (originRequestEvent e1) context
      = (Resolved (ResultResponse r), e2) ->
    viewerResponse fnSet (combineResult (withOrigin e2 None) (Some r)) context
      = Resolved final ->
    exists l,
      lifecycle url s =
        (Resolved final,
         mkState (withOrigin e2 None)
           (saveToCache (store s) (combineResult (withOrigin e2 None) (Some r)))
           (trace s ++ l)) /\
      originFetches l = [] /\
      originResponseCalls l = [] /\
      cacheWrites l = [combineResult (withOrigin e2 None) (Some r)] /\
      viewerResponseCalls l = [combineResult (withOrigin e2 None) (Some r)].
Proof.
  intros url s x e1 r e2 final Hv Hx Hc Ho Hr.
  pose proof (viewer_stage_continues url s Hv Hx) as Hs.
  set (sv := mkState e1 (store s)
               (trace s ++ [Log ("Request for " ++ url)%string;
                            Log "→ viewer-request"; CallViewerRequest (event s)])) in *.
  destruct (@cache_stage_continues sv Hc) as (lc & Hcs & Wc & Fc & Rc & Vc).
  set (saved := combineResult (withOrigin e2 None) (Some r)).
  exists ([Log ("Request for " ++ url)%string; Log "→ viewer-request";
           CallViewerRequest (event s)] ++ lc ++
          [Log "→ origin-request"; CallOriginRequest (originRequestEvent e1);
           CacheSave saved; Log "← viewer-response"; CallViewerResponse saved]).
  split.
  - rewrite run_eq, Hs, Hcs, fromOriginRequest_eq.
    rewrite (@onOriginRequest_terminal
               (mkState (event sv) (store sv) (trace sv ++ lc)) r e2 Ho).
    rewrite onViewerResponse_eq. simpl. unfold saved. rewrite Hr.
    repeat rewrite <- app_assoc. reflexivity.
  - repeat split;
      simpl;
      rewrite ?originFetches_app, ?originResponseCalls_app, ?cacheWrites_app,
        ?viewerResponseCalls_app, ?Wc, ?Fc, ?Rc, ?Vc; reflexivity.
Qed.

(** The first [try] block ends without returning in three ways only: the
    viewer-request handler resolved to something that is not a response, the
    handler itself rejected with a NoResult, or it resolved to a response on
    which the viewer-response handler rejected with a NoResult.  Nothing was
    asked of the origin and nothing written to the cache. *)
Lemma viewer_try_without_result : forall s sv,
  returnUnlessNoResult viewerRequestStage s = (Resolved None, sv) ->
  ((exists x,
      viewerRequest fnSet (event s) context = (Resolved x, event sv) /\
      isResponseResult x = false)
   \/
   (exists err,
      viewerRequest fnSet (event s) context = (Rejected err, event sv) /\
      instanceofNoResult err = true)
   \/
   (exists r,
      viewerRequest fnSet (event s) context
        = (Resolved (ResultResponse r), event sv) /\
      rejectedWithNoResult
        (viewerResponse fnSet (combineResult (event sv) (Some r)) context) = true)) /\
  store sv = store s /\
  cacheWrites (trace sv) = cacheWrites (trace s) /\
  originFetches (trace sv) = originFetches (trace s).
Proof.
  intros s sv H.
  assert (K : keeps originFetches (returnUnlessNoResult viewerRequestStage)).
  { unfold returnUnlessNoResult, onViewerRequest, onViewerResponse,
      callResponseHandler, log.
    keeps_solve. }
  destruct (quiet_returnUnlessNoResult quiet_onViewerRequest _ H) as [W S].
  pose proof (K _ _ _ H) as F.
  split; [| auto].
  destruct (viewerRequest fnSet (event s) context) as [ov e1] eqn:Hv.
  destruct ov as [x|err|].
  - destruct (isResponseResult x) eqn:Hx.
    + destruct x as [| |r]; try discriminate Hx.
      unfold returnUnlessNoResult, tryCatch, bind, ret, throw in H.
      rewrite (onViewerRequest_terminal s Hv), onViewerResponse_eq in H.
      simpl in H.
      destruct (viewerResponse fnSet (combineResult e1 (Some r)) context)
        as [final|err|] eqn:Hr; try discriminate H.
      destruct (instanceofNoResult err) eqn:He; simpl in H; try discriminate H.
      inversion H; subst; clear H. simpl.
      right. right. exists r. rewrite Hr. simpl. auto.
    + rewrite (returnUnlessNoResult_continue _ _
                 (onViewerRequest_continue s Hv Hx)) in H.
      inversion H; subst; clear H. simpl.
      left. exists x. auto.
  - unfold returnUnlessNoResult, tryCatch, bind, ret, throw in H.
    rewrite (onViewerRequest_rejected s Hv) in H. simpl in H.
    destruct (instanceofNoResult err) eqn:He; simpl in H; try discriminate H.
    inversion H; subst; clear H. simpl.
    right. left. exists err. auto.
  - unfold returnUnlessNoResult, tryCatch, bind, ret, throw in H.
    rewrite (onViewerRequest_pending s Hv) in H. discriminate H.
Qed.

(** The second [try] block ends without returning in three ways only: the
    cache is disabled, the lookup misses, or it hits and the viewer-response
    handler rejects with a NoResult on the response made from the entry. *)
Lemma cache_try_without_result : forall s sc,
  returnUnlessNoResult cacheStage s = (Resolved None, sc) ->
  (disableCache opts = true
   \/
   (disableCache opts = false /\ retrieveFromCache (store s) (event s) = None)
   \/
   (exists cached,
      disableCache opts = false /\
      retrieveFromCache (store s) (event s) = Some cached /\
      rejectedWithNoResult
        (viewerResponse fnSet
           (combineResult (event s) (Some (toResultResponse cached))) context)
        = true)) /\
  event sc = event s /\
  store sc = store s /\
  cacheWrites (trace sc) = cacheWrites (trace s) /\
  originFetches (trace sc) = originFetches (trace s).
Proof.
  intros s sc H.
  assert (K : keeps originFetches (returnUnlessNoResult cacheStage)).
  { unfold returnUnlessNoResult, onCache, onViewerResponse,
      callResponseHandler, log.
    keeps_solve. }
  destruct (quiet_returnUnlessNoResult quiet_onCache _ H) as [W S].
  pose proof (K _ _ _ H) as F.
  destruct (disableCache opts) eqn:Hd.
  - rewrite (returnUnlessNoResult_continue _ _ (onCache_disabled s Hd)) in H.
    inversion H; subst; clear H. simpl. auto.
  - destruct (retrieveFromCache (store s) (event s)) as [cached|] eqn:Hc.
    + unfold returnUnlessNoResult, tryCatch, bind, ret, throw in H.
      rewrite (onCache_hit s Hd Hc), onViewerResponse_eq in H. simpl in H.
      destruct (viewerResponse fnSet
                  (combineResult (event s) (Some (toResultResponse cached))) context)
        as [final|err|] eqn:Hr; try discriminate H.
      destruct (instanceofNoResult err) eqn:He; simpl in H; try discriminate H.
      inversion H; subst; clear H. simpl.
      split; [| auto]. right. right. exists cached. rewrite Hr. simpl. auto.
    + rewrite (returnUnlessNoResult_continue _ _ (onCache_miss s Hd Hc)) in H.
      inversion H; subst; clear H. simpl. auto.
Qed.


(** ** What a run does at most once *)

(** Whatever the handlers, the cache and the origin do, one run asks the
    cache at most once, calls the origin-request handler at most once, asks
    the origin at most once, calls the origin-response handler at most once
    and writes to the cache at most once. *)
Theorem run_calls_at_most_once :
  forall url s o s',
    lifecycle url s = (o, s') ->
    (exists l, cacheLookups (trace s') = cacheLookups (trace s) ++ l /\
               (List.length l <= 1)%nat) /\
    (exists l, originRequestCalls (trace s') = originRequestCalls (trace s) ++ l /\
               (List.length l <= 1)%nat) /\
    (exists l, originFetches (trace s') = originFetches (trace s) ++ l /\
               (List.length l <= 1)%nat) /\
    (exists l, originResponseCalls (trace s') = originResponseCalls (trace s) ++ l /\
               (List.length l <= 1)%nat) /\
    (exists l, cacheWrites (trace s') = cacheWrites (trace s) ++ l /\
               (List.length l <= 1)%nat).
Proof.
  intros url s o s' E.
  assert (H1 : addsOne cacheLookups (lifecycle url)).
  { unfold run, returnUnlessNoResult, fromOriginRequest, onViewerRequest,
      onCache, onOriginRequest, onOrigin, onOriginResponse, onViewerResponse,
      cacheSave, callResponseHandler, log.
    addsOne_solve. }
  assert (H2 : addsOne originRequestCalls (lifecycle url)).
  { unfold run, returnUnlessNoResult, fromOriginRequest, onViewerRequest,
      onCache, onOriginRequest, onOrigin, onOriginResponse, onViewerResponse,
      cacheSave, callResponseHandler, log.
    addsOne_solve. }
  assert (H3 : addsOne originFetches (lifecycle url)).
  { unfold run, returnUnlessNoResult, fromOriginRequest, onViewerRequest,
      onCache, onOriginRequest, onOrigin, onOriginResponse, onViewerResponse,
      cacheSave, callResponseHandler, log.
    addsOne_solve. }
  assert (H4 : addsOne originResponseCalls (lifecycle url)).
  { unfold run, returnUnlessNoResult, fromOriginRequest, onViewerRequest,
      onCache, onOriginRequest, onOrigin, onOriginResponse, onViewerResponse,
      cacheSave, callResponseHandler, log.
    addsOne_solve. }
  assert (H5 : addsOne cacheWrites (lifecycle url)).
  { unfold run, returnUnlessNoResult, fromOriginRequest, onViewerRequest,
      onCache, onOriginRequest, onOrigin, onOriginResponse, onViewerResponse,
      cacheSave, callResponseHandler, log.
    addsOne_solve. }
  repeat split; [apply (H1 _ _ _ E) | apply (H2 _ _ _ E) | apply (H3 _ _ _ E)
                | apply (H4 _ _ _ E) | apply (H5 _ _ _ E)].
Qed.

(** ** Errors of handlers *)

(** An error of the viewer-request handler that is not the lifecycle's own
    NoResult is the error [run] rejects with, and nothing else is called:
    no cache lookup, no origin-request handler, no origin, no cache write and
    no viewer-response handler. *)
Theorem viewer_request_handler_rejection :
  forall url s err e1,
    viewerRequest fnSet (event s) context = (Rejected err, e1) ->
    instanceofNoResult err = false ->
    exists l,
      lifecycle url s = (Rejected err, mkState e1 (store s) (trace s ++ l)) /\
      cacheLookups l = [] /\
      originRequestCalls l = [] /\
      originFetches l = [] /\
      cacheWrites l = [] /\
      viewerResponseCalls l = [].
Proof.
  intros url s err e1 Hv Hn.
  exists [Log ("Request for " ++ url)%string; Log "→ viewer-request";
          CallViewerRequest (event s)].
  split; [| repeat split; reflexivity].
  rewrite run_eq.
  assert (Hs : viewerRequestStage (logged url s) =
               (Rejected err,
                mkState e1 (store s)
                  (trace s ++ [Log ("Request for " ++ url)%string;
                               Log "→ viewer-request";
                               CallViewerRequest (event s)]))).
  { unfold onViewerRequest, callRequestHandler, log, emit, bind. simpl.
    rewrite Hv. simpl. repeat rewrite <- app_assoc. reflexivity. }
  rewrite (returnUnlessNoResult_rethrow _ _ Hs Hn). reflexivity.
Qed.

(** The first [try] block of [run] swallows a NoResult whoever raised it.
    When the viewer-request handler answers with a terminal response and the
    viewer-response handler then rejects with a NoResult, [run] does not
    reject: with the cache disabled or missing, it goes on with the
    origin-request stage as if the viewer-request handler had not answered. *)
Theorem viewer_response_NoResult_is_swallowed :
  forall url s r e1,
    viewerRequest fnSet (event s) context = (Resolved (ResultResponse r), e1) ->
    viewerResponse fnSet (combineResult e1 (Some r)) context = Rejected ErrNoResult ->
    (if disableCache opts then None else retrieveFromCache (store s) e1) = None ->
    exists l,
      lifecycle url s = originTail (mkState e1 (store s) (trace s ++ l)) /\
      viewerResponseCalls l = [combineResult e1 (Some r)] /\
      originRequestCalls l = [] /\
      cacheWrites l = [].
Proof.
  intros url s r e1 Hv Hr Hc.
  set (sv := mkState e1 (store s)
               (trace s ++ [Log ("Request for " ++ url)%string;
                            Log "→ viewer-request"; CallViewerRequest (event s);
                            Log "← viewer-response";
                            CallViewerResponse (combineResult e1 (Some r))])).
  assert (Hs : viewerRequestStage (logged url s) = (Rejected ErrNoResult, sv)).
  { rewrite (@onViewerRequest_terminal (logged url s) r e1 Hv).
    rewrite onViewerResponse_eq. simpl. rewrite Hr. unfold sv.
    repeat rewrite <- app_assoc. reflexivity. }
  destruct (@cache_stage_continues sv Hc) as (lc & Hcs & Wc & _ & _ & Vc).
  assert (Oc : originRequestCalls lc = []).
  { unfold returnUnlessNoResult, tryCatch, bind in Hcs.
    destruct (disableCache opts) eqn:Hd.
    - rewrite (onCache_disabled sv Hd) in Hcs. simpl in Hcs.
      inversion Hcs as [Ht]. apply app_inv_head in Ht. subst lc. reflexivity.
    - rewrite (@onCache_miss sv Hd Hc) in Hcs. simpl in Hcs.
      inversion Hcs as [Ht]. apply app_inv_head in Ht. subst lc. reflexivity. }
  exists ([Log ("Request for " ++ url)%string; Log "→ viewer-request";
           CallViewerRequest (event s); Log "← viewer-response";
           CallViewerResponse (combineResult e1 (Some r))] ++ lc).
  split.
  - rewrite run_eq, (returnUnlessNoResult_continue _ _ Hs), Hcs.
    unfold sv. simpl. repeat rewrite <- app_assoc. reflexivity.
  - simpl. rewrite ?viewerResponseCalls_app, ?originRequestCalls_app,
      ?cacheWrites_app, Vc, Oc, Wc. repeat split; reflexivity.
Qed.

(** ** The whole way to the origin and back *)

(** When no stage answers by itself (the viewer-request and origin-request
    handlers resolve to something that is not a response, the cache is
    disabled or misses) and the origin's retrieve resolves, [run] calls the
    origin-response handler with the event carrying what was retrieved,
    removes [origin] from the request, writes the event carrying the handler's
    result to the cache, calls the viewer-response handler with that same
    event and resolves to its result; the origin is asked exactly once, with
    the event as the origin-request handler left it. *)
Theorem full_origin_round_trip :
  forall url s x e1 y e2 fetched result final,
    viewerRequest fnSet (event s) context = (Resolved x, e1) ->
    isResponseResult x = false ->
    (if disableCache opts then None else retrieveFromCache (store s) e1) = None ->
    originRequest fnSet (originRequestEvent e1) context = (Resolved y, e2) ->
    isResponseResult y = false ->
    retrieve node toHttpHeaders (fnOrigin fnSet) e2 = Resolved fetched ->
    originResponse fnSet (combineResult e2 (Some fetched)) context = Resolved result ->
    viewerResponse fnSet (combineResult (withOrigin e2 None) result) context
      = Resolved final ->
    exists l,
      lifecycle url s =
        (Resolved final,
         mkState (withOrigin e2 None)
           (saveToCache (store s) (combineResult (withOrigin e2 None) result))
           (trace s ++ l)) /\
      originRequestCalls l = [originRequestEvent e1] /\
      originFetches l = [e2] /\
      originResponseCalls l = [combineResult e2 (Some fetched)] /\
      cacheWrites l = [combineResult (withOrigin e2 None) result] /\
      viewerResponseCalls l = [combineResult (withOrigin e2 None) result].
Proof.
  intros url s x e1 y e2 fetched result final Hv Hx Hc Ho Hy Hf Hr Hvr.
  pose proof (viewer_stage_continues url s Hv Hx) as Hs.
  set (sv := mkState e1 (store s)
               (trace s ++ [Log ("Request for " ++ url)%string;
                            Log "→ viewer-request"; CallViewerRequest (event s)])) in *.
  destruct (@cache_stage_continues sv Hc) as (lc & Hcs & Wc & Fc & Rc & Vc).
  assert (Oc : originRequestCalls lc = []).
  { unfold returnUnlessNoResult, tryCatch, bind in Hcs.
    destruct (disableCache opts) eqn:Hd.
    - rewrite (onCache_disabled sv Hd) in Hcs. simpl in Hcs.
      inversion Hcs as [Ht]. apply app_inv_head in Ht. subst lc. reflexivity.
    - rewrite (@onCache_miss sv Hd Hc) in Hcs. simpl in Hcs.
      inversion Hcs as [Ht]. apply app_inv_head in Ht. subst lc. reflexivity. }
  set (saved := combineResult (withOrigin e2 None) result).
  exists ([Log ("Request for " ++ url)%string; Log "→ viewer-request";
           CallViewerRequest (event s)] ++ lc ++
          [Log "→ origin-request"; CallOriginRequest (originRequestEvent e1);
           Log "→ origin"; OriginRetrieve e2; Log "← origin-response";
           CallOriginResponse (combineResult e2 (Some fetched));
           CacheSave saved; Log "← viewer-response"; CallViewerResponse saved]).
  split.
  - rewrite run_eq, Hs, Hcs, fromOriginRequest_eq.
    rewrite (@onOriginRequest_fetch
               (mkState (event sv) (store sv) (trace sv ++ lc)) y e2 Ho Hy).
    rewrite Hf, Hr. rewrite onViewerResponse_eq. simpl. unfold saved.
    rewrite Hvr. repeat rewrite <- app_assoc. reflexivity.
  - repeat split; simpl;
      rewrite ?originRequestCalls_app, ?originFetches_app,
        ?originResponseCalls_app, ?cacheWrites_app, ?viewerResponseCalls_app,
        ?Oc, ?Wc, ?Fc, ?Rc, ?Vc; reflexivity.
Qed.

(** An error of the origin-response handler, of whatever class, is the error
    [run] rejects with: the origin has been asked, but nothing is written to
    the cache and the viewer-response handler is not called. *)
Theorem origin_response_handler_rejection :
  forall url s x e1 y e2 fetched err,
    viewerRequest fnSet (event s) context = (Resolved x, e1) ->
    isResponseResult x = false ->
    (if disableCache opts then None else retrieveFromCache (store s) e1) = None ->
    originRequest fnSet (originRequestEvent e1) context = (Resolved y, e2) ->
    isResponseResult y = false ->
    retrieve node toHttpHeaders (fnOrigin fnSet) e2 = Resolved fetched ->
    originResponse fnSet (combineResult e2 (Some fetched)) context = Rejected err ->
    exists l,
      lifecycle url s = (Rejected err, mkState e2 (store s) (trace s ++ l)) /\
      originFetches l = [e2] /\
      cacheWrites l = [] /\
      viewerResponseCalls l = [].
Proof.
  intros url s x e1 y e2 fetched err Hv Hx Hc Ho Hy Hf Hr.
  pose proof (viewer_stage_continues url s Hv Hx) as Hs.
  set (sv := mkState e1 (store s)
               (trace s ++ [Log ("Request for " ++ url)%string;
                            Log "→ viewer-request"; CallViewerRequest (event s)])) in *.
  destruct (@cache_stage_continues sv Hc) as (lc & Hcs & Wc & Fc & Rc & Vc).
  exists ([Log ("Request for " ++ url)%string; Log "→ viewer-request";
           CallViewerRequest (event s)] ++ lc ++
          [Log "→ origin-request"; CallOriginRequest (originRequestEvent e1);
           Log "→ origin"; OriginRetrieve e2; Log "← origin-response";
           CallOriginResponse (combineResult e2 (Some fetched))]).
  split.
  - rewrite run_eq, Hs, Hcs, fromOriginRequest_eq.
    rewrite (@onOriginRequest_fetch
               (mkState (event sv) (store sv) (trace sv ++ lc)) y e2 Ho Hy).
    rewrite Hf, Hr. simpl. repeat rewrite <- app_assoc. reflexivity.
  - repeat split; simpl;
      rewrite ?originFetches_app, ?cacheWrites_app, ?viewerResponseCalls_app,
        ?Wc, ?Fc, ?Vc; reflexivity.
Qed.

End LifecycleProperties.

(** ** The paths, on the concrete distribution *)

Section LifecycleOnFixture.

Import Fixture Cases.

Local Abbreviation platform := (node OrdinaryFunction).

(** [run] on the platform whose upstream answers 503. *)
Local Abbreviation runUnavailable :=
  (run (nodeWith unavailable) toHttpHeaders retrieveFromCache saveToCache
     toResultResponse combineResult cacheOn ctx).

(** [run] on the platform whose upstream breaks off. *)
Local Abbreviation runBroken :=
  (run (nodeWith broken) toHttpHeaders retrieveFromCache saveToCache
     toResultResponse combineResult cacheOn ctx).

Lemma viewer_request_terminal_response_witness :
  viewerRequest viewerAnswers (eventOf (get "/a")) ctx
    = (Resolved (ResultResponse teapot), eventOf (get "/a")) /\
  viewerResponse viewerAnswers (combineResult (eventOf (get "/a")) (Some teapot)) ctx
    = Resolved (Some (mkResponse "418" (Some "viewer-response") None None
                        (Some (BodyString "short")))) /\
  exists l,
    runOn OrdinaryFunction cacheOn viewerAnswers (get "/a") warm
      = (Resolved (Some (mkResponse "418" (Some "viewer-response") None None
                           (Some (BodyString "short")))),
         mkState (eventOf (get "/a")) warm ([] ++ l)) /\
    cacheLookups l = [] /\
    originRequestCalls l = [] /\
    originFetches l = [] /\
    cacheWrites l = [] /\
    viewerResponseCalls l = [combineResult (eventOf (get "/a")) (Some teapot)].
Proof.
  split; [reflexivity | split; [reflexivity |]].
  apply (viewer_request_terminal_response platform toHttpHeaders
           retrieveFromCache saveToCache toResultResponse combineResult
           cacheOn ctx viewerAnswers "/a" (start (get "/a") warm)
           (r := teapot) (e1 := eventOf (get "/a")));
    reflexivity.
Defined.

(** At a request the viewer-request handler answers by itself, with a
    response on which the viewer-response handler gives up with a NoResult,
    [run] looks the cache up, asks the origin and resolves to what the origin
    answered, not to a form of the handler's response. *)
Lemma viewer_short_circuit_undone_by_NoResult :
  viewerRequest teapotRefused (eventOf (get "/a")) ctx
    = (Resolved (ResultResponse teapot), eventOf (get "/a")) /\
  let out := runOn OrdinaryFunction cacheOn teapotRefused (get "/a") [] in
  cacheLookups (trace (snd out)) = [eventOf (get "/a")] /\
  originFetches (trace (snd out)) = [eventOf (get "/a")] /\
  fst out = Resolved (Some (mkResponse "200" (Some "viewer-response")
                              (respHeaders fetched) (Some "text")
                              (Some (BodyBuffer "hello")))) /\
  ~ (cacheLookups (trace (snd out)) = [] /\ originFetches (trace (snd out)) = []).
Proof.
  split; [reflexivity |].
  cbv zeta. split; [vm_compute; reflexivity |].
  split; [vm_compute; reflexivity |].
  split; [vm_compute; reflexivity |].
  intros (H & _). vm_compute in H. discriminate H.
Qed.

Lemma cache_stage_paths_witness :
  (runOn OrdinaryFunction cacheOff proxied (get "/a") warm =
   fromOriginRequest platform toHttpHeaders saveToCache combineResult ctx proxied
     (mkState (eventOf (get "/a")) warm
        (([] ++ [Log "Request for /a"; Log "→ viewer-request";
                 CallViewerRequest (eventOf (get "/a"))]) ++
         [Log "→ cache"; Log "✗ Cache disabled"])))
  /\
  (runOn OrdinaryFunction cacheOn proxied (get "/a") [] =
   fromOriginRequest platform toHttpHeaders saveToCache combineResult ctx proxied
     (mkState (eventOf (get "/a")) []
        (([] ++ [Log "Request for /a"; Log "→ viewer-request";
                 CallViewerRequest (eventOf (get "/a"))]) ++
         [Log "→ cache"; CacheRetrieve (eventOf (get "/a")); Log "✗ Cache miss"])))
  /\
  (exists l,
     runOn OrdinaryFunction cacheOn proxied (get "/a") warm
       = (Resolved (Some (mkResponse "200" (Some "viewer-response")
                            (respHeaders fetched) (Some "text")
                            (Some (BodyBuffer "hello")))),
          mkState (eventOf (get "/a")) warm ([] ++ l)) /\
     cacheLookups l = [eventOf (get "/a")] /\
     originRequestCalls l = [] /\
     originFetches l = [] /\
     cacheWrites l = [] /\
     viewerResponseCalls l =
       [combineResult (eventOf (get "/a"))
          (Some (mkResponse "200" (Some "origin-response") (respHeaders fetched)
                   (Some "text") (Some (BodyBuffer "hello"))))]).
Proof.
  split; [| split].
  - destruct (cache_stage_paths platform toHttpHeaders retrieveFromCache
                saveToCache toResultResponse combineResult cacheOff ctx proxied
                "/a" (start (get "/a") warm) (x := ResultRequest (get "/a"))
                (e1 := eventOf (get "/a")) eq_refl eq_refl) as [H _].
    exact (H eq_refl).
  - destruct (cache_stage_paths platform toHttpHeaders retrieveFromCache
                saveToCache toResultResponse combineResult cacheOn ctx proxied
                "/a" (start (get "/a") []) (x := ResultRequest (get "/a"))
                (e1 := eventOf (get "/a")) eq_refl eq_refl) as [_ [H _]].
    exact (H eq_refl eq_refl).
  - destruct (cache_stage_paths platform toHttpHeaders retrieveFromCache
                saveToCache toResultResponse combineResult cacheOn ctx proxied
                "/a" (start (get "/a") warm) (x := ResultRequest (get "/a"))
                (e1 := eventOf (get "/a")) eq_refl eq_refl) as [_ [_ H]].
    apply (H (mkResponse "200" (Some "origin-response") (respHeaders fetched)
                (Some "text") (Some (BodyBuffer "hello")))).
    + reflexivity.
    + vm_compute. reflexivity.
    + reflexivity.
Defined.

(** At a request the cache holds an entry for, with a viewer-response handler
    that gives up with a NoResult on the response made from the entry, [run]
    goes on after the hit: it asks the origin and writes to the cache. *)
Lemma cache_hit_reaches_the_origin :
  disableCache cacheOn = false /\
  retrieveFromCache warm (eventOf (get "/a"))
    = Some (mkResponse "200" (Some "origin-response") (respHeaders fetched)
              (Some "text") (Some (BodyBuffer "hello"))) /\
  let out := runUnavailable okRefused "/a" (start (get "/a") warm) in
  cacheLookups (trace (snd out)) = [eventOf (get "/a")] /\
  originFetches (trace (snd out)) = [eventOf (get "/a")] /\
  cacheWrites (trace (snd out)) <> [] /\
  ~ (originFetches (trace (snd out)) = []).
Proof.
  split; [reflexivity |].
  split; [vm_compute; reflexivity |].
  cbv zeta. split; [vm_compute; reflexivity |].
  split; [vm_compute; reflexivity |].
  split; [vm_compute; discriminate |].
  intros H. vm_compute in H. discriminate H.
Qed.

Lemma origin_request_terminal_response_witness :
  viewerRequest originAnswers (eventOf (get "/a")) ctx
    = (Resolved (ResultRequest (get "/a")), eventOf (get "/a")) /\
  originRequest originAnswers
      (withCustomOrigin platform originAnswers (eventOf (get "/a"))) ctx
    = (Resolved (ResultResponse teapot), eventOf (get "/a")) /\
  exists l,
    runOn OrdinaryFunction cacheOn originAnswers (get "/a") []
      = (Resolved (Some (mkResponse "418" (Some "viewer-response") None None
                           (Some (BodyString "short")))),
         mkState (withOrigin (eventOf (get "/a")) None)
           (saveToCache []
              (combineResult (withOrigin (eventOf (get "/a")) None) (Some teapot)))
           ([] ++ l)) /\
    originFetches l = [] /\
    originResponseCalls l = [] /\
    cacheWrites l = [combineResult (withOrigin (eventOf (get "/a")) None) (Some teapot)] /\
    viewerResponseCalls l =
      [combineResult (withOrigin (eventOf (get "/a")) None) (Some teapot)].
Proof.
  split; [reflexivity | split; [reflexivity |]].
  apply (origin_request_terminal_response platform toHttpHeaders
           retrieveFromCache saveToCache toResultResponse combineResult
           cacheOn ctx originAnswers "/a" (start (get "/a") [])
           (x := ResultRequest (get "/a")) (e1 := eventOf (get "/a")));
    reflexivity.
Defined.

(** At a request the origin-request handler answers by itself, [run] does not
    resolve to the handler's response as it is, it writes to the cache, and it
    calls the viewer-response handler. *)
Lemma origin_request_terminal_response_not_immediate :
  originRequest originAnswers
      (withCustomOrigin platform originAnswers (eventOf (get "/a"))) ctx
    = (Resolved (ResultResponse teapot), eventOf (get "/a")) /\
  let out := runOn OrdinaryFunction cacheOff originAnswers (get "/a") [] in
  fst out <> Resolved (Some teapot) /\
  cacheWrites (trace (snd out)) <> [] /\
  viewerResponseCalls (trace (snd out)) <> [] /\
  ~ (fst out = Resolved (Some teapot) /\
     originFetches (trace (snd out)) = [] /\
     originResponseCalls (trace (snd out)) = [] /\
     cacheWrites (trace (snd out)) = [] /\
     viewerResponseCalls (trace (snd out)) = []).
Proof.
  split; [reflexivity |].
  cbv zeta. repeat split.
  - vm_compute. discriminate.
  - vm_compute. discriminate.
  - vm_compute. discriminate.
  - intros (H & _). vm_compute in H. discriminate H.
Qed.



End LifecycleOnFixture.

(* ================================================================== *)
(** * Properties of the origin *)
(* ================================================================== *)

(** ** Dictionaries *)

Lemma Dict_get_set_same : forall (V : Type) (d : Dict.t V) k v,
  Dict.get (Dict.set d k v) k = Some v.
Proof.
  induction d as [|[k' v'] d IH]; intros k v; simpl.
  - rewrite String.eqb_refl. reflexivity.
  - destruct (String.eqb k' k) eqn:E; simpl; rewrite E; auto.
Qed.

Lemma Dict_get_set_other : forall (V : Type) (d : Dict.t V) k k' v,
  k <> k' ->
  Dict.get (Dict.set d k v) k' = Dict.get d k'.
Proof.
  induction d as [|[k0 v0] d IH]; intros k k' v Hne; simpl.
  - destruct (String.eqb k k') eqn:E; [apply String.eqb_eq in E; contradiction | reflexivity].
  - destruct (String.eqb k0 k) eqn:E; simpl.
    + apply String.eqb_eq in E. subst k0.
      destruct (String.eqb k k') eqn:E'; [apply String.eqb_eq in E'; contradiction | reflexivity].
    + destruct (String.eqb k0 k'); auto.
Qed.

Lemma Js_get_set_same : forall (o : Js.Obj) k v, Js.get (Js.set o k v) k = v.
Proof. intros. unfold Js.get, Js.set. rewrite Dict_get_set_same. reflexivity. Qed.

Lemma Js_get_set_other : forall (o : Js.Obj) k k' v,
  k <> k' -> Js.get (Js.set o k v) k' = Js.get o k'.
Proof.
  intros. unfold Js.get, Js.set. rewrite Dict_get_set_other by assumption.
  reflexivity.
Qed.

(** ** Construction *)

Section OriginProperties.

Variable node : Platform.
Variable toHttpHeaders : CloudFrontHeaders -> list (string * list string).

Lemma backfill_domainName : forall base c,
  Js.get (backfill node base c) "domainName" =
  if Js.truthy (Js.get c "domainName") then Js.get c "domainName"
  else Js.ofNullable (hostname (url_parse node base)).
Proof.
  intros base c. unfold backfill.
  set (u := url_parse node base).
  set (c1 := if negb (Js.truthy (Js.get c "domainName"))
             then Js.set c "domainName" (Js.ofNullable (hostname u)) else c).
  assert (H1 : Js.get c1 "domainName" =
               if Js.truthy (Js.get c "domainName") then Js.get c "domainName"
               else Js.ofNullable (hostname u)).
  { unfold c1. destruct (Js.truthy (Js.get c "domainName")); simpl;
      [reflexivity | apply Js_get_set_same]. }
  set (c2 := match protocol u with
             | Some p =>
                 if negb (Js.truthy (Js.get c1 "protocol")) && negb (p =? "")%string
                 then Js.set c1 "protocol" (Js.VStr (Js.dropLast p)) else c1
             | None => c1
             end).
  assert (H2 : Js.get c2 "domainName" = Js.get c1 "domainName").
  { unfold c2. destruct (protocol u); [| reflexivity].
    destruct (negb (Js.truthy (Js.get c1 "protocol")) && negb (s =? "")%string);
      [apply Js_get_set_other; discriminate | reflexivity]. }
  destruct (negb (Js.truthy (Js.get c2 "port")));
    [rewrite Js_get_set_other by discriminate |]; congruence.
Qed.

Lemma backfill_protocol : forall base c,
  Js.get (backfill node base c) "protocol" =
  if Js.truthy (Js.get c "protocol") then Js.get c "protocol"
  else match protocol (url_parse node base) with
       | Some p => if (p =? "")%string then Js.get c "protocol"
                   else Js.VStr (Js.dropLast p)
       | None => Js.get c "protocol"
       end.
Proof.
  intros base c. unfold backfill.
  set (u := url_parse node base).
  set (c1 := if negb (Js.truthy (Js.get c "domainName"))
             then Js.set c "domainName" (Js.ofNullable (hostname u)) else c).
  assert (H1 : Js.get c1 "protocol" = Js.get c "protocol").
  { unfold c1. destruct (negb (Js.truthy (Js.get c "domainName")));
      [apply Js_get_set_other; discriminate | reflexivity]. }
  set (c2 := match protocol u with
             | Some p =>
                 if negb (Js.truthy (Js.get c1 "protocol")) && negb (p =? "")%string
                 then Js.set c1 "protocol" (Js.VStr (Js.dropLast p)) else c1
             | None => c1
             end).
  assert (H2 : Js.get c2 "protocol" =
               if Js.truthy (Js.get c "protocol") then Js.get c "protocol"
               else match protocol u with
                    | Some p => if (p =? "")%string then Js.get c "protocol"
                                else Js.VStr (Js.dropLast p)
                    | None => Js.get c "protocol"
                    end).
  { unfold c2. rewrite H1.
    destruct (protocol u) as [p|];
      destruct (Js.truthy (Js.get c "protocol")) eqn:T; simpl; auto.
    destruct (p =? "")%string; simpl; [exact H1 | apply Js_get_set_same]. }
  destruct (negb (Js.truthy (Js.get c2 "port")));
    [rewrite Js_get_set_other by discriminate |]; exact H2.
Qed.

Lemma backfill_port : forall base c,
  Js.get (backfill node base c) "port" =
  if Js.truthy (Js.get c "port") then Js.get c "port"
  else Js.ofNullable (port (url_parse node base)).
Proof.
  intros base c. unfold backfill.
  set (u := url_parse node base).
  set (c1 := if negb (Js.truthy (Js.get c "domainName"))
             then Js.set c "domainName" (Js.ofNullable (hostname u)) else c).
  assert (H1 : Js.get c1 "port" = Js.get c "port").
  { unfold c1. destruct (negb (Js.truthy (Js.get c "domainName")));
      [apply Js_get_set_other; discriminate | reflexivity]. }
  set (c2 := match protocol u with
             | Some p =>
                 if negb (Js.truthy (Js.get c1 "protocol")) && negb (p =? "")%string
                 then Js.set c1 "protocol" (Js.VStr (Js.dropLast p)) else c1
             | None => c1
             end).
  assert (H2 : Js.get c2 "port" = Js.get c "port").
  { unfold c2. destruct (protocol u); [| exact H1].
    destruct (negb (Js.truthy (Js.get c1 "protocol")) && negb (s =? "")%string);
      [rewrite Js_get_set_other by discriminate |]; exact H1. }
  rewrite H2.
  destruct (Js.truthy (Js.get c "port")); simpl;
    [exact H2 | apply Js_get_set_same].
Qed.

Lemma backfill_other : forall base c k,
  k <> "domainName" -> k <> "protocol" -> k <> "port" ->
  Js.get (backfill node base c) k = Js.get c k.
Proof.
  intros base c k Hd Hp Ho. unfold backfill.
  repeat match goal with
         | |- context [if ?b then _ else _] => destruct b
         | |- context [match ?x with Some _ => _ | None => _ end] => destruct x
         | |- Js.get (Js.set _ _ _) k = _ =>
             rewrite Js_get_set_other by (intro E; symmetry in E; contradiction)
         end; reflexivity.
Qed.

Lemma prefix_cons : forall a p t,
  String.prefix (String a p) t = true ->
  exists t', t = String a t' /\ String.prefix p t' = true.
Proof.
  intros a p t H. destruct t as [|b t']; simpl in H; [discriminate H |].
  destruct (ascii_dec a b) as [E|E]; [| discriminate H].
  subst b. exists t'. auto.
Qed.

Lemma https_is_not_http : forall t,
  Js.startsWith t "https://" = true -> Js.startsWith t "http://" = false.
Proof.
  intros t H. unfold Js.startsWith in *.
  do 5 (apply prefix_cons in H; destruct H as (? & -> & H)).
  reflexivity.
Qed.

(** C8. The kind of an origin is fixed by its target alone when the origin is
    constructed: none for an empty (or omitted) target, http for a target that
    starts with [http://], https for one that starts with [https://], and
    file for every other target, whose base becomes the resolved path.  A
    [customOrigin] given to the constructor keeps the [domainName], [protocol]
    and [port] it has and gets the ones it lacks from the parsed base: the
    host name, the protocol without its colon (when the base has one), and the
    port; its other properties are left as they are. *)
Theorem origin_construction :
  forall target custom,
    let t := match target with Some t => t | None => "" end in
    let o := newOrigin node target custom in
    (t = "" -> type o = noop) /\
    (Js.startsWith t "http://" = true -> type o = http /\ baseUrl o = t) /\
    (Js.startsWith t "https://" = true -> type o = https /\ baseUrl o = t) /\
    (t <> "" ->
     Js.startsWith t "http://" = false ->
     Js.startsWith t "https://" = false ->
     type o = file /\ baseUrl o = path_resolve node t) /\
    (custom = None -> customOrigin o = None) /\
    (forall c,
       custom = Some c ->
       exists c',
         customOrigin o = Some c' /\
         Js.get c' "domainName" =
           (if Js.truthy (Js.get c "domainName") then Js.get c "domainName"
            else Js.ofNullable (hostname (url_parse node (baseUrl o)))) /\
         Js.get c' "protocol" =
           (if Js.truthy (Js.get c "protocol") then Js.get c "protocol"
            else match protocol (url_parse node (baseUrl o)) with
                 | Some p => if (p =? "")%string then Js.get c "protocol"
                             else Js.VStr (Js.dropLast p)
                 | None => Js.get c "protocol"
                 end) /\
         Js.get c' "port" =
           (if Js.truthy (Js.get c "port") then Js.get c "port"
            else Js.ofNullable (port (url_parse node (baseUrl o)))) /\
         (forall k, k <> "domainName" -> k <> "protocol" -> k <> "port" ->
                    Js.get c' k = Js.get c k)) /\
    (forall custom', type (newOrigin node target custom') = type o).
Proof.
  intros target custom t o.
  assert (Hshape :
    exists ty base,
      o = {| baseUrl := base; type := ty;
             customOrigin := match custom with
                             | Some c => Some (backfill node base c)
                             | None => None
                             end |} /\
      (forall custom', type (newOrigin node target custom') = ty) /\
      (t = "" -> ty = noop) /\
      (Js.startsWith t "http://" = true -> ty = http /\ base = t) /\
      (Js.startsWith t "https://" = true -> ty = https /\ base = t) /\
      (t <> "" -> Js.startsWith t "http://" = false ->
       Js.startsWith t "https://" = false ->
       ty = file /\ base = path_resolve node t)).
  { unfold o, newOrigin. fold t.
    destruct (t =? "")%string eqn:E0.
    - apply String.eqb_eq in E0.
      exists noop, t. split; [reflexivity |].
      split; [reflexivity |].
      split; [reflexivity |].
      split; [intros H; rewrite E0 in H; discriminate H |].
      split; [intros H; rewrite E0 in H; discriminate H |].
      intros H; contradiction.
    - assert (Hne : t <> "") by (apply String.eqb_neq; exact E0).
      destruct (Js.startsWith t "http://") eqn:E1.
      + exists http, t. split; [reflexivity |].
        split; [reflexivity |].
        split; [intros H; contradiction |].
        split; [auto |].
        split; [intros H; apply https_is_not_http in H; congruence |].
        intros _ H; discriminate H.
      + destruct (Js.startsWith t "https://") eqn:E2.
        * exists https, t. split; [reflexivity |].
          split; [reflexivity |].
          split; [intros H; contradiction |].
          split; [intros H; discriminate H |].
          split; [auto |].
          intros _ _ H; discriminate H.
        * exists file, (path_resolve node t). split; [reflexivity |].
          split; [reflexivity |].
          split; [intros H; contradiction |].
          split; [intros H; discriminate H |].
          split; [intros H; discriminate H |].
          auto. }
  destruct Hshape as (ty & base & Ho & Hty & H0 & H1 & H2 & H3).
  rewrite Ho. simpl.
  split; [exact H0 |].
  split; [exact H1 |].
  split; [exact H2 |].
  split; [exact H3 |].
  split; [intros ->; reflexivity |].
  split; [| exact Hty].
  intros c ->. exists (backfill node base c).
  split; [reflexivity |].
  split; [apply backfill_domainName |].
  split; [apply backfill_protocol |].
  split; [apply backfill_port |].
  intros k; apply backfill_other.
Qed.

(** ** Fetching over http *)

Lemma append_colon_nonempty : forall p, ((p ++ ":")%string =? "")%string = false.
Proof. intros p. destruct p; reflexivity. Qed.

(** C7. The upstream request of an http or https fetch is addressed as
    follows.  When the request carries no custom origin, protocol, host and
    port are those of the origin's own base url, the port being 443 for
    protocol [https:] and 80 otherwise when the url has none.  When the
    request carries a custom origin, they are the custom protocol, domain name
    and port, the port being 443 for protocol [https] and 80 otherwise when
    the custom origin has none.  The module that sends the request is [https]
    exactly when that protocol starts with [https]. *)
Theorem http_fetch_target :
  forall o req,
    let base := url_parse node (baseUrl o) in
    let up := upstreamRequest node toHttpHeaders o req in
    (forall custom,
       origin req = Some (OriginCustom custom) ->
       optProtocol (options up)
         = Some (Js.toString (Js.get custom "protocol") ++ ":")%string /\
       optHostname (options up) = Js.get custom "domainName" /\
       (Js.truthy (Js.get custom "port") = true ->
        optPort (options up) = Js.get custom "port") /\
       (Js.truthy (Js.get custom "port") = false ->
        optPort (options up) =
          if Js.strictEqStr (Js.get custom "protocol") "https"
          then Js.VNum 443 else Js.VNum 80) /\
       viaHttps up =
         Js.startsWith (Js.toString (Js.get custom "protocol") ++ ":")%string "https")
    /\
    ((forall custom, origin req <> Some (OriginCustom custom)) ->
       optProtocol (options up) = protocol base /\
       optHostname (options up) = Js.ofNullable (hostname base) /\
       (forall p, port base = Some p -> p <> "" ->
                  optPort (options up) = Js.VStr p) /\
       (port base = None ->
        optPort (options up) =
          if Js.strictEqStr (Js.ofNullable (protocol base)) "https:"
          then Js.VNum 443 else Js.VNum 80) /\
       (forall p, protocol base = Some p -> p <> "" ->
                  viaHttps up = Js.startsWith p "https"))
    /\
    getHttpResource node toHttpHeaders o req =
      match http_request node up with
      | Some res => collect res (imEvents res) []
      | None => Pending
      end.
Proof.
  intros o req base up.
  split; [| split; [| reflexivity]].
  - intros custom Hc. unfold up, upstreamRequest, requestOptions, isHttps.
    rewrite Hc. simpl. rewrite append_colon_nonempty. simpl.
    repeat split.
    + intros Ht. unfold Js.or. rewrite Ht. reflexivity.
    + intros Ht. unfold Js.or. rewrite Ht. reflexivity.
  - intros Hn.
    assert (Hopts : requestOptions node toHttpHeaders o req =
              {| optMethod := method req;
                 optProtocol := protocol base;
                 optHostname := Js.ofNullable (hostname base);
                 optPort :=
                   Js.or (Js.ofNullable (port base))
                     (if Js.strictEqStr (Js.ofNullable (protocol base)) "https:"
                      then Js.VNum 443 else Js.VNum 80);
                 optPath := path (url_parse node (uri req));
                 optHeaders :=
                   Js.set (outgoingHeaders toHttpHeaders (headers req))
                     "connection" (Js.VStr "Close") |}).
    { unfold requestOptions. fold base.
      destruct (origin req) as [[custom|s3]|]; try reflexivity.
      exfalso. apply (Hn custom). reflexivity. }
    unfold up, upstreamRequest, isHttps. rewrite Hopts. simpl.
    repeat split.
    + intros p Hp Hne. rewrite Hp. unfold Js.or. simpl.
      apply String.eqb_neq in Hne. rewrite Hne. reflexivity.
    + intros Hp. rewrite Hp. reflexivity.
    + intros p Hp Hne. rewrite Hp.
      apply String.eqb_neq in Hne. rewrite Hne. reflexivity.
Qed.

Lemma collect_chunks : forall res chunks rest acc,
  collect res (List.map OnData chunks ++ OnClose :: rest) acc =
  Resolved {| resHeaders := imHeaders res;
              resStatusCode := imStatusCode res;
              resData := BodyBuffer (String.concat "" (acc ++ chunks)) |}.
Proof.
  intros res chunks. induction chunks as [|c chunks IH]; intros rest acc; simpl.
  - rewrite app_nil_r. reflexivity.
  - rewrite IH. rewrite <- app_assoc. reflexivity.
Qed.

Lemma collect_unclosed : forall res chunks acc,
  collect res (List.map OnData chunks) acc = Pending.
Proof.
  intros res chunks. induction chunks as [|c chunks IH]; intros acc; simpl;
    [reflexivity | apply IH].
Qed.

(** C9. The upstream request of an http or https fetch does not depend on
    the body of the inbound request, and nothing is written to it before it
    is ended.  When the upstream response emits its chunks and then closes,
    the fetch resolves to the headers and status of the response with the
    concatenation of all the chunks as its data; as long as the response has
    not closed, the fetch has not resolved. *)
Theorem http_fetch_body :
  forall o req,
    (forall b,
       upstreamRequest node toHttpHeaders o (withBody req b)
         = upstreamRequest node toHttpHeaders o req) /\
    written (upstreamRequest node toHttpHeaders o req) = [] /\
    (forall res chunks rest,
       http_request node (upstreamRequest node toHttpHeaders o req) = Some res ->
       imEvents res = List.map OnData chunks ++ OnClose :: rest ->
       getHttpResource node toHttpHeaders o req =
         Resolved {| resHeaders := imHeaders res;
                     resStatusCode := imStatusCode res;
                     resData := BodyBuffer (String.concat "" chunks) |}) /\
    (forall res chunks,
       http_request node (upstreamRequest node toHttpHeaders o req) = Some res ->
       imEvents res = List.map OnData chunks ->
       getHttpResource node toHttpHeaders o req = Pending).
Proof.
  intros o req. split; [| split; [| split]].
  - intros b. reflexivity.
  - reflexivity.
  - intros res chunks rest Hres Hev. unfold getHttpResource.
    rewrite Hres, Hev. apply collect_chunks.
  - intros res chunks Hres Hev. unfold getHttpResource.
    rewrite Hres, Hev. apply collect_unclosed.
Qed.

(** ** Classifying a failed fetch *)

(** A fetch that resolved is turned into a response and nothing else. *)
Lemma retrieve_resolved : forall o ev r,
  getResource node toHttpHeaders o (request ev) = Resolved r ->
  retrieve node toHttpHeaders o ev = Resolved (toResponse r).
Proof. intros o ev r H. unfold retrieve. rewrite H. reflexivity. Qed.

(** Whatever the error, the [catch] block of [retrieve] does not resolve to
    the bare 404 response: it resolves to a 500 response that carries the
    message of the error, or it rejects. *)
Lemma classify_cases : forall err,
  classify node err =
  match boom_notFound node with
  | OrdinaryFunction =>
      Resolved (mkResponse "500" (Some (errMessage err)) None None None)
  | StaticMethod =>
      Rejected (ErrTypeError
        "Function has non-object prototype 'undefined' in instanceof check")
  end.
Proof.
  intros err. unfold classify, instanceofFactory.
  destruct (boom_notFound node); reflexivity.
Qed.

(** C5, evaluated on the code. A fetch against an origin of kind none rejects
    with [Boom.notFound()], and [retrieve] does not turn this into the 404
    response: it resolves to a 500 response with description "Not Found" when
    [Boom.notFound] is an ordinary function, and rejects with the [TypeError]
    of the [instanceof] test when it is a static method. *)
Theorem kind_none_fetch_is_not_classified_404 :
  forall o ev,
    type o = noop ->
    getResource node toHttpHeaders o (request ev) = Rejected Boom_notFound /\
    retrieve node toHttpHeaders o ev =
      match boom_notFound node with
      | OrdinaryFunction =>
          Resolved (mkResponse "500" (Some "Not Found") None None None)
      | StaticMethod =>
          Rejected (ErrTypeError
            "Function has non-object prototype 'undefined' in instanceof check")
      end /\
    retrieve node toHttpHeaders o ev
      <> Resolved (mkResponse "404" None None None None).
Proof.
  intros o ev Hk.
  assert (Hg : getResource node toHttpHeaders o (request ev) = Rejected Boom_notFound).
  { unfold getResource. rewrite Hk. reflexivity. }
  assert (Hr : retrieve node toHttpHeaders o ev = classify node Boom_notFound).
  { unfold retrieve. rewrite Hg. reflexivity. }
  split; [exact Hg |].
  rewrite Hr, classify_cases. simpl.
  split; [reflexivity |].
  destruct (boom_notFound node); discriminate.
Qed.

End OriginProperties.

(* ================================================================== *)
(** * Properties of the router *)
(* ================================================================== *)

(** ** The order of a map *)

Lemma Dict_has_keys : forall (V : Type) (d : Dict.t V) k,
  Dict.has d k = existsb (fun k' => (k' =? k)%string) (Dict.keys d).
Proof.
  intros V d k. unfold Dict.has.
  induction d as [|[k' v] d IH]; simpl; [reflexivity |].
  destruct (k' =? k)%string; [reflexivity | exact IH].
Qed.

Lemma Dict_keys_set : forall (V : Type) (d : Dict.t V) k v,
  Dict.keys (Dict.set d k v) =
  if Dict.has d k then Dict.keys d else Dict.keys d ++ [k].
Proof.
  intros V d k v. unfold Dict.has.
  induction d as [|[k' v'] d IH]; simpl; [reflexivity |].
  destruct (k' =? k)%string eqn:E; simpl; [reflexivity |].
  rewrite IH. destruct (Dict.get d k); reflexivity.
Qed.

Lemma Dict_has_set : forall (V : Type) (d : Dict.t V) k v,
  Dict.has (Dict.set d k v) k = true.
Proof. intros. unfold Dict.has. rewrite Dict_get_set_same. reflexivity. Qed.

Lemma Dict_in_set : forall (V : Type) (d : Dict.t V) k v k' v',
  In (k', v') (Dict.set d k v) -> (k', v') = (k, v) \/ In (k', v') d.
Proof.
  induction d as [|[k0 v0] d IH]; intros k v k' v' H; simpl in H.
  - destruct H as [H | []]. left. congruence.
  - destruct (k0 =? k)%string eqn:E; simpl in H.
    + apply String.eqb_eq in E. subst k0.
      destruct H as [H | H]; [left; congruence | right; right; exact H].
    + destruct H as [H | H]; [right; left; exact H |].
      destruct (IH _ _ _ _ H) as [H' | H']; [left; exact H' | right; right; exact H'].
Qed.

Lemma firstSeen_app : forall a b seen,
  firstSeen seen (a ++ b) = firstSeen (firstSeen seen a) b.
Proof.
  induction a as [|p a IH]; intros b seen; simpl; [reflexivity |].
  destruct (existsb (fun k => (k =? p)%string) seen); apply IH.
Qed.

(** ** The first match *)

Lemma firstMatch_some : forall behaviors pathname f,
  firstMatch behaviors pathname = Some f ->
  exists pre k post,
    behaviors = pre ++ (k, f) :: post /\
    regex f pathname = true /\
    (forall k' f', In (k', f') pre -> regex f' pathname = false).
Proof.
  induction behaviors as [|[k h] rest IH]; intros pathname f H; simpl in H;
    [discriminate H |].
  destruct (regex h pathname) eqn:E.
  - inversion H; subst. exists [], k, rest. repeat split; auto.
    intros k' f' [].
  - destruct (IH _ _ H) as (pre & k0 & post & -> & Hm & Hpre).
    exists ((k, h) :: pre), k0, post. repeat split; auto.
    intros k' f' [Hin | Hin]; [inversion Hin; subst; exact E | eauto].
Qed.

Lemma firstMatch_none : forall behaviors pathname,
  firstMatch behaviors pathname = None ->
  forall k f, In (k, f) behaviors -> regex f pathname = false.
Proof.
  induction behaviors as [|[k h] rest IH]; intros pathname H k' f' Hin;
    simpl in *; [contradiction |].
  destruct (regex h pathname) eqn:E; [discriminate H |].
  destruct Hin as [Hin | Hin]; [inversion Hin; subst; exact E | eauto].
Qed.

Section RouterProperties.

Variable node : Platform.
Variable toHttpHeaders : CloudFrontHeaders -> list (string * list string).
Variables Store CacheEntry : Type.
Variable retrieveFromCache : Store -> Event -> option CacheEntry.
Variable saveToCache : Store -> ResponseEvent -> Store.
Variable toResultResponse : CacheEntry -> Response.
Variable combineResult : Event -> ResponseResult -> ResponseEvent.
Variable purge : Store -> Store.
Variable globToRegExp : string -> Outcome (string -> bool).
Variable loadRequestHandler : string -> Outcome RequestHandler.
Variable loadResponseHandler : string -> Outcome ResponseHandler.
Variable convertToCloudFrontEvent : IncomingRequest -> Outcome Event.
Variable asHttpHeaders : option CloudFrontHeaders -> Outcome (list (string * Js.Val)).
Variable setHeaderError : ServerResponse -> string -> Js.Val -> option JsError.
Variable endError : ServerResponse -> Sent -> option JsError.
Variable serverless_path : string.
Variable opts : ServerlessOptions.
Variable context : Context.

Local Abbreviation ensure := (ensureBehavior node globToRegExp).
Local Abbreviation register :=
  (registerDef node globToRegExp loadRequestHandler loadResponseHandler
     serverless_path).
Local Abbreviation registerEvery :=
  (registerAll node globToRegExp loadRequestHandler loadResponseHandler
     serverless_path).
Local Abbreviation extract :=
  (extractBehaviors node globToRegExp loadRequestHandler loadResponseHandler
     serverless_path).

Local Abbreviation wellKeyed := (wellKeyed globToRegExp).

Lemma newFunctionSet_resolved : forall p o f,
  newFunctionSet node globToRegExp p o = Resolved f ->
  pattern f = p /\ globToRegExp p = Resolved (regex f).
Proof.
  intros p o f H. unfold newFunctionSet in H.
  destruct (globToRegExp p) as [re|e|]; inversion H; subst. simpl. auto.
Qed.

Lemma setHandler_resolved : forall f eventType path f',
  setHandler loadRequestHandler loadResponseHandler f eventType path = Resolved f' ->
  pattern f' = pattern f /\ regex f' = regex f /\ fnOrigin f' = fnOrigin f.
Proof.
  intros f eventType path f' H. unfold setHandler in H.
  repeat match type of H with
         | (if ?b then _ else _) = _ => destruct b
         end;
    try (destruct (loadRequestHandler path); inversion H; subst; simpl; auto);
    try (destruct (loadResponseHandler path); inversion H; subst; simpl; auto).
Qed.

Lemma ensureBehavior_resolved : forall origins behaviors p behaviors',
  ensure origins behaviors p = Resolved behaviors' ->
  wellKeyed behaviors ->
  wellKeyed behaviors' /\
  Dict.has behaviors' p = true /\
  Dict.keys behaviors' = firstSeen (Dict.keys behaviors) [p].
Proof.
  intros origins behaviors p behaviors' H Hwf. unfold ensureBehavior in H.
  simpl. rewrite <- Dict_has_keys.
  destruct (Dict.has behaviors p) eqn:Hhas.
  - inversion H; subst. auto.
  - destruct (newFunctionSet node globToRegExp p (Dict.get origins p))
      as [f|e|] eqn:Hf; inversion H; subst; clear H.
    split; [| split].
    + intros k f' Hin. apply Dict_in_set in Hin. destruct Hin as [Hin | Hin].
      * inversion Hin; subst. eapply newFunctionSet_resolved; eassumption.
      * apply Hwf; exact Hin.
    + apply Dict_has_set.
    + rewrite Dict_keys_set, Hhas. reflexivity.
Qed.

Lemma Dict_get_in : forall (V : Type) (d : Dict.t V) k v,
  Dict.get d k = Some v -> In (k, v) d.
Proof.
  induction d as [|[k' v'] d IH]; intros k v H; simpl in H; [discriminate H |].
  destruct (k' =? k)%string eqn:E.
  - apply String.eqb_eq in E. inversion H; subst. left. reflexivity.
  - right. apply IH. exact H.
Qed.

Lemma registerDef_resolved : forall origins behaviors def behaviors',
  register origins behaviors def = Resolved behaviors' ->
  wellKeyed behaviors ->
  wellKeyed behaviors' /\
  Dict.keys behaviors' = firstSeen (Dict.keys behaviors) [patternOf def].
Proof.
  intros origins behaviors def behaviors' H Hwf. unfold registerDef in H.
  destruct (ensure origins behaviors (patternOf def)) as [b1|e|] eqn:He;
    try discriminate H.
  destruct (@ensureBehavior_resolved _ _ _ _ He Hwf) as (Hwf1 & Hhas1 & Hkeys1).
  destruct (Dict.get b1 (patternOf def)) as [fnSet|] eqn:Hg; [| discriminate H].
  destruct (negb (eventTypeOf def =? "")%string).
  - destruct (setHandler loadRequestHandler loadResponseHandler fnSet
                (eventTypeOf def) (path_join node serverless_path (handler def)))
      as [f'|e|] eqn:Hs; inversion H; subst; clear H.
    destruct (@setHandler_resolved _ _ _ _ Hs) as (Hp & Hr & _).
    apply Dict_get_in in Hg. destruct (Hwf1 _ _ Hg) as (Hp1 & Hr1).
    split.
    + intros k f Hin. apply Dict_in_set in Hin. destruct Hin as [Hin | Hin].
      * inversion Hin; subst. split; congruence.
      * apply Hwf1; exact Hin.
    + rewrite Dict_keys_set, Hhas1. exact Hkeys1.
  - inversion H; subst. auto.
Qed.

Lemma registerAll_resolved : forall origins defs behaviors behaviors',
  registerEvery origins behaviors defs = Resolved behaviors' ->
  wellKeyed behaviors ->
  wellKeyed behaviors' /\
  Dict.keys behaviors' = firstSeen (Dict.keys behaviors) (List.map patternOf defs).
Proof.
  intros origins defs. induction defs as [|def defs IH];
    intros behaviors behaviors' H Hwf; simpl in H.
  - inversion H; subst. auto.
  - destruct (register origins behaviors def) as [b1|e|] eqn:Hr;
      try discriminate H.
    destruct (@registerDef_resolved _ _ _ _ Hr Hwf) as (Hwf1 & Hk1).
    destruct (IH _ _ H Hwf1) as (Hwf' & Hk').
    split; [exact Hwf' |].
    rewrite Hk', Hk1.
    change (List.map patternOf (def :: defs))
      with ([patternOf def] ++ List.map patternOf defs).
    rewrite firstSeen_app. reflexivity.
Qed.

(** What [extractBehaviors] leaves in the map: one FunctionSet per pattern, in
    the order the patterns were first registered, with ["*"] present. *)
Lemma extractBehaviors_resolved : forall origins functions behaviors,
  extract origins functions = Resolved behaviors ->
  wellKeyed behaviors /\
  Dict.has behaviors "*" = true /\
  Dict.keys behaviors =
    firstSeen []
      (List.map patternOf (filter isLambdaDef (Dict.values functions)) ++ ["*"]).
Proof.
  intros origins functions behaviors H. unfold extractBehaviors in H.
  destruct (registerEvery origins [] (filter isLambdaDef (Dict.values functions)))
    as [b1|e|] eqn:Hr; try discriminate H.
  assert (Hwf0 : wellKeyed []) by (intros k f []).
  destruct (@registerAll_resolved _ _ _ _ Hr Hwf0) as (Hwf1 & Hk1).
  destruct (@ensureBehavior_resolved _ _ _ _ H Hwf1) as (Hwf & Hhas & Hk).
  split; [exact Hwf |]. split; [exact Hhas |].
  rewrite Hk, Hk1, firstSeen_app. reflexivity.
Qed.

(** C6, as the code has it. On the registry [extractBehaviors] built, for a
    request whose url is present, not empty and well formed, [match] returns
    a FunctionSet and never null: the one of the first pattern, in the order
    the patterns were first registered, whose expression accepts the path of
    the url, and the one of ["*"] when no expression accepts it. *)
Theorem match_on_constructed_registry :
  forall origins functions behaviors req url pathname,
    extract origins functions = Resolved behaviors ->
    reqUrl req = Some url ->
    url <> "" ->
    URL_pathname node url = Resolved pathname ->
    Dict.keys behaviors =
      firstSeen []
        (List.map patternOf (filter isLambdaDef (Dict.values functions)) ++ ["*"]) /\
    (forall k f, In (k, f) behaviors ->
       pattern f = k /\ globToRegExp k = Resolved (regex f)) /\
    exists f,
      match_ node behaviors req = Resolved (Some f) /\
      ((exists pre k post,
           behaviors = pre ++ (k, f) :: post /\
           regex f pathname = true /\
           (forall k' f', In (k', f') pre -> regex f' pathname = false))
       \/
       ((forall k' f', In (k', f') behaviors -> regex f' pathname = false) /\
        Dict.get behaviors "*" = Some f)).
Proof.
  intros origins functions behaviors req url pathname He Hu Hne Hp.
  destruct (@extractBehaviors_resolved _ _ _ He) as (Hwf & Hhas & Hk).
  split; [exact Hk |]. split; [exact Hwf |].
  unfold match_. rewrite Hu.
  apply String.eqb_neq in Hne. rewrite Hne, Hp.
  destruct (firstMatch behaviors pathname) as [f|] eqn:Hm.
  - exists f. split; [reflexivity |]. left. apply firstMatch_some. exact Hm.
  - unfold Dict.has in Hhas.
    destruct (Dict.get behaviors "*") as [f|] eqn:Hg; [| discriminate Hhas].
    exists f. split; [reflexivity |]. right.
    split; [apply firstMatch_none; exact Hm | reflexivity].
Qed.

(** A request without a url is answered with null by the guard [match]
    starts with, whatever the registry holds. *)
Lemma match_without_url : forall behaviors req,
  reqUrl req = None \/ reqUrl req = Some "" ->
  match_ node behaviors req = Resolved None.
Proof.
  intros behaviors req [H | H]; unfold match_; rewrite H; reflexivity.
Qed.

(** ** The listener *)

Local Abbreviation handleRequest :=
  (requestHandler node toHttpHeaders retrieveFromCache saveToCache
     toResultResponse combineResult purge convertToCloudFrontEvent
     asHttpHeaders setHeaderError endError opts context).
Local Abbreviation lifecycleOf :=
  (runLifecycle node toHttpHeaders retrieveFromCache saveToCache
     toResultResponse combineResult opts context).

(** C10. When the lifecycle's [run] rejects, the request handler resolves all
    the same.  For an error that is not a Boom error it leaves the response
    exactly as it found it: no status, no header and no body is written, and
    the response is not ended.  For a Boom error it sets the status code and
    the status message from the error's output and ends the response with the
    error's message.  The lifecycle is the one built for the event [ev] the
    request was converted to. *)
Theorem run_rejection_in_listener :
  forall behaviors req res st handler ev err s,
    (Js.toUpperCase (match reqMethod req with Some m => m | None => "" end)
       =? "PURGE")%string = false ->
    match_ node behaviors req = Resolved (Some handler) ->
    convertToCloudFrontEvent req = Resolved ev ->
    lifecycleOf handler ev
      (match reqUrl req with Some u => u | None => "" end) st
      = (Rejected err, s) ->
    (isBoom err = false ->
       handleRequest behaviors req res st = (Resolved tt, res, store s)) /\
    (forall code error message,
       err = ErrBoom code error message ->
       handleRequest behaviors req res st =
         (Resolved tt,
          {| statusCode := Js.VNum code;
             statusMessage := error;
             sentHeaders := sentHeaders res;
             ended := Some (mkSent (Some (BodyString message)) None) |},
          store s)).
Proof.
  intros behaviors req res st handler ev err s Hm Hmatch Hconv Hrun.
  split.
  - intros Hb. unfold requestHandler. rewrite Hm, Hmatch, Hconv.
    fold lifecycleOf. rewrite Hrun. simpl. rewrite Hb. reflexivity.
  - intros code error message ->. unfold requestHandler.
    rewrite Hm, Hmatch, Hconv. fold lifecycleOf. rewrite Hrun. reflexivity.
Qed.

End RouterProperties.

(* ================================================================== *)
(** * The origin and the router on the concrete distribution *)
(* ================================================================== *)

Section OnFixture.

Import Fixture.

Local Abbreviation platform := (node OrdinaryFunction).

(** A request that carries a custom origin. *)
Local Abbreviation viaCustom :=
  (withOrigin (eventOf (get "/a"))
     (Some (OriginCustom [("protocol", Js.VStr "https");
                          ("domainName", Js.VStr "edge.test");
                          ("port", Js.VNum 8443)]))).

Lemma origin_construction_witness :
  let o := newOrigin platform (Some "https://secure.test")
             (Some [("port", Js.VNum 0); ("readTimeout", Js.VNum 9)]) in
  type o = https /\
  baseUrl o = "https://secure.test" /\
  type (newOrigin platform (Some "") None) = noop /\
  type (newOrigin platform (Some "http://origin.test:8080") None) = http /\
  (type (newOrigin platform (Some "site") None) = file /\
   baseUrl (newOrigin platform (Some "site") None) = "/srv/site") /\
  exists c',
    customOrigin o = Some c' /\
    Js.get c' "domainName" = Js.VStr "secure.test" /\
    Js.get c' "protocol" = Js.VStr "https" /\
    Js.get c' "port" = Js.VNull /\
    Js.get c' "readTimeout" = Js.VNum 9.
Proof.
  cbv zeta.
  destruct (origin_construction platform (Some "https://secure.test")
              (Some [("port", Js.VNum 0); ("readTimeout", Js.VNum 9)]))
    as (_ & _ & Hhttps & _ & _ & Hcustom & _).
  destruct (Hhttps eq_refl) as [Hty Hbase].
  split; [exact Hty |]. split; [exact Hbase |].
  split.
  { destruct (origin_construction platform (Some "") None) as (H & _).
    apply H. reflexivity. }
  split.
  { destruct (origin_construction platform (Some "http://origin.test:8080") None)
      as (_ & H & _).
    apply H. reflexivity. }
  split.
  { destruct (origin_construction platform (Some "site") None)
      as (_ & _ & _ & H & _).
    apply H; [discriminate | reflexivity | reflexivity]. }
  destruct (Hcustom _ eq_refl) as (c' & Hc & Hd & Hp & Hport & Hother).
  exists c'. split; [exact Hc |].
  split; [exact Hd |]. split; [exact Hp |]. split; [exact Hport |].
  apply Hother; discriminate.
Defined.

Lemma http_fetch_target_witness :
  let own := upstreamRequest platform toHttpHeaders httpOrigin (get "/a") in
  let custom := upstreamRequest platform toHttpHeaders httpOrigin (request viaCustom) in
  (optProtocol (options own) = Some "http:" /\
   optHostname (options own) = Js.VStr "origin.test" /\
   optPort (options own) = Js.VStr "8080" /\
   viaHttps own = false) /\
  (optProtocol (options custom) = Some "https:" /\
   optHostname (options custom) = Js.VStr "edge.test" /\
   optPort (options custom) = Js.VNum 8443 /\
   viaHttps custom = true).
Proof.
  cbv zeta. split.
  - destruct (http_fetch_target platform toHttpHeaders httpOrigin (get "/a"))
      as (_ & Hown & _).
    destruct Hown as (Hp & Hh & Hport & _ & Hvia).
    { intros custom H. discriminate H. }
    split; [exact Hp |]. split; [exact Hh |].
    split; [apply Hport; [reflexivity | discriminate] |].
    apply (Hvia "http:"); [reflexivity | discriminate].
  - destruct (http_fetch_target platform toHttpHeaders httpOrigin (request viaCustom))
      as (Hcustom & _).
    destruct (Hcustom _ eq_refl) as (Hp & Hh & Hport & _ & Hvia).
    split; [exact Hp |]. split; [exact Hh |].
    split; [apply Hport; reflexivity | exact Hvia].
Defined.

Lemma http_fetch_body_witness :
  upstreamRequest platform toHttpHeaders httpOrigin (post "/a" "payload")
    = upstreamRequest platform toHttpHeaders httpOrigin (withBody (post "/a" "payload") None) /\
  written (upstreamRequest platform toHttpHeaders httpOrigin (post "/a" "payload")) = [] /\
  getHttpResource platform toHttpHeaders httpOrigin (post "/a" "payload") =
    Resolved {| resHeaders := imHeaders upstream;
                resStatusCode := imStatusCode upstream;
                resData := BodyBuffer "hello" |}.
Proof.
  destruct (http_fetch_body platform toHttpHeaders httpOrigin (post "/a" "payload"))
    as (Hb & Hw & Hclosed & _).
  split; [symmetry; apply Hb |]. split; [exact Hw |].
  apply (Hclosed upstream ["hel"; "lo"] []); reflexivity.
Defined.

Lemma kind_none_fetch_is_not_classified_404_witness :
  type (noOrigin OrdinaryFunction) = noop /\
  retrieve (node OrdinaryFunction) toHttpHeaders (noOrigin OrdinaryFunction)
      (eventOf (get "/a"))
    = Resolved (mkResponse "500" (Some "Not Found") None None None) /\
  retrieve (node StaticMethod) toHttpHeaders (noOrigin StaticMethod)
      (eventOf (get "/a"))
    = Rejected (ErrTypeError
        "Function has non-object prototype 'undefined' in instanceof check").
Proof.
  split; [reflexivity |]. split.
  - apply (kind_none_fetch_is_not_classified_404 (node OrdinaryFunction)
             toHttpHeaders (noOrigin OrdinaryFunction) (eventOf (get "/a"))
             eq_refl).
  - apply (kind_none_fetch_is_not_classified_404 (node StaticMethod)
             toHttpHeaders (noOrigin StaticMethod) (eventOf (get "/a"))
             eq_refl).
Defined.

(** The registry of the fixture, as a map. *)
Local Abbreviation constructed :=
  (match registry with
   | Resolved behaviors => behaviors
   | _ => []
   end).

Lemma match_on_constructed_registry_witness :
  registry = Resolved constructed /\
  Dict.keys constructed = ["/api/*"; "*"] /\
  (exists f, match_ platform constructed (inbound "GET" (Some "/api/x"))
               = Resolved (Some f) /\ pattern f = "/api/*") /\
  (exists f, match_ platform constructed (inbound "GET" (Some "/other"))
               = Resolved (Some f) /\ pattern f = "*").
Proof.
  assert (Hreg : registry = Resolved constructed) by (vm_compute; reflexivity).
  split; [exact Hreg |].
  assert (Hne : forall s, String "/" s <> "") by (intros s H; discriminate H).
  pose proof (match_on_constructed_registry platform globToRegExp
                loadRequestHandler loadResponseHandler "src"
                (configureOrigins platform originMap) functions
                (behaviors := constructed)
                (inbound "GET" (Some "/api/x")) (url := "/api/x")
                (pathname := "/api/x") Hreg eq_refl (Hne _) eq_refl) as Hapi.
  pose proof (match_on_constructed_registry platform globToRegExp
                loadRequestHandler loadResponseHandler "src"
                (configureOrigins platform originMap) functions
                (behaviors := constructed)
                (inbound "GET" (Some "/other")) (url := "/other")
                (pathname := "/other") Hreg eq_refl (Hne _) eq_refl) as Hother.
  destruct Hapi as (Hkeys & _ & f & Hm & _).
  destruct Hother as (_ & _ & g & Hg & _).
  split; [exact (eq_trans Hkeys eq_refl) |].
  split.
  - exists f. split; [exact Hm |].
    vm_compute in Hm. inversion Hm. reflexivity.
  - exists g. split; [exact Hg |].
    vm_compute in Hg. inversion Hg. reflexivity.
Defined.

(** On the constructed registry, a request that has no url gets null. *)
Lemma match_returns_null_without_url :
  registry = Resolved constructed /\
  Dict.has constructed "*" = true /\
  match_ platform constructed (inbound "GET" None) = Resolved None /\
  ~ (exists f, match_ platform constructed (inbound "GET" None) = Resolved (Some f)).
Proof.
  split; [vm_compute; reflexivity |].
  split; [vm_compute; reflexivity |].
  split; [reflexivity |].
  intros (f & H). discriminate H.
Qed.

Lemma run_rejection_in_listener_witness :
  handle originFails (inbound "GET" (Some "/a")) = (Resolved tt, freshResponse, []) /\
  handle originForbids (inbound "GET" (Some "/a")) =
    (Resolved tt,
     {| statusCode := Js.VNum 403;
        statusMessage := "Forbidden";
        sentHeaders := [];
        ended := Some (mkSent (Some (BodyString "not for you")) None) |},
     []).
Proof.
  split.
  - destruct (run_rejection_in_listener platform toHttpHeaders retrieveFromCache
                saveToCache toResultResponse combineResult purge
                convertToCloudFrontEvent asHttpHeaders setHeaderError endError
                cacheOn ctx
                [("*", originFails)] (inbound "GET" (Some "/a")) freshResponse []
                (handler := originFails)
                (ev := converted (inbound "GET" (Some "/a")))
                (err := ErrOther "boom?")
                (s := snd (runLifecycle platform toHttpHeaders retrieveFromCache
                             saveToCache toResultResponse combineResult cacheOn ctx
                             originFails
                             (converted (inbound "GET" (Some "/a")))
                             "/a" [])))
      as (H & _);
      [reflexivity | reflexivity | reflexivity | vm_compute; reflexivity |].
    apply H. reflexivity.
  - destruct (run_rejection_in_listener platform toHttpHeaders retrieveFromCache
                saveToCache toResultResponse combineResult purge
                convertToCloudFrontEvent asHttpHeaders setHeaderError endError
                cacheOn ctx
                [("*", originForbids)] (inbound "GET" (Some "/a")) freshResponse []
                (handler := originForbids)
                (ev := converted (inbound "GET" (Some "/a")))
                (err := ErrBoom 403 "Forbidden" "not for you")
                (s := snd (runLifecycle platform toHttpHeaders retrieveFromCache
                             saveToCache toResultResponse combineResult cacheOn ctx
                             originForbids
                             (converted (inbound "GET" (Some "/a")))
                             "/a" [])))
      as (_ & H);
      [reflexivity | reflexivity | reflexivity | vm_compute; reflexivity |].
    apply (H 403 "Forbidden" "not for you"). reflexivity.
Defined.

End OnFixture.

(* ================================================================== *)
(** * More on the origin *)
(* ================================================================== *)

(** ** Objects without repeated properties *)

Lemma existsb_eqb_false : forall (keys : list string) k,
  existsb (fun k' => (k' =? k)%string) keys = false <-> ~ In k keys.
Proof.
  induction keys as [|k0 keys IH]; intros k; simpl.
  - split; [intros _ [] | reflexivity].
  - destruct (k0 =? k)%string eqn:E; simpl.
    + apply String.eqb_eq in E. split; [discriminate | intros H; exfalso; auto].
    + apply String.eqb_neq in E. rewrite IH. split.
      * intros H [H' | H']; [contradiction | auto].
      * intros H H'. apply H. right. exact H'.
Qed.

Lemma Dict_has_false : forall (V : Type) (d : Dict.t V) k,
  Dict.has d k = false <-> ~ In k (Dict.keys d).
Proof. intros V d k. rewrite Dict_has_keys. apply existsb_eqb_false. Qed.

Lemma Dict_has_true : forall (V : Type) (d : Dict.t V) k,
  Dict.has d k = true <-> In k (Dict.keys d).
Proof.
  intros V d k. destruct (Dict.has d k) eqn:E.
  - split; [intros _ | reflexivity].
    destruct (in_dec string_dec k (Dict.keys d)) as [H | H]; [exact H |].
    apply Dict_has_false in H. congruence.
  - apply Dict_has_false in E. split; [discriminate | contradiction].
Qed.

Lemma Dict_set_NoDup : forall (V : Type) (d : Dict.t V) k v,
  NoDup (Dict.keys d) -> NoDup (Dict.keys (Dict.set d k v)).
Proof.
  intros V d k v H. rewrite Dict_keys_set.
  destruct (Dict.has d k) eqn:E; [exact H |].
  apply Dict_has_false in E.
  apply NoDup_app; [exact H | repeat constructor; intros [] |].
  intros x Hx [Hk | []]. subst x. contradiction.
Qed.

Lemma Dict_has_set_mono : forall (V : Type) (d : Dict.t V) k k' v,
  Dict.has d k = true -> Dict.has (Dict.set d k' v) k = true.
Proof.
  intros V d k k' v H. apply Dict_has_true. apply Dict_has_true in H.
  rewrite Dict_keys_set. destruct (Dict.has d k'); [exact H |].
  apply in_or_app. left. exact H.
Qed.

Lemma Js_get_defined : forall (o : Js.Obj) k,
  Js.get o k <> Js.VUndefined -> Dict.has o k = true.
Proof.
  intros o k H. unfold Js.get in H. unfold Dict.has.
  destruct (Dict.get o k); [reflexivity | contradiction].
Qed.

(** [{...a, ...b}[k]] is [b[k]] when [b] has the property and [a[k]]
    otherwise. *)
Lemma Js_get_spread : forall (b a : Js.Obj) k,
  NoDup (Dict.keys b) ->
  Js.get (Js.spread a b) k = if Dict.has b k then Js.get b k else Js.get a k.
Proof.
  induction b as [|[k0 v0] b IH]; intros a k Hnd; [reflexivity |].
  simpl in Hnd. inversion Hnd as [|? ? Hnotin Hnd']; subst.
  change (Js.spread a ((k0, v0) :: b)) with (Js.spread (Js.set a k0 v0) b).
  rewrite (IH _ _ Hnd').
  unfold Dict.has, Js.get. simpl.
  destruct (k0 =? k)%string eqn:E.
  - apply String.eqb_eq in E. subst k0.
    apply Dict_has_false in Hnotin. unfold Dict.has in Hnotin.
    destruct (Dict.get b k); [discriminate Hnotin |].
    unfold Js.set. rewrite Dict_get_set_same. reflexivity.
  - apply String.eqb_neq in E.
    destruct (Dict.get b k); [reflexivity |].
    unfold Js.set. rewrite Dict_get_set_other by exact E. reflexivity.
Qed.

(** ** Strings that end in a colon *)

Lemma substring_before_colon : forall q,
  exists n,
    String.length (q ++ ":") = S n /\ String.substring 0 n (q ++ ":") = q.
Proof.
  induction q as [|a q (n & L & E)].
  - exists 0%nat. split; reflexivity.
  - exists (S n). split; simpl; [rewrite L | rewrite E]; reflexivity.
Qed.

Lemma dropLast_colon : forall q, Js.dropLast (q ++ ":") = q.
Proof.
  intros q. unfold Js.dropLast.
  destruct (substring_before_colon q) as (n & L & E).
  rewrite L. replace (S n - 1)%nat with n by lia. exact E.
Qed.

Lemma eqb_colon : forall a b, ((a ++ ":") =? (b ++ ":"))%string = (a =? b)%string.
Proof.
  induction a as [|x a IH]; intros [|y b]; simpl.
  - reflexivity.
  - destruct b; simpl; apply andb_false_r.
  - destruct a; simpl; apply andb_false_r.
  - rewrite IH. reflexivity.
Qed.

Section OriginExtras.

Variable node : Platform.
Variable toHttpHeaders : CloudFrontHeaders -> list (string * list string).

(** ** The headers of a retrieved response *)

Local Abbreviation converted l h0 :=
  (fold_left (fun h kv => addHeader h (fst kv) (snd kv)) l h0).

Lemma addHeader_NoDup : forall h key v,
  NoDup (Dict.keys h) -> NoDup (Dict.keys (addHeader h key v)).
Proof.
  intros h key v H. unfold addHeader.
  destruct (negb (key =? "")%string); [apply Dict_set_NoDup |]; exact H.
Qed.

Lemma converted_NoDup : forall (l : Js.Obj) h0,
  NoDup (Dict.keys h0) -> NoDup (Dict.keys (converted l h0)).
Proof.
  induction l as [|[key v] l IH]; intros h0 H; simpl; [exact H |].
  apply IH, addHeader_NoDup, H.
Qed.

Lemma converted_entries : forall (l : Js.Obj) h0 k es,
  In (k, es) (converted l h0) ->
  In (k, es) h0 \/
  exists key v,
    In (key, v) l /\ key <> "" /\ k = Js.toLowerCase key /\
    es = [mkHeaderEntry key (if Js.truthy v then Js.toString v else "")].
Proof.
  induction l as [|[key v] l IH]; intros h0 k es H; simpl in H; [left; exact H |].
  destruct (IH _ _ _ H) as [H0 | (key' & v' & Hin & Hne & Hk & Hes)].
  - unfold addHeader in H0. simpl in H0.
    destruct (key =? "")%string eqn:E; simpl in H0; [left; exact H0 |].
    apply Dict_in_set in H0. destruct H0 as [H0 | H0]; [| left; exact H0].
    inversion H0; subst. right. exists key, v.
    apply String.eqb_neq in E. repeat split; auto. left. reflexivity.
  - right. exists key', v'. repeat split; auto. right. exact Hin.
Qed.

Lemma converted_has : forall (l : Js.Obj) h0 k,
  Dict.has h0 k = true -> Dict.has (converted l h0) k = true.
Proof.
  induction l as [|[key v] l IH]; intros h0 k H; simpl; [exact H |].
  apply IH. unfold addHeader.
  destruct (negb (key =? "")%string); [apply Dict_has_set_mono |]; exact H.
Qed.

Lemma converted_complete : forall (l : Js.Obj) h0 key v,
  In (key, v) l -> key <> "" ->
  Dict.has (converted l h0) (Js.toLowerCase key) = true.
Proof.
  induction l as [|[key0 v0] l IH]; intros h0 key v Hin Hne; simpl;
    [contradiction |].
  destruct Hin as [Hin | Hin].
  - inversion Hin; subst. apply converted_has. unfold addHeader. simpl.
    apply String.eqb_neq in Hne. rewrite Hne. simpl. apply Dict_has_set.
  - eapply IH; eassumption.
Qed.

(** The headers of the response [retrieve] builds from a resource: every
    header of the resource with a non-empty name is there under its
    lower-cased name, every entry is the single item [{ key, value }] made
    of the name as it was and the value as a string (the empty string for
    a falsy value), and no lower-cased name occurs twice. *)
Theorem retrieved_headers :
  forall r,
    exists h,
      respHeaders (toResponse r) = Some h /\
      NoDup (Dict.keys h) /\
      (forall k es,
         In (k, es) h ->
         exists key v,
           In (key, v) (resHeaders r) /\ key <> "" /\
           k = Js.toLowerCase key /\
           es = [mkHeaderEntry key (if Js.truthy v then Js.toString v else "")]) /\
      (forall key v,
         In (key, v) (resHeaders r) -> key <> "" ->
         Dict.has h (Js.toLowerCase key) = true).
Proof.
  intros r. exists (converted (resHeaders r) []).
  split; [reflexivity |]. split; [apply converted_NoDup; constructor |].
  split.
  - intros k es H. destruct (converted_entries _ _ _ _ H) as [[] | H']; exact H'.
  - intros key v. apply converted_complete.
Qed.

(** ** Fetching a file *)

(** A fetch against an origin constructed from a target that is neither
    empty nor an http or https url reads the file named by the resolved
    target, a slash and the path of the request's uri.  When the file is
    read, [retrieve] resolves to a response with status ["0"], no header,
    encoding [text] and the content as body; when reading fails, the error
    goes through the [catch] block of [retrieve]. *)
Theorem file_origin_fetch :
  forall t custom ev,
    t <> "" ->
    Js.startsWith t "http://" = false ->
    Js.startsWith t "https://" = false ->
    let o := newOrigin node (Some t) custom in
    let name :=
      (path_resolve node t ++ "/" ++
       Js.toString (Js.ofNullable (pathname (url_parse node (uri (request ev))))))%string in
    (forall content,
       fs_readFile node name = Resolved content ->
       retrieve node toHttpHeaders o ev =
         Resolved (mkResponse "0" (Some "") (Some []) (Some "text")
                     (Some (BodyString content)))) /\
    (forall err,
       fs_readFile node name = Rejected err ->
       retrieve node toHttpHeaders o ev = classify node err).
Proof.
  intros t custom ev Hne H1 H2 o name.
  assert (Ho : type o = file /\ baseUrl o = path_resolve node t).
  { unfold o, newOrigin. apply String.eqb_neq in Hne. rewrite Hne, H1, H2.
    simpl. auto. }
  destruct Ho as [Hty Hbase].
  split.
  - intros content Hr. unfold retrieve, getResource, getFileResource.
    rewrite Hty, Hbase. fold name. rewrite Hr. reflexivity.
  - intros err Hr. unfold retrieve, getResource, getFileResource.
    rewrite Hty, Hbase. fold name. rewrite Hr. reflexivity.
Qed.

(** ** Fetching over http *)

(** Whatever status the upstream answers with, a response that closes is a
    fetch that resolved: [retrieve] resolves to a response whose status is
    that status code in decimal ("0" when the upstream gave none) and whose
    body is the buffer of all chunks; it is not classified as a failure. *)
Theorem upstream_status_is_passed_on :
  forall o ev res chunks rest,
    type o = http \/ type o = https ->
    http_request node (upstreamRequest node toHttpHeaders o (request ev)) = Some res ->
    imEvents res = List.map OnData chunks ++ OnClose :: rest ->
    exists r,
      retrieve node toHttpHeaders o ev = Resolved r /\
      status r = Js.string_of_Z (match imStatusCode res with
                                 | Some c => c
                                 | None => 0
                                 end) /\
      statusDescription r = Some "" /\
      bodyEncoding r = Some "text" /\
      respBody r = Some (BodyBuffer (String.concat "" chunks)).
Proof.
  intros o ev res chunks rest Hty Hres Hev.
  assert (Hg : getResource node toHttpHeaders o (request ev) =
               Resolved {| resHeaders := imHeaders res;
                           resStatusCode := imStatusCode res;
                           resData := BodyBuffer (String.concat "" chunks) |}).
  { unfold getResource, getHttpResource.
    destruct Hty as [-> | ->]; rewrite Hres, Hev; apply collect_chunks. }
  eexists. split; [apply retrieve_resolved; exact Hg |].
  simpl. repeat split; reflexivity.
Qed.

Lemma collect_error : forall res chunks err rest acc,
  collect res (List.map OnData chunks ++ OnError err :: rest) acc = Rejected err.
Proof.
  intros res chunks err rest. induction chunks as [|c chunks IH]; intros acc;
    simpl; [reflexivity | apply IH].
Qed.

(** An error of the upstream response stream rejects the fetch with that
    error, whatever chunks arrived before it and whatever the stream emits
    after it, a close included; [retrieve] hands it to its [catch] block. *)
Theorem upstream_stream_error :
  forall o ev res chunks err rest,
    type o = http \/ type o = https ->
    http_request node (upstreamRequest node toHttpHeaders o (request ev)) = Some res ->
    imEvents res = List.map OnData chunks ++ OnError err :: rest ->
    getHttpResource node toHttpHeaders o (request ev) = Rejected err /\
    retrieve node toHttpHeaders o ev = classify node err.
Proof.
  intros o ev res chunks err rest Hty Hres Hev.
  assert (Hg : getHttpResource node toHttpHeaders o (request ev) = Rejected err).
  { unfold getHttpResource. rewrite Hres, Hev. apply collect_error. }
  split; [exact Hg |].
  unfold retrieve, getResource. destruct Hty as [-> | ->]; rewrite Hg; reflexivity.
Qed.

(** The upstream request always carries [connection: Close], whatever the
    inbound headers and the custom headers say about [connection]; method
    and path are those of the inbound request.  Without a custom origin,
    every other header is the inbound one. *)
Theorem upstream_request_closes_connection :
  forall o req,
    let up := options (upstreamRequest node toHttpHeaders o req) in
    Js.get (optHeaders up) "connection" = Js.VStr "Close" /\
    optMethod up = method req /\
    optPath up = path (url_parse node (uri req)) /\
    ((forall custom, origin req <> Some (OriginCustom custom)) ->
     forall k, k <> "connection" ->
       Js.get (optHeaders up) k
         = Js.get (outgoingHeaders toHttpHeaders (headers req)) k).
Proof.
  intros o req up. unfold up, upstreamRequest, requestOptions. simpl.
  destruct (origin req) as [[custom | s3] |] eqn:Ho; simpl;
    (split; [apply Js_get_set_same |]);
    (split; [reflexivity |]); (split; [reflexivity |]).
  - intros Hn. exfalso. apply (Hn custom). reflexivity.
  - intros _ k Hk. apply Js_get_set_other. congruence.
  - intros _ k Hk. apply Js_get_set_other. congruence.
Qed.

(** ** The custom origin of a request *)

(** The defaults [onOriginRequest] starts the [custom] object from. *)
Local Abbreviation defaults u :=
  [ ("customHeaders", Js.VObj []);
    ("domainName", Js.VStr "");
    ("keepaliveTimeout", Js.VNum 5);
    ("path", Js.VStr "");
    ("port", Js.number (port u));
    ("protocol",
      Js.VStr (if Js.strictEqStr (Js.ofNullable (protocol u)) "https:"
               then "https" else "http"));
    ("readTimeout", Js.VNum 30);
    ("sslProtocols",
      Js.VArr [Js.VStr "TLSv1"; Js.VStr "TLSv1.1"; Js.VStr "TLSv1.2"]) ].

Lemma synthesizeCustom_other : forall c requestUri k,
  NoDup (Dict.keys c) ->
  k <> "domainName" ->
  Js.get (synthesizeCustom node c requestUri) k =
  if Dict.has c k then Js.get c k
  else Js.get (defaults (url_parse node requestUri)) k.
Proof.
  intros c requestUri k Hnd Hk. unfold synthesizeCustom.
  match goal with
  | |- Js.get (if ?b then _ else _) _ = _ => destruct b
  end.
  - rewrite Js_get_set_other by congruence. apply Js_get_spread, Hnd.
  - apply Js_get_spread, Hnd.
Qed.

Lemma synthesizeCustom_domainName : forall c requestUri,
  NoDup (Dict.keys c) ->
  Js.get (synthesizeCustom node c requestUri) "domainName" =
  if Js.truthy (Js.get c "domainName") then Js.get c "domainName"
  else Js.or (Js.ofNullable (hostname (url_parse node requestUri))) (Js.VStr "").
Proof.
  intros c requestUri Hnd. unfold synthesizeCustom.
  set (u := url_parse node requestUri).
  assert (Hs : Js.get (Js.spread (defaults u) c) "domainName" =
               if Dict.has c "domainName" then Js.get c "domainName"
               else Js.VStr "").
  { rewrite Js_get_spread by exact Hnd. reflexivity. }
  assert (Ht : Js.truthy (Js.get (Js.spread (defaults u) c) "domainName")
               = Js.truthy (Js.get c "domainName")).
  { rewrite Hs. unfold Dict.has, Js.get.
    destruct (Dict.get c "domainName"); reflexivity. }
  rewrite Ht. destruct (Js.truthy (Js.get c "domainName")) eqn:T; simpl.
  - rewrite Hs. rewrite (@Js_get_defined c "domainName"); [reflexivity |].
    intros E. rewrite E in T. discriminate T.
  - apply Js_get_set_same.
Qed.

(** The custom origin [onOriginRequest] attaches to the request, for a
    configuration without repeated properties: every property the
    configuration has, other than [domainName], is passed on as it is; a
    truthy [domainName] is passed on, otherwise the host of the request's uri
    or the empty string takes its place; the properties the configuration
    lacks get their defaults: [keepaliveTimeout] 5, [readTimeout] 30, an
    empty [path], and port and protocol of the request's uri ([http] unless
    the uri is an https one). *)
Theorem custom_origin_parameters :
  forall c requestUri,
    NoDup (Dict.keys c) ->
    let custom := synthesizeCustom node c requestUri in
    let u := url_parse node requestUri in
    (forall k, k <> "domainName" -> Dict.has c k = true ->
               Js.get custom k = Js.get c k) /\
    (Js.truthy (Js.get c "domainName") = true ->
     Js.get custom "domainName" = Js.get c "domainName") /\
    (Js.truthy (Js.get c "domainName") = false ->
     Js.get custom "domainName" = Js.or (Js.ofNullable (hostname u)) (Js.VStr "")) /\
    (Dict.has c "keepaliveTimeout" = false ->
     Js.get custom "keepaliveTimeout" = Js.VNum 5) /\
    (Dict.has c "readTimeout" = false -> Js.get custom "readTimeout" = Js.VNum 30) /\
    (Dict.has c "path" = false -> Js.get custom "path" = Js.VStr "") /\
    (Dict.has c "port" = false -> Js.get custom "port" = Js.number (port u)) /\
    (Dict.has c "protocol" = false ->
     Js.get custom "protocol" =
       Js.VStr (if Js.strictEqStr (Js.ofNullable (protocol u)) "https:"
                then "https" else "http")).
Proof.
  intros c requestUri Hnd custom u. unfold custom.
  split.
  { intros k Hk Hh. rewrite synthesizeCustom_other by assumption.
    rewrite Hh. reflexivity. }
  split.
  { intros T. rewrite synthesizeCustom_domainName by exact Hnd.
    rewrite T. reflexivity. }
  split.
  { intros T. rewrite synthesizeCustom_domainName by exact Hnd.
    rewrite T. reflexivity. }
  repeat split; intros Hh;
    (rewrite synthesizeCustom_other; [| exact Hnd | discriminate]);
    rewrite Hh; reflexivity.
Qed.

Lemma newOrigin_customOrigin : forall target c,
  customOrigin (newOrigin node target (Some c)) =
  Some (backfill node (baseUrl (newOrigin node target (Some c))) c).
Proof.
  intros target c. unfold newOrigin.
  repeat match goal with
         | |- context [if ?b then _ else _] => destruct b
         end; reflexivity.
Qed.

Lemma backfill_NoDup : forall base c,
  NoDup (Dict.keys c) -> NoDup (Dict.keys (backfill node base c)).
Proof.
  intros base c H. unfold backfill.
  repeat match goal with
         | |- context [if ?b then _ else _] => destruct b
         | |- context [match ?x with Some _ => _ | None => _ end] => destruct x
         | |- NoDup (Dict.keys (Js.set _ _ _)) => apply Dict_set_NoDup
         end; exact H.
Qed.

(** A custom configuration that names no domain, protocol or port changes
    nothing about where a fetch goes.  For an origin constructed with such a
    configuration, whose base url has a protocol ending in a colon and a
    host, the upstream request for the event as [onOriginRequest] prepares
    it has the protocol, host and port, and uses the module, of the upstream
    request for the same event without a custom origin. *)
Theorem unset_custom_config_keeps_target :
  forall target c fnSet ev q h,
    let o := newOrigin node target (Some c) in
    fnOrigin fnSet = o ->
    NoDup (Dict.keys c) ->
    Js.truthy (Js.get c "domainName") = false ->
    Js.truthy (Js.get c "protocol") = false ->
    Js.truthy (Js.get c "port") = false ->
    protocol (url_parse node (baseUrl o)) = Some (q ++ ":")%string ->
    hostname (url_parse node (baseUrl o)) = Some h ->
    h <> "" ->
    let prepared :=
      upstreamRequest node toHttpHeaders o (request (withCustomOrigin node fnSet ev)) in
    let plain :=
      upstreamRequest node toHttpHeaders o (request (withOrigin ev None)) in
    optProtocol (options prepared) = optProtocol (options plain) /\
    optHostname (options prepared) = optHostname (options plain) /\
    optPort (options prepared) = optPort (options plain) /\
    viaHttps prepared = viaHttps plain.
Proof.
  intros target c fnSet ev q h o Hf Hnd Td Tp Tport Hproto Hhost Hh prepared plain.
  set (base := baseUrl o) in *.
  set (c' := backfill node base c).
  assert (Hc' : customOrigin (fnOrigin fnSet) = Some c').
  { rewrite Hf. apply newOrigin_customOrigin. }
  assert (Hnd' : NoDup (Dict.keys c')) by (apply backfill_NoDup, Hnd).
  assert (Dd : Js.get c' "domainName" = Js.VStr h).
  { unfold c'. rewrite backfill_domainName, Td, Hhost. reflexivity. }
  assert (Dp : Js.get c' "protocol" = Js.VStr q).
  { unfold c'. rewrite backfill_protocol, Tp, Hproto.
    rewrite append_colon_nonempty, dropLast_colon. reflexivity. }
  assert (Dport : Js.get c' "port" = Js.ofNullable (port (url_parse node base))).
  { unfold c'. rewrite backfill_port, Tport. reflexivity. }
  set (custom := synthesizeCustom node c' (uri (request ev))).
  assert (Sd : Js.get custom "domainName" = Js.VStr h).
  { unfold custom. rewrite synthesizeCustom_domainName by exact Hnd'.
    rewrite Dd. simpl.
    apply String.eqb_neq in Hh. rewrite Hh. reflexivity. }
  assert (Sp : Js.get custom "protocol" = Js.VStr q).
  { unfold custom. rewrite synthesizeCustom_other; [| exact Hnd' | discriminate].
    rewrite (@Js_get_defined c' "protocol"); [exact Dp |].
    rewrite Dp. discriminate. }
  assert (Sport : Js.get custom "port" = Js.ofNullable (port (url_parse node base))).
  { unfold custom. rewrite synthesizeCustom_other; [| exact Hnd' | discriminate].
    rewrite (@Js_get_defined c' "port"); [exact Dport |].
    rewrite Dport. destruct (port (url_parse node base)); discriminate. }
  assert (Hprep : origin (request (withCustomOrigin node fnSet ev))
                  = Some (OriginCustom custom)).
  { unfold withCustomOrigin. rewrite Hc'. reflexivity. }
  unfold prepared, plain, upstreamRequest, requestOptions, isHttps.
  rewrite Hprep. simpl. fold base.
  rewrite Sd, Sp, Sport, Hproto, Hhost. simpl.
  rewrite append_colon_nonempty. simpl.
  repeat split.
  unfold Js.or.
  destruct (port (url_parse node base)) as [p |]; simpl.
  - destruct (p =? "")%string; simpl; [| reflexivity].
    change "https:" with ("https" ++ ":")%string. rewrite eqb_colon. reflexivity.
  - change "https:" with ("https" ++ ":")%string. rewrite eqb_colon. reflexivity.
Qed.

End OriginExtras.

(* ================================================================== *)
(** * More on the router *)
(* ================================================================== *)

Lemma firstSeen_In : forall patterns seen p,
  In p (firstSeen seen patterns) <-> In p seen \/ In p patterns.
Proof.
  induction patterns as [|q patterns IH]; intros seen p; simpl.
  - tauto.
  - destruct (existsb (fun k => (k =? q)%string) seen) eqn:E.
    + rewrite IH. split; [tauto |].
      intros [H | [H | H]]; auto. subst q. left.
      destruct (in_dec string_dec p seen) as [Hin | Hout]; [exact Hin |].
      apply existsb_eqb_false in Hout. congruence.
    + rewrite IH, in_app_iff. simpl. tauto.
Qed.

Lemma firstSeen_NoDup : forall patterns seen,
  NoDup seen -> NoDup (firstSeen seen patterns).
Proof.
  induction patterns as [|q patterns IH]; intros seen H; simpl; [exact H |].
  destruct (existsb (fun k => (k =? q)%string) seen) eqn:E; [apply IH, H |].
  apply IH. apply existsb_eqb_false in E.
  apply NoDup_app; [exact H | repeat constructor; intros [] |].
  intros x Hx [Hq | []]. subst x. contradiction.
Qed.

Lemma Dict_in_get : forall (V : Type) (d : Dict.t V) k v,
  NoDup (Dict.keys d) -> In (k, v) d -> Dict.get d k = Some v.
Proof.
  induction d as [|[k0 v0] d IH]; intros k v Hnd Hin; simpl in *; [contradiction |].
  inversion Hnd as [|? ? Hout Hnd']; subst.
  destruct Hin as [Hin | Hin].
  - inversion Hin; subst. rewrite String.eqb_refl. reflexivity.
  - destruct (k0 =? k)%string eqn:E; [| apply IH; assumption].
    apply String.eqb_eq in E. subst k0. exfalso. apply Hout.
    apply in_map_iff. exists (k, v). auto.
Qed.

(** ** Status codes as text *)

Lemma leadingDigits_uint : forall d,
  Js.leadingDigits (NilEmpty.string_of_uint d) = NilEmpty.string_of_uint d.
Proof. induction d; simpl; congruence. Qed.

Lemma parseInt_digit : forall c rest,
  Js.isDigit c = true ->
  Js.parseInt (String c rest) = Js.digitsValue (Js.leadingDigits (String c rest)).
Proof.
  intros c rest H.
  destruct c as [[] [] [] [] [] [] [] []]; try discriminate H; reflexivity.
Qed.

Lemma string_of_uint_digit : forall d,
  d <> Decimal.Nil ->
  exists c rest,
    NilEmpty.string_of_uint d = String c rest /\ Js.isDigit c = true.
Proof.
  intros d H. destruct d; [contradiction | ..]; simpl; eexists; eexists;
    split; reflexivity.
Qed.

Lemma parseInt_uint : forall d,
  d <> Decimal.Nil ->
  Js.parseInt (NilEmpty.string_of_uint d) = Js.VNum (Z.of_uint d).
Proof.
  intros d H. destruct (@string_of_uint_digit d H) as (c & rest & E & Hc).
  rewrite E, (@parseInt_digit c rest Hc), <- E, leadingDigits_uint.
  unfold Js.digitsValue. rewrite NilEmpty.usu. rewrite E. reflexivity.
Qed.

(** A status code written in decimal and read back by [parseInt] is the
    same number. *)
Lemma string_of_pos : forall p,
  NilZero.string_of_uint (Pos.to_uint p) = NilEmpty.string_of_uint (Pos.to_uint p) /\
  Js.parseInt (NilEmpty.string_of_uint (Pos.to_uint p)) = Js.VNum (Z.pos p) /\
  Js.digitsValue (Js.leadingDigits (NilEmpty.string_of_uint (Pos.to_uint p)))
    = Js.VNum (Z.pos p).
Proof.
  intros p. pose proof (DecimalPos.Unsigned.to_uint_nonnil p) as Hnil.
  assert (Hv : Z.of_uint (Pos.to_uint p) = Z.pos p).
  { unfold Z.of_uint. rewrite DecimalPos.Unsigned.of_to. reflexivity. }
  split; [| split].
  - unfold NilZero.string_of_uint. destruct (Pos.to_uint p);
      [contradiction | ..]; reflexivity.
  - rewrite (@parseInt_uint _ Hnil), Hv. reflexivity.
  - destruct (@string_of_uint_digit _ Hnil) as (c & rest & E & Hc).
    rewrite E, <- (@parseInt_digit c rest Hc), <- E, (@parseInt_uint _ Hnil), Hv.
    reflexivity.
Qed.

Lemma parseInt_string_of_Z : forall n,
  Js.parseInt (Js.string_of_Z n) = Js.VNum n.
Proof.
  intros [|p|p]; [reflexivity | |];
    destruct (string_of_pos p) as (E & Hp & Hd); unfold Js.string_of_Z; simpl.
  - rewrite E. exact Hp.
  - rewrite E. unfold Js.parseInt. simpl. rewrite Hd. reflexivity.
Qed.

Section RouterExtras.

Variable node : Platform.
Variable toHttpHeaders : CloudFrontHeaders -> list (string * list string).
Variables Store CacheEntry : Type.
Variable retrieveFromCache : Store -> Event -> option CacheEntry.
Variable saveToCache : Store -> ResponseEvent -> Store.
Variable toResultResponse : CacheEntry -> Response.
Variable combineResult : Event -> ResponseResult -> ResponseEvent.
Variable purge : Store -> Store.
Variable globToRegExp : string -> Outcome (string -> bool).
Variable loadRequestHandler : string -> Outcome RequestHandler.
Variable loadResponseHandler : string -> Outcome ResponseHandler.
Variable convertToCloudFrontEvent : IncomingRequest -> Outcome Event.
Variable asHttpHeaders : option CloudFrontHeaders -> Outcome (list (string * Js.Val)).
Variable setHeaderError : ServerResponse -> string -> Js.Val -> option JsError.
Variable endError : ServerResponse -> Sent -> option JsError.
Variable serverless_path : string.
Variable opts : ServerlessOptions.
Variable context : Context.

Local Abbreviation extract :=
  (extractBehaviors node globToRegExp loadRequestHandler loadResponseHandler
     serverless_path).
Local Abbreviation handleRequest :=
  (requestHandler node toHttpHeaders retrieveFromCache saveToCache
     toResultResponse combineResult purge convertToCloudFrontEvent
     asHttpHeaders setHeaderError endError opts context).
Local Abbreviation lifecycleOf :=
  (runLifecycle node toHttpHeaders retrieveFromCache saveToCache
     toResultResponse combineResult opts context).

Local Abbreviation setAll := (setHeaders setHeaderError).
Local Abbreviation send := (sendResponse asHttpHeaders setHeaderError endError).

(** ** The loop over the headers *)

(** However the loop ends, it changes nothing but the headers. *)
Lemma setHeaders_keeps_status : forall hs res o res',
  setAll hs res = (o, res') ->
  statusCode res' = statusCode res /\
  statusMessage res' = statusMessage res /\
  ended res' = ended res.
Proof.
  induction hs as [|[k v] hs IH]; intros res o res' H; simpl in H.
  - inversion H; subst. auto.
  - destruct (Js.truthy v).
    + destruct (setHeaderError res k v).
      * inversion H; subst. auto.
      * destruct (IH _ _ _ H) as (H1 & H2 & H3). simpl in *. auto.
    + apply (IH _ _ _ H).
Qed.

(** When Node accepts every header with a truthy value, the loop runs to its
    end and has set exactly those, on top of what was set before. *)
Lemma setHeaders_accepted : forall hs res,
  (forall r k v, In (k, v) hs -> Js.truthy v = true -> setHeaderError r k v = None) ->
  exists res',
    setAll hs res = (Resolved tt, res') /\
    (forall k,
       Dict.has (sentHeaders res') k = true <->
       Dict.has (sentHeaders res) k = true \/
       exists v, In (k, v) hs /\ Js.truthy v = true).
Proof.
  induction hs as [|[k0 v0] hs IH]; intros res Hok; simpl.
  - exists res. split; [reflexivity |].
    intros k. split; [auto | intros [H | (v & [] & _)]; exact H].
  - assert (Hrest : forall r k v, In (k, v) hs -> Js.truthy v = true ->
                                  setHeaderError r k v = None).
    { intros r k v Hin. apply Hok. right. exact Hin. }
    destruct (Js.truthy v0) eqn:T.
    + rewrite (Hok res k0 v0 (or_introl eq_refl) T).
      destruct (IH (withHeader res k0 v0) Hrest) as (res' & E & Hh).
      exists res'. split; [exact E |].
      intros k. rewrite Hh. simpl. split.
      * intros [H | (v & Hin & Hv)]; [| right; exists v; auto].
        apply Dict_has_true in H. rewrite Dict_keys_set in H.
        destruct (Dict.has (sentHeaders res) k0) eqn:Hk.
        -- left. apply Dict_has_true. exact H.
        -- apply in_app_or in H. destruct H as [H | [H | []]].
           ++ left. apply Dict_has_true. exact H.
           ++ subst k0. right. exists v0. auto.
      * intros [H | (v & [Hin | Hin] & Hv)].
        -- left. apply Dict_has_set_mono. exact H.
        -- inversion Hin; subst. left. apply Dict_has_set.
        -- right. exists v. auto.
    + destruct (IH res Hrest) as (res' & E & Hh).
      exists res'. split; [exact E |].
      intros k. rewrite Hh. split.
      * intros [H | (v & Hin & Hv)]; [left; exact H | right; exists v; auto].
      * intros [H | (v & [Hin | Hin] & Hv)]; [left; exact H | | right; exists v; auto].
        inversion Hin; subst. congruence.
Qed.

(** ** The registry *)

(** The registry [extractBehaviors] builds holds each pattern once: its keys
    are, without repetition, ["*"] and the patterns of the functions that
    declare a lambda at the edge or a cloudFront event, and no other; looking
    a pattern up finds exactly the FunctionSet registered for it. *)
Theorem registry_holds_each_pattern_once :
  forall origins functions behaviors,
    extract origins functions = Resolved behaviors ->
    NoDup (Dict.keys behaviors) /\
    (forall k,
       In k (Dict.keys behaviors) <->
       k = "*" \/
       exists name def,
         In (name, def) functions /\ isLambdaDef def = true /\ patternOf def = k) /\
    (forall k f, In (k, f) behaviors <-> Dict.get behaviors k = Some f).
Proof.
  intros origins functions behaviors He.
  destruct (@extractBehaviors_resolved _ _ _ _ _ _ _ _ He) as (_ & _ & Hk).
  assert (Hnd : NoDup (Dict.keys behaviors)).
  { rewrite Hk. apply firstSeen_NoDup. constructor. }
  split; [exact Hnd |]. split.
  - intros k. rewrite Hk, firstSeen_In, in_app_iff, in_map_iff. simpl. split.
    + intros [[] | [(def & Hp & Hin) | [Hs | []]]]; [| left; auto].
      apply filter_In in Hin. destruct Hin as [Hin Hl].
      unfold Dict.values in Hin. apply in_map_iff in Hin.
      destruct Hin as ([name def'] & Hd & Hin). simpl in Hd. subst def'.
      right. exists name, def. auto.
    + intros [-> | (name & def & Hin & Hl & Hp)]; [right; right; left; reflexivity |].
      right. left. exists def. split; [exact Hp |].
      apply filter_In. split; [| exact Hl].
      unfold Dict.values. apply in_map_iff. exists (name, def). auto.
  - intros k f. split; [apply Dict_in_get; exact Hnd | apply Dict_get_in].
Qed.

(** The origin [configureOrigins] keeps for a pattern is the one constructed
    from the last mapping that names the pattern; a pattern no mapping names
    has none.  Each mapping carries a configuration of its own here: two
    mappings sharing one configuration object are outside this model. *)
Theorem last_origin_mapping_wins :
  forall mappings p,
    Dict.get (configureOrigins node mappings) p =
    match find (fun m => (pathPattern m =? p)%string) (rev mappings) with
    | Some m => Some (newOrigin node (Some (target m)) (customOriginConfig m))
    | None => None
    end.
Proof.
  intros mappings p. unfold configureOrigins.
  induction mappings as [|m mappings IH] using rev_ind; [reflexivity |].
  rewrite fold_left_app, rev_app_distr. simpl.
  destruct (pathPattern m =? p)%string eqn:E.
  - apply String.eqb_eq in E. subst p. apply Dict_get_set_same.
  - apply String.eqb_neq in E. rewrite Dict_get_set_other by exact E. exact IH.
Qed.

(** ** The listener *)

(** When [run] resolves to nothing, the request handler answers as
    [handleError] does for [Boom.internal()]: status 500, the message of that
    error as the body, and no header added. *)
Theorem void_result_is_an_internal_error :
  forall behaviors req res st handler ev s,
    (Js.toUpperCase (match reqMethod req with Some m => m | None => "" end)
       =? "PURGE")%string = false ->
    match_ node behaviors req = Resolved (Some handler) ->
    convertToCloudFrontEvent req = Resolved ev ->
    lifecycleOf handler ev
      (match reqUrl req with Some u => u | None => "" end) st
      = (Resolved None, s) ->
    exists res',
      handleRequest behaviors req res st = (Resolved tt, res', store s) /\
      res' = handleError (Boom_internal None) res /\
      statusCode res' = Js.VNum 500 /\
      ended res' = Some (mkSent (Some (BodyString (errMessage (Boom_internal None)))) None) /\
      sentHeaders res' = sentHeaders res.
Proof.
  intros behaviors req res st handler ev s Hm Hmatch Hconv Hrun.
  exists (handleError (Boom_internal None) res).
  split; [| repeat split; reflexivity].
  unfold requestHandler. rewrite Hm, Hmatch, Hconv. fold lifecycleOf.
  rewrite Hrun. reflexivity.
Qed.

(** A request the registry cannot place never starts a lifecycle.  Without a
    url, [match] answers null and the request is converted all the same,
    before the handler is looked at: when the conversion returns, the request
    is answered 404 with an empty body and the cache is left alone; when the
    conversion throws, the handler rejects with what it threw and nothing is
    written to the response.  With a url [new URL] rejects, [match] throws
    before the conversion is called: the handler rejects and nothing is
    written to the response. *)
Theorem request_without_usable_url :
  forall behaviors req res st,
    (Js.toUpperCase (match reqMethod req with Some m => m | None => "" end)
       =? "PURGE")%string = false ->
    (reqUrl req = None \/ reqUrl req = Some "" ->
     (forall ev,
        convertToCloudFrontEvent req = Resolved ev ->
        handleRequest behaviors req res st =
          (Resolved tt,
           {| statusCode := Js.VNum 404; statusMessage := statusMessage res;
              sentHeaders := sentHeaders res; ended := Some (mkSent None None) |},
           st)) /\
     (forall err,
        convertToCloudFrontEvent req = Rejected err ->
        handleRequest behaviors req res st = (Rejected err, res, st))) /\
    (forall url err,
       reqUrl req = Some url -> url <> "" ->
       URL_pathname node url = Rejected err ->
       handleRequest behaviors req res st = (Rejected err, res, st)).
Proof.
  intros behaviors req res st Hm. split.
  - intros Hu. split.
    + intros ev Hconv. unfold requestHandler. rewrite Hm.
      rewrite (match_without_url node behaviors req Hu), Hconv. reflexivity.
    + intros err Hconv. unfold requestHandler. rewrite Hm.
      rewrite (match_without_url node behaviors req Hu), Hconv. reflexivity.
  - intros url err Hu Hne Hp. unfold requestHandler, match_.
    rewrite Hm, Hu. apply String.eqb_neq in Hne. rewrite Hne, Hp. reflexivity.
Qed.


(** The status code an origin answered with is the status code the listener
    sets when it is handed the response [retrieve] made of that answer: the
    code is written in decimal by [retrieve] and read back by [parseInt] ("0"
    and 0 when the origin gave no code), whatever the converted headers and
    whatever Node then refuses. *)
Theorem origin_status_reaches_the_client :
  forall r res,
    statusCode (snd (send (Some (toResponse r)) res)) =
      Js.VNum (match resStatusCode r with Some c => c | None => 0 end).
Proof.
  intros r res.
  assert (Hp : Js.parseInt (status (toResponse r)) =
               Js.VNum (match resStatusCode r with Some c => c | None => 0 end)).
  { simpl. apply parseInt_string_of_Z. }
  unfold sendResponse.
  destruct (asHttpHeaders (respHeaders (toResponse r))) as [hs | e |];
    try exact Hp.
  match goal with
  | |- context [setHeaders setHeaderError hs ?x] =>
      destruct (setHeaders setHeaderError hs x) as [o res2] eqn:E;
      destruct (setHeaders_keeps_status _ _ E) as (H1 & _)
  end.
  destruct o as [u | e |];
    [destruct (endError res2 (toSend (respBody (toResponse r)))) |..];
    simpl; rewrite H1; exact Hp.
Qed.

End RouterExtras.

(* ================================================================== *)
(** * The further properties on concrete configurations *)
(* ================================================================== *)

Section FurtherOnFixture.

Import Fixture Cases.

Local Abbreviation platform := (node OrdinaryFunction).
Local Abbreviation page := (eventOf (get "/a")).

Lemma run_calls_at_most_once_witness :
  let s := start (get "/a") [] in
  let out := runOn OrdinaryFunction cacheOn proxied (get "/a") [] in
  (exists l, cacheLookups (trace (snd out)) = cacheLookups (trace s) ++ l /\
             (List.length l <= 1)%nat) /\
  (exists l, originRequestCalls (trace (snd out)) = originRequestCalls (trace s) ++ l /\
             (List.length l <= 1)%nat) /\
  (exists l, originFetches (trace (snd out)) = originFetches (trace s) ++ l /\
             (List.length l <= 1)%nat) /\
  (exists l, originResponseCalls (trace (snd out)) = originResponseCalls (trace s) ++ l /\
             (List.length l <= 1)%nat) /\
  (exists l, cacheWrites (trace (snd out)) = cacheWrites (trace s) ++ l /\
             (List.length l <= 1)%nat).
Proof.
  cbv zeta.
  apply (run_calls_at_most_once platform toHttpHeaders retrieveFromCache
           saveToCache toResultResponse combineResult cacheOn ctx proxied "/a"
           (start (get "/a") [])
           (o := fst (runOn OrdinaryFunction cacheOn proxied (get "/a") []))).
  vm_compute. reflexivity.
Defined.

Lemma viewer_request_handler_rejection_witness :
  viewerRequest viewerFails page ctx = (Rejected (ErrOther "viewer broke"), page) /\
  exists l,
    runOn OrdinaryFunction cacheOn viewerFails (get "/a") warm
      = (Rejected (ErrOther "viewer broke"), mkState page warm ([] ++ l)) /\
    cacheLookups l = [] /\
    originRequestCalls l = [] /\
    originFetches l = [] /\
    cacheWrites l = [] /\
    viewerResponseCalls l = [].
Proof.
  split; [reflexivity |].
  apply (viewer_request_handler_rejection platform toHttpHeaders
           retrieveFromCache saveToCache toResultResponse combineResult
           cacheOn ctx viewerFails "/a" (start (get "/a") warm));
    reflexivity.
Defined.

Lemma viewer_response_NoResult_is_swallowed_witness :
  viewerResponse viewerResponseGivesUp (combineResult page (Some teapot)) ctx
    = Rejected ErrNoResult /\
  exists l,
    runOn OrdinaryFunction cacheOff viewerResponseGivesUp (get "/a") []
      = fromOriginRequest platform toHttpHeaders saveToCache combineResult ctx
          viewerResponseGivesUp (mkState page [] ([] ++ l)) /\
    viewerResponseCalls l = [combineResult page (Some teapot)] /\
    originRequestCalls l = [] /\
    cacheWrites l = [].
Proof.
  split; [reflexivity |].
  apply (viewer_response_NoResult_is_swallowed platform toHttpHeaders
           retrieveFromCache saveToCache toResultResponse combineResult
           cacheOff ctx viewerResponseGivesUp "/a" (start (get "/a") []));
    reflexivity.
Defined.

Lemma full_origin_round_trip_witness :
  retrieve platform toHttpHeaders httpOrigin page = Resolved fetched /\
  exists l,
    runOn OrdinaryFunction cacheOn proxied (get "/a") []
      = (Resolved (Some (mkResponse "200" (Some "viewer-response")
                           (respHeaders fetched) (Some "text")
                           (Some (BodyBuffer "hello")))),
         mkState (withOrigin page None)
           (saveToCache []
              (combineResult (withOrigin page None)
                 (Some (mkResponse "200" (Some "origin-response")
                          (respHeaders fetched) (Some "text")
                          (Some (BodyBuffer "hello"))))))
           ([] ++ l)) /\
    originRequestCalls l = [withCustomOrigin platform proxied page] /\
    originFetches l = [page] /\
    originResponseCalls l = [combineResult page (Some fetched)] /\
    cacheWrites l =
      [combineResult (withOrigin page None)
         (Some (mkResponse "200" (Some "origin-response") (respHeaders fetched)
                  (Some "text") (Some (BodyBuffer "hello"))))] /\
    viewerResponseCalls l =
      [combineResult (withOrigin page None)
         (Some (mkResponse "200" (Some "origin-response") (respHeaders fetched)
                  (Some "text") (Some (BodyBuffer "hello"))))].
Proof.
  split; [vm_compute; reflexivity |].
  apply (full_origin_round_trip platform toHttpHeaders retrieveFromCache
           saveToCache toResultResponse combineResult cacheOn ctx proxied "/a"
           (start (get "/a") []) (x := ResultRequest (get "/a")) (e1 := page)
           (y := ResultRequest (get "/a")) (e2 := page) (fetched := fetched));
    vm_compute; reflexivity.
Defined.

Lemma origin_response_handler_rejection_witness :
  originResponse originResponseFails (combineResult page (Some fetched)) ctx
    = Rejected (ErrOther "origin-response broke") /\
  exists l,
    runOn OrdinaryFunction cacheOn originResponseFails (get "/a") []
      = (Rejected (ErrOther "origin-response broke"), mkState page [] ([] ++ l)) /\
    originFetches l = [page] /\
    cacheWrites l = [] /\
    viewerResponseCalls l = [].
Proof.
  split; [reflexivity |].
  apply (origin_response_handler_rejection platform toHttpHeaders
           retrieveFromCache saveToCache toResultResponse combineResult
           cacheOn ctx originResponseFails "/a" (start (get "/a") [])
           (x := ResultRequest (get "/a")) (e1 := page)
           (y := ResultRequest (get "/a")) (e2 := page) (fetched := fetched));
    vm_compute; reflexivity.
Defined.

Lemma retrieved_headers_witness :
  exists h,
    respHeaders (toResponse (mkResource (imHeaders unavailable) (Some 503)
                               (BodyBuffer "try later"))) = Some h /\
    NoDup (Dict.keys h) /\
    Dict.has h "retry-after" = true /\
    Dict.has h "x-empty" = true /\
    (forall es, In ("retry-after", es) h ->
       exists key v, es = [mkHeaderEntry key v] /\ Js.toLowerCase key = "retry-after").
Proof.
  destruct (retrieved_headers (mkResource (imHeaders unavailable) (Some 503)
                                 (BodyBuffer "try later")))
    as (h & Hh & Hnd & Hentries & Hcomplete).
  exists h. split; [exact Hh |]. split; [exact Hnd |].
  split.
  { apply (Hcomplete "Retry-After" (Js.VStr "120")); [left; reflexivity | discriminate]. }
  split.
  { apply (Hcomplete "X-Empty" (Js.VStr ""));
      [right; right; left; reflexivity | discriminate]. }
  intros es Hin. destruct (Hentries _ _ Hin) as (key & v & _ & _ & Hk & Hes).
  exists key, (if Js.truthy v then Js.toString v else ""). auto.
Defined.

Lemma file_origin_fetch_witness :
  retrieve platform toHttpHeaders siteOrigin (eventOf (get "/index.html")) =
    Resolved (mkResponse "0" (Some "") (Some []) (Some "text")
                (Some (BodyString "<html/>"))) /\
  retrieve platform toHttpHeaders siteOrigin (eventOf (get "/missing.html")) =
    classify platform (ErrOther "ENOENT").
Proof.
  assert (Hne : "site" <> "") by discriminate.
  split.
  - apply (proj1 (file_origin_fetch platform toHttpHeaders None
                    (eventOf (get "/index.html")) Hne eq_refl eq_refl)).
    reflexivity.
  - apply (proj2 (file_origin_fetch platform toHttpHeaders None
                    (eventOf (get "/missing.html")) Hne eq_refl eq_refl)).
    reflexivity.
Defined.

Lemma upstream_status_is_passed_on_witness :
  exists r,
    retrieve (nodeWith unavailable) toHttpHeaders httpOrigin page = Resolved r /\
    status r = "503" /\
    statusDescription r = Some "" /\
    bodyEncoding r = Some "text" /\
    respBody r = Some (BodyBuffer "try later").
Proof.
  apply (upstream_status_is_passed_on (nodeWith unavailable) toHttpHeaders
           httpOrigin page (res := unavailable) ["try "; "later"]
           [OnData "ignored"]);
    [left; reflexivity | reflexivity | reflexivity].
Defined.

Lemma upstream_stream_error_witness :
  getHttpResource (nodeWith broken) toHttpHeaders httpOrigin (request page)
    = Rejected (ErrOther "ECONNRESET") /\
  retrieve (nodeWith broken) toHttpHeaders httpOrigin page
    = classify (nodeWith broken) (ErrOther "ECONNRESET").
Proof.
  apply (upstream_stream_error (nodeWith broken) toHttpHeaders httpOrigin page
           (res := broken) ["par"] (ErrOther "ECONNRESET") [OnClose]);
    [left; reflexivity | reflexivity | reflexivity].
Defined.

Lemma upstream_request_closes_connection_witness :
  let up := options (upstreamRequest platform toHttpHeaders httpOrigin keepAlive) in
  Js.get (outgoingHeaders toHttpHeaders (headers keepAlive)) "connection"
    = Js.VStr "keep-alive" /\
  Js.get (optHeaders up) "connection" = Js.VStr "Close" /\
  Js.get (optHeaders up) "accept" = Js.VStr "text/html".
Proof.
  cbv zeta.
  destruct (upstream_request_closes_connection platform toHttpHeaders
              httpOrigin keepAlive) as (Hc & _ & _ & Hother).
  split; [reflexivity |]. split; [exact Hc |].
  rewrite Hother; [reflexivity | intros custom H; discriminate H | discriminate].
Defined.

Lemma custom_origin_parameters_witness :
  let custom := synthesizeCustom platform timeouts "https://secure.test" in
  Js.get custom "readTimeout" = Js.VNum 9 /\
  Js.get custom "domainName" = Js.VStr "secure.test" /\
  Js.get custom "keepaliveTimeout" = Js.VNum 5 /\
  Js.get custom "port" = Js.VNum 0 /\
  Js.get custom "protocol" = Js.VStr "https".
Proof.
  cbv zeta.
  assert (Hnd : NoDup (Dict.keys timeouts)).
  { repeat constructor. intros []. }
  destruct (custom_origin_parameters platform timeouts "https://secure.test" Hnd)
    as (Hkeep & _ & Hdomain & Hkeepalive & _ & _ & Hport & Hproto).
  split; [apply Hkeep; [discriminate | reflexivity] |].
  split; [apply Hdomain; reflexivity |].
  split; [apply Hkeepalive; reflexivity |].
  split; [apply Hport; reflexivity | apply Hproto; reflexivity].
Defined.

Lemma unset_custom_config_keeps_target_witness :
  let prepared :=
    upstreamRequest platform toHttpHeaders (fnOrigin customised)
      (request (withCustomOrigin platform customised page)) in
  let plain :=
    upstreamRequest platform toHttpHeaders (fnOrigin customised)
      (request (withOrigin page None)) in
  origin (request (withCustomOrigin platform customised page)) <> None /\
  optProtocol (options prepared) = optProtocol (options plain) /\
  optHostname (options prepared) = optHostname (options plain) /\
  optPort (options prepared) = optPort (options plain) /\
  viaHttps prepared = viaHttps plain.
Proof.
  cbv zeta. split; [vm_compute; discriminate |].
  assert (Hnd : NoDup (Dict.keys timeouts)).
  { repeat constructor. intros []. }
  assert (Hh : "origin.test" <> "") by discriminate.
  exact (unset_custom_config_keeps_target platform toHttpHeaders
           (Some "http://origin.test:8080") timeouts customised page "http"
           eq_refl Hnd eq_refl eq_refl eq_refl eq_refl eq_refl Hh).
Defined.

Local Abbreviation constructed :=
  (match registry with
   | Resolved behaviors => behaviors
   | _ => []
   end).

Lemma registry_holds_each_pattern_once_witness :
  registry = Resolved constructed /\
  NoDup (Dict.keys constructed) /\
  In "/api/*" (Dict.keys constructed) /\
  In "*" (Dict.keys constructed) /\
  (forall f, In ("*", f) constructed -> Dict.get constructed "*" = Some f).
Proof.
  assert (Hreg : registry = Resolved constructed) by (vm_compute; reflexivity).
  split; [exact Hreg |].
  pose proof (registry_holds_each_pattern_once platform globToRegExp
                loadRequestHandler loadResponseHandler "src"
                (configureOrigins platform originMap) functions
                (behaviors := constructed) Hreg) as (Hnd & Hkeys & Hget).
  split; [exact Hnd |].
  split.
  { apply Hkeys. right.
    exists "apiViewer",
      (mkServerlessFunction "handlers/api.viewer"
         (Some (mkEdgeLambdaOptions "site" "viewer-response" "/api/*")) []).
    split; [left; reflexivity | split; reflexivity]. }
  split.
  { apply Hkeys. left. reflexivity. }
  intros f Hin. apply Hget. exact Hin.
Defined.

(** The cache after the lifecycle the listener builds for [f] and a GET of
    [url], on the platform with the strict [URL]. *)
Local Abbreviation cacheAfter f url :=
  (store (snd (runLifecycle (nodeWith upstream) toHttpHeaders
                 retrieveFromCache saveToCache toResultResponse
                 combineResult cacheOn ctx f
                 (converted (inbound "GET" (Some url%string))) url%string []))).

Lemma void_result_is_an_internal_error_witness :
  exists res',
    handleStrictly voided (inbound "GET" (Some "/a"))
      = (Resolved tt, res', cacheAfter voided "/a") /\
    res' = handleError (Boom_internal None) freshResponse /\
    statusCode res' = Js.VNum 500 /\
    ended res' = Some (mkSent (Some (BodyString (errMessage (Boom_internal None)))) None) /\
    sentHeaders res' = sentHeaders freshResponse.
Proof.
  apply (void_result_is_an_internal_error (nodeWith upstream) toHttpHeaders
           retrieveFromCache saveToCache toResultResponse combineResult purge
           convertToCloudFrontEvent asHttpHeaders setHeaderError endError
           cacheOn ctx
           [("*", voided)] (inbound "GET" (Some "/a")) freshResponse []
           (handler := voided) (ev := converted (inbound "GET" (Some "/a"))));
    [reflexivity | reflexivity | reflexivity | vm_compute; reflexivity].
Defined.

Lemma request_without_usable_url_witness :
  handleStrictly proxied (inbound "GET" None) =
    (Resolved tt,
     {| statusCode := Js.VNum 404; statusMessage := "";
        sentHeaders := []; ended := Some (mkSent None None) |},
     []) /\
  requestHandler (nodeWith upstream) toHttpHeaders retrieveFromCache
      saveToCache toResultResponse combineResult purge refuse asHttpHeaders
      setHeaderError endError cacheOn ctx [("*", proxied)]
      (inbound "GET" None) freshResponse [] =
    (Rejected (ErrTypeError "Cannot read properties of undefined"),
     freshResponse, []) /\
  handleStrictly proxied (inbound "GET" (Some "//")) =
    (Rejected (ErrTypeError "Invalid URL"), freshResponse, []).
Proof.
  destruct (request_without_usable_url (nodeWith upstream) toHttpHeaders
              retrieveFromCache saveToCache toResultResponse combineResult purge
              convertToCloudFrontEvent asHttpHeaders setHeaderError endError
              cacheOn ctx
              [("*", proxied)] (inbound "GET" None) freshResponse [] eq_refl)
    as (Hnone & _).
  destruct (request_without_usable_url (nodeWith upstream) toHttpHeaders
              retrieveFromCache saveToCache toResultResponse combineResult purge
              refuse asHttpHeaders setHeaderError endError cacheOn ctx
              [("*", proxied)] (inbound "GET" None) freshResponse [] eq_refl)
    as (Hthrows & _).
  destruct (request_without_usable_url (nodeWith upstream) toHttpHeaders
              retrieveFromCache saveToCache toResultResponse combineResult purge
              convertToCloudFrontEvent asHttpHeaders setHeaderError endError
              cacheOn ctx
              [("*", proxied)] (inbound "GET" (Some "//")) freshResponse [] eq_refl)
    as (_ & Hbad).
  split; [| split].
  - destruct (Hnone (or_introl eq_refl)) as (H & _).
    apply (H (converted (inbound "GET" None))). reflexivity.
  - destruct (Hthrows (or_introl eq_refl)) as (_ & H).
    apply H. reflexivity.
  - apply (Hbad "//" (ErrTypeError "Invalid URL")); [reflexivity | discriminate | reflexivity].
Defined.


End FurtherOnFixture.
